(** * Fantasy WAR: a shallow embedding of the calculators and validators

    The Python sources under [src/fantasy_war] are embedded function by
    function.  Conventions used throughout:

    - a Python [float] is a real number ([R]); arithmetic is the exact
      arithmetic of the reals, so rounding error, infinities and NaN are
      outside the model; the two kicking paths, whose results are compared
      to the last bit, are the exception: there a [float] is the binary64
      number it is (module [Binary64]);
    - a Python [int] is an integer ([Z]);
    - a Python [str] is a [string];
    - a polars data frame is the list of its rows, in row order;
    - a function that can raise returns a [result]: [Ok v] for a normal
      return of [v], [Raise e] for an exception [e] that leaves the function;
      a return of [None] is [Ok None];
    - [scipy.stats.norm.cdf] is the cumulative distribution function of the
      normal law, defined here through the Riemann integral of the Gaussian
      density. *)

From Stdlib Require Import Reals Lra Lia ZArith.
From Stdlib Require Import Floats.SpecFloat.
From Stdlib Require Import Ascii.
From stdpp Require Import base option list gmap strings pretty sorting.

Open Scope R_scope.

(** ** Python values shared by all modules *)

Module Py.

(** Exceptions that leave a function of the embedding. *)
Inductive exn : Type :=
| ValueError (msg : string)
| TypeError
| NameError (name : string)
| ZeroDivisionError
| ValidationError
| ColumnNotFoundError (name : string).

Inductive result (A : Type) : Type :=
| Ok (a : A)
| Raise (e : exn).
Arguments Ok {A} a.
Arguments Raise {A} e.

#[global] Instance result_ret : MRet result := fun A a => Ok a.
#[global] Instance result_bind : MBind result := fun A B f m =>
  match m with
  | Ok a => f a
  | Raise e => Raise e
  end.

#[global] Instance Rle_decision (x y : R) : Decision (x <= y) := Rle_dec x y.
#[global] Instance Rlt_decision (x y : R) : Decision (x < y) := Rlt_dec x y.
#[global] Instance Rge_decision (x y : R) : Decision (x >= y) := Rge_dec x y.
#[global] Instance Rgt_decision (x y : R) : Decision (x > y) := Rgt_dec x y.
#[global] Instance Req_decision : EqDecision R := Req_dec_T.

(** The builtins [min(a, b)] and [max(a, b)]: the first argument is kept
    unless the second is strictly smaller (resp. larger). *)
Definition min (a b : R) : R := if decide (b < a) then b else a.
Definition max (a b : R) : R := if decide (b > a) then b else a.

(** [a / b] on floats. *)
Definition truediv (a b : R) : result R :=
  if decide (b = 0) then Raise ZeroDivisionError else Ok (a / b).

(** [sum(xs)] and the mean of a numeric column ([None] on no rows). *)
Definition sum (xs : list R) : R := foldr Rplus 0 xs.
Definition mean (xs : list R) : option R :=
  match xs with
  | [] => None
  | _ => Some (sum xs / INR (length xs))
  end.

(** The nearest integer, a tie going to the even neighbour. *)
Definition round_half_even (x : R) : Z :=
  let f := Zfloor x in
  let d := x - IZR f in
  if decide (d < 1 / 2) then f
  else if decide (d > 1 / 2) then (f + 1)%Z
  else if Z.even f then f else (f + 1)%Z.

(** [round(x, 0)] on a float: the nearest whole number, as a float. *)
Definition round (x : R) : R := IZR (round_half_even x).

End Py.

Import Py.

(** ** calculators/win_probability.py *)

Module WinProbability.

(** The density of the standard normal law, up to its constant factor. *)
Definition gauss_density (t : R) : R := exp (- (t * t) / 2).

Lemma gauss_density_continuity : continuity gauss_density.
Proof.
  unfold gauss_density.
  apply (continuity_comp (fun t => - (t * t) / 2) exp).
  - reg.
  - apply derivable_continuous, derivable_exp.
Qed.

Definition gauss_integrable (a b : R) : Riemann_integrable gauss_density a b :=
  match Rle_dec a b with
  | left Hab =>
      continuity_implies_RiemannInt Hab
        (fun x _ => gauss_density_continuity x)
  | right Hnab =>
      RiemannInt_P1
        (continuity_implies_RiemannInt (Rlt_le _ _ (Rnot_le_lt _ _ Hnab))
           (fun x _ => gauss_density_continuity x))
  end.

Definition gauss_integral (a b : R) : R := RiemannInt (gauss_integrable a b).

(** The standard normal cumulative distribution function. *)
Definition std_norm_cdf (z : R) : R :=
  1 / 2 + gauss_integral 0 z / sqrt (2 * PI).

(** [stats.norm.cdf(x, loc=loc, scale=scale)]. *)
Definition norm_cdf (x loc scale : R) : R := std_norm_cdf ((x - loc) / scale).

Definition calculate_win_probability
    (player_score team_average_score team_score_std : R) : R :=
  let team_score_std :=
    if decide (team_score_std <= 0) then 1 else team_score_std in
  let expected_team_score := player_score in
  let win_prob := norm_cdf expected_team_score team_average_score team_score_std in
  let win_prob := Py.max 0 (Py.min 1 win_prob) in
  win_prob.

(** The [team_context] dictionary, with its two keys. *)
Record TeamContext : Type := {
  team_avg_score : R;
  team_score_std : R
}.

(** One dictionary of the curve. *)
Record CurvePoint : Type := {
  fantasy_points : R;
  win_probability : R;
  expected_wins : R;
  war : R;
  marginal_war : R
}.

(** [np.linspace(start, stop, num)]: [num] evenly spaced samples with both
    end points; a negative [num] is a [ValueError]. *)
Definition linspace (start stop : R) (num : Z) : result (list R) :=
  if decide (num < 0)%Z then
    Raise (ValueError ("Number of samples, " +:+ pretty num +:+
                       ", must be non-negative."))
  else
    let n := Z.to_nat num in
    let div := INR (n - 1) in
    let step := (stop - start) / div in
    Ok (map (fun i => if decide (0 < div) then start + INR i * step else start)
            (seq 0 n)).

(** The body of the [for points in point_values] loop: [curve_points] is the
    list built so far, the new dictionary is appended to it. *)
Definition curve_append (team_context : TeamContext) (replacement_win_prob : R)
    (curve_points : list CurvePoint) (points : R) : list CurvePoint :=
  let win_prob :=
    calculate_win_probability points
      (team_avg_score team_context) (team_score_std team_context) in
  let games := 17 in
  let expected_wins := win_prob * games in
  let replacement_wins := replacement_win_prob * games in
  let war_ := expected_wins - replacement_wins in
  curve_points ++
    [{| fantasy_points := points;
        win_probability := win_prob;
        expected_wins := expected_wins;
        war := war_;
        marginal_war :=
          war_ - (match last curve_points with
                  | Some p => war p
                  | None => 0
                  end) |}].

Definition calculate_value_over_replacement_curve
    (fantasy_points_range : R * R) (replacement_level_points : R)
    (team_context : TeamContext) (num_points : Z)
    : result (list CurvePoint) :=
  let '(min_points, max_points) := fantasy_points_range in
  if decide (min_points >= max_points) then Ok []
  else
    point_values ← linspace min_points max_points num_points;
    let replacement_win_prob :=
      calculate_win_probability replacement_level_points
        (team_avg_score team_context) (team_score_std team_context) in
    Ok (foldl (curve_append team_context replacement_win_prob) [] point_values).

End WinProbability.

(** ** config/leagues.py *)

Module Leagues.

Record RosterRequirements : Type := {
  qb_min : Z; qb_max : Z;
  rb_min : Z; rb_max : Z;
  wr_min : Z; wr_max : Z;
  te_min : Z; te_max : Z;
  pk_min : Z; pk_max : Z;
  pn_min : Z; pn_max : Z;
  dt_min : Z; dt_max : Z;
  de_min : Z; de_max : Z;
  lb_min : Z; lb_max : Z;
  cb_min : Z; cb_max : Z;
  s_min : Z; s_max : Z;
  offensive_flex_max : Z;
  total_idp : Z;
  total_starters : Z
}.

Definition position_map (self : RosterRequirements) : gmap string (Z * Z) :=
  list_to_map
    [("QB", (qb_min self, qb_max self));
     ("RB", (rb_min self, rb_max self));
     ("WR", (wr_min self, wr_max self));
     ("TE", (te_min self, te_max self));
     ("PK", (pk_min self, pk_max self));
     ("PN", (pn_min self, pn_max self));
     ("DT", (dt_min self, dt_max self));
     ("DE", (de_min self, de_max self));
     ("LB", (lb_min self, lb_max self));
     ("CB", (cb_min self, cb_max self));
     ("S", (s_min self, s_max self))].

Definition get_position_requirements (self : RosterRequirements)
    (position : string) : Z * Z :=
  default (0, 0)%Z (position_map self !! position).

Record LeagueConfig : Type := {
  name : string;
  teams : Z;
  regular_season_weeks : list Z;
  playoff_weeks : list Z;
  roster : RosterRequirements;
  minimum_games_played : Z;
  use_expected_points : bool
}.

(** The [Field(..., ge=0)] constraints of [RosterRequirements]: every
    constructed instance satisfies them. *)
Definition roster_fields_ok (r : RosterRequirements) : Prop :=
  Forall (fun v => 0 <= v)%Z
    [qb_min r; qb_max r; rb_min r; rb_max r; wr_min r; wr_max r;
     te_min r; te_max r; pk_min r; pk_max r; pn_min r; pn_max r;
     dt_min r; dt_max r; de_min r; de_max r; lb_min r; lb_max r;
     cb_min r; cb_max r; s_min r; s_max r].

(** The constraints of [LeagueConfig]: [teams] has [ge=4, le=32] and
    [minimum_games_played] has [ge=1]. *)
Definition config_fields_ok (c : LeagueConfig) : Prop :=
  (4 <= teams c <= 32)%Z /\ (1 <= minimum_games_played c)%Z /\
  roster_fields_ok (roster c).

Definition get_starter_pool_size (self : LeagueConfig) (position : string) : Z :=
  let '(min_req, max_req) := get_position_requirements (roster self) position in
  if decide (max_req > 0)%Z then (teams self * max_req)%Z else 0%Z.

Definition all_position_codes : list string :=
  ["QB"; "RB"; "WR"; "TE"; "PK"; "PN"; "DT"; "DE"; "LB"; "CB"; "S"].

Definition get_all_positions (self : LeagueConfig) : list string :=
  filter (fun pos => (snd (get_position_requirements (roster self) pos) > 0)%Z)
    all_position_codes.

(** [RosterRequirements()] and [fal_league]. *)
Definition default_roster : RosterRequirements :=
  {| qb_min := 1; qb_max := 1; rb_min := 1; rb_max := 2;
     wr_min := 2; wr_max := 4; te_min := 1; te_max := 2;
     pk_min := 1; pk_max := 1; pn_min := 1; pn_max := 1;
     dt_min := 2; dt_max := 3; de_min := 2; de_max := 3;
     lb_min := 1; lb_max := 3; cb_min := 2; cb_max := 4;
     s_min := 2; s_max := 3;
     offensive_flex_max := 7; total_idp := 12; total_starters := 21 |}.

Definition fal_league : LeagueConfig :=
  {| name := "Fantasy Analytical League";
     teams := 16;
     regular_season_weeks := [1; 2; 3; 4; 5; 6; 7; 8; 9; 10; 11; 12]%Z;
     playoff_weeks := [13; 14; 15; 16; 17]%Z;
     roster := default_roster;
     minimum_games_played := 1;
     use_expected_points := false |}.

End Leagues.

(** ** Data frames: the polars operations used by the calculators *)

Module Frame.

Section Ops.
Context {A : Type}.

(** [len(df)]. *)
Definition len (df : list A) : Z := Z.of_nat (length df).

(** [df.head(n)]: the first [n] rows; for a negative [n], all rows but
    the last [-n]. *)
Definition head (n : Z) (df : list A) : list A :=
  if decide (n < 0)%Z then take (length df - Z.to_nat (- n)) df
  else take (Z.to_nat n) df.

(** [df.tail(n)] for [n >= 0]: the last [n] rows. *)
Definition tail (n : nat) (df : list A) : list A :=
  drop (length df - n) df.

(** Insertion of a row into a frame sorted by decreasing [key]; a row is
    placed before the rows whose key is not larger than its own. *)
Fixpoint insert_desc (key : A -> R) (x : A) (df : list A) : list A :=
  match df with
  | [] => [x]
  | y :: df' =>
      if decide (key y <= key x) then x :: y :: df'
      else y :: insert_desc key x df'
  end.

(** [df.sort(col, descending=True)], and [list.sort(key=..., reverse=True)]:
    rows in decreasing order of [key]; rows with equal keys are kept in
    their original order. *)
Definition sort_desc (key : A -> R) (df : list A) : list A :=
  foldr (insert_desc key) [] df.

(** [df.with_row_count(name, offset=offset)]: each row paired with its
    row number. *)
Definition with_row_count (offset : Z) (df : list A) : list (Z * A) :=
  imap (fun i row => ((offset + Z.of_nat i)%Z, row)) df.
End Ops.

(** [Series.std()] (sample standard deviation, [ddof=1]): null when there
    are fewer than two values. *)
Definition std (xs : list R) : option R :=
  match Py.mean xs with
  | None => None
  | Some m =>
      if decide (length xs <= 1)%nat then None
      else Some (sqrt (Py.sum (map (fun x => (x - m) * (x - m)) xs)
                       / (INR (length xs) - 1)))
  end.

(** [np.std(xs)] (population standard deviation) on a non-empty list. *)
Definition np_std (xs : list R) : R :=
  let m := Py.sum xs / INR (length xs) in
  sqrt (Py.sum (map (fun x => (x - m) * (x - m)) xs) / INR (length xs)).

End Frame.

(** ** The season-level statistics table

    One row of the table handed to the replacement-level calculator and to
    the WAR engine, with the columns these read. *)

Module StatsRow.
Record t : Type := {
  player_id : string;
  season : Z;
  position : string;
  games_played : R;
  total_fantasy_points_mppr : R;
  avg_fantasy_points_mppr : R;
  player_name : option string;
  team : option string
}.
End StatsRow.

(** ** calculators/replacement.py *)

Module Replacement.
Import Leagues.

(** The [avg_starter_info] dictionary.  The two means are [None] on an
    empty starter pool. *)
Record AvgStarterInfo : Type := {
  asi_avg_fantasy_points : R;
  asi_total_fantasy_points : option R;
  asi_games_played : option R
}.

(** The dictionary returned by [find_replacement_level]. *)
Record ReplacementInfo : Type := {
  player_id : string;
  rank : Z;
  total_starters : Z;
  avg_fantasy_points : R;
  total_fantasy_points : R;
  games_played : R;
  position_avg_fantasy_points : option R;
  avg_starter_info : AvgStarterInfo;
  avg_starter_win_prob : R
}.

(** The dictionary built by [find_flex_replacement_level]. *)
Record FlexReplacementInfo : Type := {
  flex_player_id : string;
  flex_rank : Z;
  flex_total_starters : Z;
  flex_avg_fantasy_points : R;
  flex_total_fantasy_points : R;
  flex_games_played : R;
  positions_eligible : list string;
  flex_avg_starter_info : AvgStarterInfo
}.

(** [a / b] where either operand may be [None]. *)
Definition truediv_opt (a b : option R) : result R :=
  match a, b with
  | Some a, Some b => Py.truediv a b
  | _, _ => Raise TypeError
  end.

(** The filter shared by [find_replacement_level] and
    [calculate_positional_scarcity]: the rows of [position] that meet the
    minimum-games threshold. *)
Definition qualified (league_config : LeagueConfig)
    (stats_df : list StatsRow.t) (position : string) : list StatsRow.t :=
  filter (fun r =>
            StatsRow.position r = position /\
            StatsRow.games_played r >= IZR (minimum_games_played league_config))
         stats_df.

(** The qualified players of a position, best first, with their rank. *)
Definition position_players (league_config : LeagueConfig)
    (stats_df : list StatsRow.t) (position : string) : list (Z * StatsRow.t) :=
  Frame.with_row_count 1
    (Frame.sort_desc StatsRow.total_fantasy_points_mppr
       (qualified league_config stats_df position)).

Definition find_replacement_level (league_config : LeagueConfig)
    (stats_df : list StatsRow.t) (position : string)
    : result (option ReplacementInfo) :=
  let '(min_req, max_req) :=
    get_position_requirements (roster league_config) position in
  if decide (max_req = 0)%Z then Ok None
  else
    let starter_pool_size := (teams league_config * max_req)%Z in
    let position_players := position_players league_config stats_df position in
    let replacement_rank :=
      if decide (Frame.len position_players < starter_pool_size)%Z
      then Frame.len position_players
      else starter_pool_size in
    let starter_pool := Frame.head starter_pool_size position_players in
    let replacement_player := Frame.tail 1 starter_pool in
    match replacement_player with
    | [] => Ok None
    | (_, replacement_data) :: _ =>
        let position_avg_fp :=
          Py.mean (map (fun p => StatsRow.avg_fantasy_points_mppr (snd p)) starter_pool) in
        let avg_starter_points :=
          Py.mean (map (fun p => StatsRow.total_fantasy_points_mppr (snd p)) starter_pool) in
        let avg_starter_games :=
          Py.mean (map (fun p => StatsRow.games_played (snd p)) starter_pool) in
        let avg_starter_win_prob := 0.5 in
        avg_starter_fp ← truediv_opt avg_starter_points avg_starter_games;
        let replacement_info :=
          {| player_id := StatsRow.player_id replacement_data;
             rank := replacement_rank;
             total_starters := starter_pool_size;
             avg_fantasy_points := StatsRow.avg_fantasy_points_mppr replacement_data;
             total_fantasy_points := StatsRow.total_fantasy_points_mppr replacement_data;
             games_played := StatsRow.games_played replacement_data;
             position_avg_fantasy_points := position_avg_fp;
             avg_starter_info :=
               {| asi_avg_fantasy_points := avg_starter_fp;
                  asi_total_fantasy_points := avg_starter_points;
                  asi_games_played := avg_starter_games |};
             avg_starter_win_prob := avg_starter_win_prob |} in
        Ok (Some replacement_info)
    end.

(** The [for position in flex_positions] loop that collects the players
    used in dedicated slots; [max_req > 0] guards each position.  The
    Python [set] is a list of ids here, only membership is ever asked. *)
Definition used_players (league_config : LeagueConfig)
    (stats_df : list StatsRow.t) (flex_positions : list string) : list string :=
  foldl (fun used position =>
           let '(min_req, max_req) :=
             get_position_requirements (roster league_config) position in
           if decide (max_req > 0)%Z then
             let position_starters :=
               Frame.head (teams league_config * max_req)%Z
                 (Frame.sort_desc StatsRow.total_fantasy_points_mppr
                    (filter (fun r => StatsRow.position r = position) stats_df)) in
             used ++ map StatsRow.player_id position_starters
           else used)
        [] flex_positions.

Definition flex_eligible (league_config : LeagueConfig)
    (stats_df : list StatsRow.t) (flex_positions : list string)
    : list (Z * StatsRow.t) :=
  let used := used_players league_config stats_df flex_positions in
  Frame.with_row_count 1
    (Frame.sort_desc StatsRow.total_fantasy_points_mppr
       (filter (fun r =>
                  (StatsRow.position r ∈ flex_positions) /\
                  (StatsRow.player_id r ∉ used) /\
                  StatsRow.games_played r >= IZR (minimum_games_played league_config))
               stats_df)).

Definition find_flex_replacement_level (league_config : LeagueConfig)
    (stats_df : list StatsRow.t) (flex_positions : list string) (flex_spots : Z)
    : result (option FlexReplacementInfo) :=
  let flex_eligible := flex_eligible league_config stats_df flex_positions in
  let flex_replacement_rank :=
    if decide (Frame.len flex_eligible < flex_spots)%Z
    then Frame.len flex_eligible
    else flex_spots in
  let flex_replacement :=
    filter (fun p => fst p = flex_replacement_rank) flex_eligible in
  match flex_replacement with
  | [] => Ok None
  | (_, replacement_data) :: _ =>
      let flex_starters := Frame.head flex_spots flex_eligible in
      let avg_flex_points :=
        Py.mean (map (fun p => StatsRow.total_fantasy_points_mppr (snd p)) flex_starters) in
      let avg_flex_games :=
        Py.mean (map (fun p => StatsRow.games_played (snd p)) flex_starters) in
      avg_flex_fp ← truediv_opt avg_flex_points avg_flex_games;
      let flex_replacement_info :=
        {| flex_player_id := StatsRow.player_id replacement_data;
           flex_rank := flex_replacement_rank;
           flex_total_starters := flex_spots;
           flex_avg_fantasy_points := StatsRow.avg_fantasy_points_mppr replacement_data;
           flex_total_fantasy_points := StatsRow.total_fantasy_points_mppr replacement_data;
           flex_games_played := StatsRow.games_played replacement_data;
           positions_eligible := flex_positions;
           flex_avg_starter_info :=
             {| asi_avg_fantasy_points := avg_flex_fp;
                asi_total_fantasy_points := avg_flex_points;
                asi_games_played := avg_flex_games |} |} in
      (* logger.info(f"... {replacement_info['avg_fantasy_points']:.2f} avg points"):
         the message reads the name replacement_info, which this function
         never binds (its dictionary is flex_replacement_info), so building
         the message raises before the return statement is reached. *)
      _ ← @Raise unit (NameError "replacement_info");
      Ok (Some flex_replacement_info)
  end.

(** The scarcity multiplier of one position: the body of the loop of
    [calculate_positional_scarcity]. *)
Definition position_scarcity (league_config : LeagueConfig)
    (stats_df : list StatsRow.t) (position : string) : result R :=
  let position_players := qualified league_config stats_df position in
  if decide (Frame.len position_players = 0)%Z then Ok 1
  else
    let points := map StatsRow.total_fantasy_points_mppr position_players in
    let points_std := Frame.std points in
    let points_mean := Py.mean points in
    let '(_, max_req) :=
      get_position_requirements (roster league_config) position in
    let starter_pool_size := (teams league_config * max_req)%Z in
    match points_mean with
    | None => Raise TypeError
    | Some points_mean =>
        if decide (points_mean > 0 /\ (starter_pool_size > 0)%Z) then
          coefficient_of_variation ← truediv_opt points_std (Some points_mean);
          pool_factor ← Py.truediv 100 (IZR starter_pool_size);
          let scarcity := 1 + coefficient_of_variation * pool_factor * 0.5 in
          Ok (Py.min scarcity 2)
        else Ok 1
    end.

(** One turn of the [for position in ...] loop: the multiplier of
    [position] is stored in the dictionary built so far. *)
Definition scarcity_step (league_config : LeagueConfig)
    (stats_df : list StatsRow.t) (acc : result (gmap string R))
    (position : string) : result (gmap string R) :=
  scarcity_multipliers ← acc;
  m ← position_scarcity league_config stats_df position;
  Ok (<[position := m]> scarcity_multipliers).

Definition calculate_positional_scarcity (league_config : LeagueConfig)
    (stats_df : list StatsRow.t) : result (gmap string R) :=
  foldl (scarcity_step league_config stats_df) (Ok ∅)
    (get_all_positions league_config).

End Replacement.

(** ** models/war_results.py *)

Module WARResult.

Record t : Type := {
  player_id : string;
  season : Z;
  position : string;
  player_name : option string;
  team : option string;
  games_played : Z;
  weeks_analyzed : list Z;
  total_fantasy_points : R;
  average_fantasy_points : R;
  win_percentage : R;
  expected_wins : R;
  replacement_win_percentage : R;
  replacement_expected_wins : R;
  wins_above_replacement : R;
  wins_above_average : R;
  team_average_score : R;
  team_score_std : R
}.

(** A float given for an [int] field is accepted when it is a whole
    number. *)
Definition int_of_float (x : R) : option Z :=
  if decide (IZR (Zfloor x) = x) then Some (Zfloor x) else None.

(** The constraints of the numeric and position fields: [season] in
    1920..2030, [position] one of the eleven codes, [games_played] in
    0..17, the two percentages in [0, 1], the two expected-win fields and
    [team_score_std] non-negative. *)
Definition fields_ok (w : t) : Prop :=
  (1920 <= season w <= 2030)%Z /\
  position w ∈ Leagues.all_position_codes /\
  (0 <= games_played w <= 17)%Z /\
  (0 <= win_percentage w /\ win_percentage w <= 1) /\
  0 <= expected_wins w /\
  (0 <= replacement_win_percentage w /\ replacement_win_percentage w <= 1) /\
  0 <= replacement_expected_wins w /\
  0 <= team_score_std w.

#[global] Instance fields_ok_dec (w : t) : Decision (fields_ok w).
Proof. unfold fields_ok. apply _. Defined.

(** [WARResult(...)]: the constructor validates its fields. *)
Definition new (player_id : string) (season : Z) (position : string)
    (player_name team : option string) (games_played : R)
    (weeks_analyzed : list Z)
    (total_fantasy_points average_fantasy_points win_percentage expected_wins
     replacement_win_percentage replacement_expected_wins
     wins_above_replacement wins_above_average
     team_average_score team_score_std : R) : result t :=
  match int_of_float games_played with
  | None => Raise ValidationError
  | Some games =>
      let w := Build_t player_id season position player_name team games
                 weeks_analyzed total_fantasy_points average_fantasy_points
                 win_percentage expected_wins replacement_win_percentage
                 replacement_expected_wins wins_above_replacement
                 wins_above_average team_average_score team_score_std in
      if decide (fields_ok w) then Ok w else Raise ValidationError
  end.

End WARResult.

Module PositionWAR.
Record t : Type := {
  position : string;
  season : Z;
  total_teams : Z;
  starters_per_team : Z;
  total_starter_spots : Z;
  replacement_level_rank : Z;
  replacement_player_id : option string;
  player_wars : list WARResult.t
}.

(** The [qualified_players] property. *)
Definition qualified_players (self : t) : list WARResult.t :=
  filter (fun war => (WARResult.games_played war >= 1)%Z) (player_wars self).
End PositionWAR.

Module LeagueWAR.
(** [position_results] is a dictionary; its items are kept in insertion
    order. *)
Record t : Type := {
  season : Z;
  league_name : string;
  total_teams : Z;
  weeks_analyzed : list Z;
  positions_analyzed : list string;
  position_results : list (string * PositionWAR.t)
}.
End LeagueWAR.

Module AuctionValue.

Record t : Type := {
  player_id : string;
  season : Z;
  position : string;
  player_name : option string;
  wins_above_replacement : R;
  war_rank_overall : Z;
  war_rank_position : Z;
  auction_value_dollars : R;
  value_per_war : R;
  value_over_replacement : R;
  positional_scarcity_multiplier : R;
  draft_tier : Z;
  is_sleeper : bool;
  is_bust_risk : bool;
  league_budget_total : Z
}.

Definition fields_ok (a : t) : Prop :=
  (1920 <= season a <= 2030)%Z /\
  position a ∈ Leagues.all_position_codes /\
  (war_rank_overall a > 0)%Z /\
  (war_rank_position a > 0)%Z /\
  0 <= auction_value_dollars a /\
  0 <= value_per_war a /\
  positional_scarcity_multiplier a > 0 /\
  (1 <= draft_tier a <= 20)%Z /\
  (league_budget_total a > 0)%Z.

#[global] Instance fields_ok_dec (a : t) : Decision (fields_ok a).
Proof. unfold fields_ok. apply _. Defined.

(** [AuctionValue(...)]: the constructor validates its fields. *)
Definition new (a : t) : result t :=
  if decide (fields_ok a) then Ok a else Raise ValidationError.

End AuctionValue.

(** ** calculators/war_engine.py *)

Module WarEngine.
Import WinProbability.

(** The body of the [try] block of [_calculate_player_war]. *)
Definition player_war_body (player_data : StatsRow.t)
    (replacement_info : Replacement.ReplacementInfo)
    (team_context : TeamContext) (weeks : list Z) : result WARResult.t :=
  let player_fp := StatsRow.total_fantasy_points_mppr player_data in
  let avg_fp := StatsRow.avg_fantasy_points_mppr player_data in
  let games_played := StatsRow.games_played player_data in
  let win_prob :=
    calculate_win_probability player_fp
      (team_avg_score team_context) (team_score_std team_context) in
  let expected_wins := win_prob * games_played in
  let replacement_fp := Replacement.avg_fantasy_points replacement_info in
  let replacement_win_prob :=
    calculate_win_probability replacement_fp
      (team_avg_score team_context) (team_score_std team_context) in
  let replacement_wins := replacement_win_prob * games_played in
  let wins_above_replacement := expected_wins - replacement_wins in
  (* replacement_info.get('avg_starter_info', {}) is never empty for a
     dictionary built by find_replacement_level: the else branch
     (wins_above_average = 0.0) is not taken. *)
  let avg_starter_info := Replacement.avg_starter_info replacement_info in
  let avg_starter_win_prob :=
    calculate_win_probability
      (Replacement.asi_avg_fantasy_points avg_starter_info)
      (team_avg_score team_context) (team_score_std team_context) in
  let avg_starter_wins := avg_starter_win_prob * games_played in
  let wins_above_average := expected_wins - avg_starter_wins in
  WARResult.new
    (StatsRow.player_id player_data)
    (StatsRow.season player_data)
    (StatsRow.position player_data)
    (StatsRow.player_name player_data)
    (StatsRow.team player_data)
    games_played
    weeks
    player_fp
    avg_fp
    win_prob
    expected_wins
    replacement_win_prob
    replacement_wins
    wins_above_replacement
    wins_above_average
    (team_avg_score team_context)
    (team_score_std team_context).

(** [_calculate_player_war]: any exception of the body is caught and the
    player is dropped ([None]). *)
Definition _calculate_player_war (player_data : StatsRow.t)
    (replacement_info : Replacement.ReplacementInfo)
    (team_context : TeamContext) (weeks : list Z) : option WARResult.t :=
  match player_war_body player_data replacement_info team_context weeks with
  | Ok war_result => Some war_result
  | Raise _ => None
  end.

End WarEngine.

(** ** calculators/auction_values.py *)

Module AuctionValues.

(** The calculator object: [league_config] and [total_budget];
    [total_league_budget] is derived from them in [__init__]. *)
Record AuctionValueCalculator : Type := {
  league_config : Leagues.LeagueConfig;
  total_budget : Z
}.

Definition total_league_budget (self : AuctionValueCalculator) : Z :=
  (total_budget self * Leagues.teams (league_config self))%Z.

Definition _calculate_base_value_per_war (self : AuctionValueCalculator)
    (war_results : list WARResult.t) : R :=
  let positive_war_players :=
    filter (fun war => WARResult.wins_above_replacement war > 0) war_results in
  match positive_war_players with
  | [] => 1
  | _ =>
      let total_war :=
        Py.sum (map WARResult.wins_above_replacement positive_war_players) in
      let available_budget := IZR (total_league_budget self) * 0.65 in
      if decide (total_war > 0) then available_budget / total_war else 1
  end.

(** [max(xs)] on a non-empty list of floats. *)
Definition list_max (x : R) (xs : list R) : R := foldl Py.max x xs.

(** The scarcity multiplier of one position: the body of the loop of
    [_calculate_positional_scarcity]. *)
Definition position_scarcity (pos_result : PositionWAR.t) : result R :=
  match PositionWAR.player_wars pos_result with
  | [] => Ok 1
  | _ =>
      let war_values :=
        map WARResult.wins_above_replacement
          (PositionWAR.qualified_players pos_result) in
      match war_values with
      | [] | [_] => Ok 1
      | w0 :: ws =>
          let war_std := Frame.np_std war_values in
          let war_max := list_max w0 ws in
          let replacement_war := 0 in
          let dropoff_factor :=
            if decide (war_max > 0) then war_max - replacement_war else 1 in
          let starter_spots := PositionWAR.total_starter_spots pos_result in
          let qualified_players :=
            Frame.len (PositionWAR.qualified_players pos_result) in
          depth_factor ←
            (if decide (qualified_players > 0)%Z then
               Py.truediv (IZR starter_spots)
                 (IZR (Z.max qualified_players starter_spots))
             else Ok 1);
          let scarcity :=
            1 + war_std * dropoff_factor * depth_factor * 0.1 in
          let scarcity := Py.min scarcity 1.8 in
          Ok scarcity
      end
  end.

(** One turn of the [for position, pos_result in ...items()] loop. *)
Definition scarcity_step (acc : result (gmap string R))
    (item : string * PositionWAR.t) : result (gmap string R) :=
  scarcity_multipliers ← acc;
  m ← position_scarcity (snd item);
  Ok (<[fst item := m]> scarcity_multipliers).

Definition _calculate_positional_scarcity (league_war : LeagueWAR.t)
    : result (gmap string R) :=
  foldl scarcity_step (Ok ∅) (LeagueWAR.position_results league_war).

Definition _calculate_rank_multiplier (overall_rank : Z) : R :=
  if decide (overall_rank <= 5)%Z then 1.3
  else if decide (overall_rank <= 12)%Z then 1.2
  else if decide (overall_rank <= 24)%Z then 1.1
  else if decide (overall_rank <= 50)%Z then 1.0
  else if decide (overall_rank <= 100)%Z then 0.95
  else 0.9.

(** The [for i, player in enumerate(position_players)] search. *)
Fixpoint first_index (player_id : string) (players : list WARResult.t)
    (i : Z) : option Z :=
  match players with
  | [] => None
  | player :: rest =>
      if decide (WARResult.player_id player = player_id) then Some (i + 1)%Z
      else first_index player_id rest (i + 1)%Z
  end.

Definition _get_position_rank (war_result : WARResult.t)
    (all_war_results : list WARResult.t) : Z :=
  let position_players :=
    filter (fun war => WARResult.position war = WARResult.position war_result)
           all_war_results in
  let position_players :=
    Frame.sort_desc WARResult.wins_above_replacement position_players in
  default (Frame.len position_players + 1)%Z
    (first_index (WARResult.player_id war_result) position_players 0).

Definition _calculate_draft_tier (self : AuctionValueCalculator)
    (overall_rank : Z) (auction_value : R) : Z :=
  let budget := IZR (total_budget self) in
  if decide ((overall_rank <= 12)%Z /\ auction_value >= budget * 0.25) then 1%Z
  else if decide ((overall_rank <= 24)%Z /\ auction_value >= budget * 0.15) then 2%Z
  else if decide ((overall_rank <= 50)%Z /\ auction_value >= budget * 0.08) then 3%Z
  else if decide ((overall_rank <= 100)%Z /\ auction_value >= budget * 0.04) then 4%Z
  else 5%Z.

Definition _is_sleeper_candidate (self : AuctionValueCalculator)
    (war_result : WARResult.t) (auction_value : R) (position_rank : Z)
    : result bool :=
  value_efficiency ←
    Py.truediv (WARResult.wins_above_replacement war_result) auction_value;
  Ok (bool_decide
        (WARResult.wins_above_replacement war_result > 0.5 /\
         auction_value < IZR (total_budget self) * 0.1 /\
         (position_rank > 10)%Z /\
         value_efficiency > 0.05)).

Definition _is_bust_risk (self : AuctionValueCalculator)
    (war_result : WARResult.t) (auction_value : R) (overall_rank : Z)
    : result bool :=
  value_efficiency ←
    Py.truediv (WARResult.wins_above_replacement war_result) auction_value;
  Ok (bool_decide
        ((overall_rank <= 24)%Z /\
         auction_value >= IZR (total_budget self) * 0.15 /\
         value_efficiency < 0.03)).

Definition _calculate_individual_auction_value (self : AuctionValueCalculator)
    (war_result : WARResult.t) (base_value_per_war position_multiplier : R)
    (overall_rank : Z) (all_war_results : list WARResult.t)
    : result (option AuctionValue.t) :=
  if decide (WARResult.wins_above_replacement war_result <= 0) then Ok None
  else
    let base_value :=
      WARResult.wins_above_replacement war_result * base_value_per_war in
    let position_adjusted_value := base_value * position_multiplier in
    let rank_multiplier := _calculate_rank_multiplier overall_rank in
    let final_value := position_adjusted_value * rank_multiplier in
    let final_value := Py.max final_value 1 in
    let max_value := IZR (total_budget self) * 0.6 in
    let final_value := Py.min final_value max_value in
    let position_rank := _get_position_rank war_result all_war_results in
    let draft_tier := _calculate_draft_tier self overall_rank final_value in
    is_sleeper ← _is_sleeper_candidate self war_result final_value position_rank;
    is_bust_risk ← _is_bust_risk self war_result final_value overall_rank;
    auction_value ←
      AuctionValue.new
        {| AuctionValue.player_id := WARResult.player_id war_result;
           AuctionValue.season := WARResult.season war_result;
           AuctionValue.position := WARResult.position war_result;
           AuctionValue.player_name := WARResult.player_name war_result;
           AuctionValue.wins_above_replacement :=
             WARResult.wins_above_replacement war_result;
           AuctionValue.war_rank_overall := overall_rank;
           AuctionValue.war_rank_position := position_rank;
           AuctionValue.auction_value_dollars := Py.round final_value;
           AuctionValue.value_per_war := base_value_per_war;
           AuctionValue.value_over_replacement := final_value - 1;
           AuctionValue.positional_scarcity_multiplier := position_multiplier;
           AuctionValue.draft_tier := draft_tier;
           AuctionValue.is_sleeper := is_sleeper;
           AuctionValue.is_bust_risk := is_bust_risk;
           AuctionValue.league_budget_total := total_budget self |};
    Ok (Some auction_value).

(** The body of the [for i, war_result in enumerate(all_war_results)]
    loop of [calculate_league_auction_values]; the accumulator is the list
    [auction_values] built so far. *)
Definition auction_step (self : AuctionValueCalculator)
    (base_value_per_war : R) (scarcity_multipliers : gmap string R)
    (all_war_results : list WARResult.t)
    (acc : result (list AuctionValue.t)) (item : Z * WARResult.t)
    : result (list AuctionValue.t) :=
  auction_values ← acc;
  let '(i, war_result) := item in
  if decide (WARResult.wins_above_replacement war_result <= 0)
  then Ok auction_values
  else
    auction_value ←
      _calculate_individual_auction_value self war_result base_value_per_war
        (default 1 (scarcity_multipliers !! WARResult.position war_result))
        (i + 1)%Z all_war_results;
    match auction_value with
    | Some auction_value => Ok (auction_values ++ [auction_value])
    | None => Ok auction_values
    end.

(** [calculate_league_auction_values]: the returned list.  The function
    also stores the list and two totals in [league_war]; these stores
    cannot fail and are not part of the result. *)
Definition calculate_league_auction_values (self : AuctionValueCalculator)
    (league_war : LeagueWAR.t) : result (list AuctionValue.t) :=
  let all_war_results :=
    concat (map (fun item => PositionWAR.player_wars (snd item))
                (LeagueWAR.position_results league_war)) in
  let all_war_results :=
    Frame.sort_desc WARResult.wins_above_replacement all_war_results in
  scarcity_multipliers ← _calculate_positional_scarcity league_war;
  let base_value_per_war := _calculate_base_value_per_war self all_war_results in
  foldl (auction_step self base_value_per_war scarcity_multipliers all_war_results)
        (Ok []) (Frame.with_row_count 0 all_war_results).

End AuctionValues.

(** ** Binary floating point

    Where a result depends on rounding, a Python [float] and a [Float64]
    column are the IEEE 754 binary64 numbers they are, with the operations
    of the standard library's [SpecFloat]: 53 bits of precision, results
    rounded to nearest, ties to even. *)

Module Binary64.

Definition float : Type := spec_float.

Definition prec : Z := 53.
Definition emax : Z := 1024.

Definition add : float -> float -> float := SFadd prec emax.
Definition mul : float -> float -> float := SFmul prec emax.
Definition div : float -> float -> float := SFdiv prec emax.

(** [float(z)] for an integer [z]; integer literals and whole-number float
    literals such as [5.0]. *)
Definition of_int (z : Z) : float := binary_normalize prec emax z 0 false.

(** A decimal literal [n / 10^k], such as [0.3]: the binary64 number
    nearest to the quotient, which is what the correctly rounded division of
    the two whole numbers gives. *)
Definition decimal (n : Z) (k : nat) : float :=
  div (of_int n) (of_int (10 ^ Z.of_nat k)).

(** [0.0]. *)
Definition zero : float := S754_zero false.

(** The sign bit; a NaN has none in this representation. *)
Definition sign_bit (x : float) : bool :=
  match x with
  | S754_zero s | S754_infinity s | S754_finite s _ _ => s
  | S754_nan => false
  end.

(** [x == y]. *)
Definition eqb : float -> float -> bool := SFeqb.

Declare Scope binary64_scope.
Delimit Scope binary64_scope with b64.
Infix "+" := add : binary64_scope.
Infix "*" := mul : binary64_scope.

End Binary64.

(** ** config/scoring.py: the kicking table *)

Module Scoring.
Import Binary64.

Record KickingScoring : Type := {
  fg_0_29_base : float;
  fg_0_29_per_yard : float;
  fg_30_39_base : float;
  fg_30_39_per_yard : float;
  fg_40_plus_base : float;
  fg_40_plus_per_yard : float;
  fg_missed : float;
  extra_points : float;
  extra_points_missed : float;
  fumbles_special_teams : float
}.

(** [KickingScoring()], the table of [mppr_scoring]. *)
Definition mppr_kicking : KickingScoring :=
  {| fg_0_29_base := decimal (-5) 1; fg_0_29_per_yard := decimal 5 2;
     fg_30_39_base := of_int 1; fg_30_39_per_yard := decimal 2 1;
     fg_40_plus_base := of_int 3; fg_40_plus_per_yard := decimal 4 1;
     fg_missed := of_int (-6); extra_points := decimal 3 1;
     extra_points_missed := of_int (-2); fumbles_special_teams := of_int (-6) |}.

End Scoring.

(** ** calculators/fantasy_points.py: the single-player kicking path

    The values of a stat mapping are numbers; an [int] among them is taken
    as the [float] it is converted to when it is multiplied by a float
    coefficient. *)

Module FantasyPoints.
Import Binary64 Scoring.

(** [stats.get(key, 0)]. *)
Definition get (stats : gmap string float) (key : string) : float :=
  default (of_int 0) (stats !! key).

Definition calculate_kicking_points (kicking : KickingScoring)
    (stats : gmap string float) : float :=
  let points := zero in
  let points := (points + get stats "fg_made_0_19" * of_int 5)%b64 in
  let points := (points + get stats "fg_made_20_29" * of_int 5)%b64 in
  let points := (points + get stats "fg_made_30_39" * of_int 5)%b64 in
  let points := (points + get stats "fg_made_40_49" * of_int 6)%b64 in
  let points := (points + get stats "fg_made_50_59" * of_int 7)%b64 in
  let points := (points + get stats "fg_made_60_" * of_int 7)%b64 in
  let points :=
    (points + get stats "fg_missed_0_19" * fg_missed kicking)%b64 in
  let points :=
    (points + get stats "fg_missed_20_29" * fg_missed kicking)%b64 in
  let points :=
    (points + get stats "fg_missed_30_39" * fg_missed kicking)%b64 in
  let points :=
    (points + get stats "fg_missed_40_49" * fg_missed kicking)%b64 in
  let points :=
    (points + get stats "fg_missed_50_59" * fg_missed kicking)%b64 in
  let points :=
    (points + get stats "fg_missed_60_" * fg_missed kicking)%b64 in
  let points :=
    (points + get stats "pat_made" * extra_points kicking)%b64 in
  let points :=
    (points + get stats "pat_missed" * extra_points_missed kicking)%b64 in
  let points :=
    (points + get stats "pat_blocked" * extra_points_missed kicking)%b64 in
  let points :=
    (points + get stats "fumbles_special_teams"
              * fumbles_special_teams kicking)%b64 in
  points.

End FantasyPoints.

(** ** data/processors.py: the vectorized kicking path

    The column expressions are evaluated row by row; a row is the mapping
    from the names of its numeric columns to their values.  The product of
    an integer column and a float literal is a [Float64], so the values are
    again taken as floats. *)

Module Processors.
Import Binary64 Scoring.

(** The [required_cols] dictionary of [_ensure_columns]. *)
Definition required_cols : gmap string float :=
  list_to_map
    [("passing_yards", of_int 0); ("pass_attempts", of_int 0);
     ("completions", of_int 0); ("passing_tds", of_int 0);
     ("interceptions", of_int 0); ("passing_2pt_conversions", of_int 0);
     ("sacks", of_int 0); ("sack_yards", of_int 0);
     ("passing_first_downs", of_int 0);
     ("rushing_yards", of_int 0); ("carries", of_int 0);
     ("rushing_tds", of_int 0); ("rushing_2pt_conversions", of_int 0);
     ("rushing_first_downs", of_int 0);
     ("receiving_yards", of_int 0); ("targets", of_int 0);
     ("receptions", of_int 0); ("receiving_tds", of_int 0);
     ("receiving_2pt_conversions", of_int 0);
     ("receiving_first_downs", of_int 0);
     ("sack_fumbles", of_int 0); ("rushing_fumbles", of_int 0);
     ("receiving_fumbles", of_int 0);
     ("sack_fumbles_lost", of_int 0); ("rushing_fumbles_lost", of_int 0);
     ("receiving_fumbles_lost", of_int 0);
     ("tackles", of_int 0); ("assists", of_int 0);
     ("tackles_for_loss", of_int 0);
     ("sacks_def", of_int 0); ("qb_hits", of_int 0);
     ("passes_defended", of_int 0);
     ("interceptions_def", of_int 0); ("fumble_recoveries", of_int 0);
     ("forced_fumbles", of_int 0);
     ("safeties", of_int 0); ("defensive_tds", of_int 0);
     ("fg_made_0_19", of_int 0); ("fg_made_20_29", of_int 0);
     ("fg_made_30_39", of_int 0);
     ("fg_made_40_49", of_int 0); ("fg_made_50_59", of_int 0);
     ("fg_made_60_", of_int 0);
     ("fg_missed_0_19", of_int 0); ("fg_missed_20_29", of_int 0);
     ("fg_missed_30_39", of_int 0);
     ("fg_missed_40_49", of_int 0); ("fg_missed_50_59", of_int 0);
     ("fg_missed_60_", of_int 0);
     ("pat_made", of_int 0); ("pat_missed", of_int 0);
     ("pat_blocked", of_int 0);
     ("punts", of_int 0); ("punt_yards", of_int 0);
     ("punts_inside_20", of_int 0); ("punts_blocked", of_int 0);
     ("games_played", of_int 1); ("games_started", of_int 0)].

(** [_ensure_columns] on the numeric columns of a row: a column that is
    missing is added with its default, a column that is present is kept. *)
Definition _ensure_columns (row : gmap string float) : gmap string float :=
  row ∪ required_cols.

(** [pl.col(name)] evaluated on a row. *)
Definition col (row : gmap string float) (name : string) : result float :=
  match row !! name with
  | Some v => Ok v
  | None => Raise (ColumnNotFoundError name)
  end.

(** The expression of [_calculate_kicking_points] evaluated on a row; the
    sum is built from left to right. *)
Definition _calculate_kicking_points (kicking : KickingScoring)
    (row : gmap string float) : result float :=
  fg_made_0_19 ← col row "fg_made_0_19";
  fg_made_20_29 ← col row "fg_made_20_29";
  fg_made_30_39 ← col row "fg_made_30_39";
  fg_made_40_49 ← col row "fg_made_40_49";
  fg_made_50_59 ← col row "fg_made_50_59";
  fg_made_60_ ← col row "fg_made_60_";
  fg_missed_0_19 ← col row "fg_missed_0_19";
  fg_missed_20_29 ← col row "fg_missed_20_29";
  fg_missed_30_39 ← col row "fg_missed_30_39";
  fg_missed_40_49 ← col row "fg_missed_40_49";
  fg_missed_50_59 ← col row "fg_missed_50_59";
  fg_missed_60_ ← col row "fg_missed_60_";
  pat_made ← col row "pat_made";
  pat_missed ← col row "pat_missed";
  pat_blocked ← col row "pat_blocked";
  Ok (fg_made_0_19 * of_int 3 +
      fg_made_20_29 * of_int 5 +
      fg_made_30_39 * of_int 5 +
      fg_made_40_49 * of_int 6 +
      fg_made_50_59 * of_int 7 +
      fg_made_60_ * of_int 7 +
      fg_missed_0_19 * fg_missed kicking +
      fg_missed_20_29 * fg_missed kicking +
      fg_missed_30_39 * fg_missed kicking +
      fg_missed_40_49 * fg_missed kicking +
      fg_missed_50_59 * fg_missed kicking +
      fg_missed_60_ * fg_missed kicking +
      pat_made * extra_points kicking +
      pat_missed * extra_points_missed kicking +
      pat_blocked * extra_points_missed kicking)%b64.

(** The kicking points the processor gives a row: the columns are ensured
    first, then the expression is evaluated. *)
Definition kicking_points_of_row (kicking : KickingScoring)
    (row : gmap string float) : result float :=
  _calculate_kicking_points kicking (_ensure_columns row).

End Processors.

(** ** utils/validators.py: weeks *)

Module Validators.

(** A week given by the caller: an [int] or a [str]. *)
Inductive pyval : Type :=
| PyInt (z : Z)
| PyStr (s : string).

(** [str(v)], as used when a value is put into a message. *)
Definition str (v : pyval) : string :=
  match v with
  | PyInt z => pretty z
  | PyStr s => s
  end.

(** The argument of [validate_weeks_list]: a string or a list. *)
Inductive weeks_arg : Type :=
| WeeksStr (s : string)
| WeeksList (l : list pyval).

(** ASCII white space, as removed by [str.strip()]. *)
Definition is_space (c : ascii) : bool :=
  match c with
  | "009" | "010" | "011" | "012" | "013"
  | "028" | "029" | "030" | "031" | " " => true
  | _ => false
  end%char.

Fixpoint lstrip (s : string) : string :=
  match s with
  | String c s' => if is_space c then lstrip s' else s
  | EmptyString => EmptyString
  end.

Fixpoint rstrip (s : string) : string :=
  match s with
  | String c s' =>
      match rstrip s' with
      | EmptyString => if is_space c then EmptyString else String c EmptyString
      | rest => String c rest
      end
  | EmptyString => EmptyString
  end.

Definition strip (s : string) : string := lstrip (rstrip s).

(** The digits of an integer literal: decimal digits, a single underscore
    allowed between two digits.  [prev_digit] tells whether the previous
    character was a digit. *)
Fixpoint parse_digits (s : string) (prev_digit : bool) (acc : Z) : option Z :=
  match s with
  | EmptyString => if prev_digit then Some acc else None
  | String c s' =>
      match Ascii.is_nat c with
      | Some d => parse_digits s' true (acc * 10 + Z.of_nat d)%Z
      | None =>
          if decide (c = "_"%char) then
            if prev_digit then parse_digits s' false acc else None
          else None
      end
  end.

(** The white space that [int()] ignores around the digits of ASCII text:
    the six characters of C's [isspace], without the four separators
    0x1c..0x1f that [str.strip()] also removes. *)
Definition is_int_space (c : ascii) : bool :=
  match c with
  | "009" | "010" | "011" | "012" | "013" | " " => true
  | _ => false
  end%char.

Fixpoint int_lstrip (s : string) : string :=
  match s with
  | String c s' => if is_int_space c then int_lstrip s' else s
  | EmptyString => EmptyString
  end.

Fixpoint int_rstrip (s : string) : string :=
  match s with
  | String c s' =>
      match int_rstrip s' with
      | EmptyString =>
          if is_int_space c then EmptyString else String c EmptyString
      | rest => String c rest
      end
  | EmptyString => EmptyString
  end.

(** [int(s)] on a string of ASCII text: [None] stands for the
    [ValueError]. *)
Definition int_of_str (s : string) : option Z :=
  match int_lstrip (int_rstrip s) with
  | String "+" digits => parse_digits digits false 0
  | String "-" digits => Z.opp <$> parse_digits digits false 0
  | digits => parse_digits digits false 0
  end.

(** [int(v)]. *)
Definition int (v : pyval) : option Z :=
  match v with
  | PyInt z => Some z
  | PyStr s => int_of_str s
  end.

(** [sub in s]. *)
Fixpoint contains (sub s : string) : bool :=
  String.prefix sub s ||
  match s with
  | String _ s' => contains sub s'
  | EmptyString => false
  end.

(** [s.split(sep)] for a one-character separator. *)
Fixpoint split (sep : ascii) (s : string) : list string :=
  match s with
  | EmptyString => [EmptyString]
  | String c s' =>
      if decide (c = sep) then EmptyString :: split sep s'
      else match split sep s' with
           | part :: parts => String c part :: parts
           | [] => [String c EmptyString]
           end
  end.

(** [s.split(sep, 1)]: at most one split, at the first separator. *)
Fixpoint split_once (sep : ascii) (s : string) : list string :=
  match s with
  | EmptyString => [EmptyString]
  | String c s' =>
      if decide (c = sep) then [EmptyString; s']
      else match split_once sep s' with
           | part :: parts => String c part :: parts
           | [] => [String c EmptyString]
           end
  end.

Definition validate_week (week : pyval) : result Z :=
  match int week with
  | None =>
      Raise (ValueError
               ("Invalid week: " +:+ str week +:+ ". Must be a valid week number."))
  | Some week_int =>
      if decide (week_int < 1 \/ week_int > 18)%Z then
        Raise (ValueError
                 ("Week " +:+ pretty week_int +:+
                  " is invalid. Must be between 1 and 18."))
      else Ok week_int
  end.

(** The body of the [try] block of the range branch. *)
Definition range_body (weeks : string) : result (list Z) :=
  match split_once "-" weeks with
  | [start; end_] =>
      start_week ← validate_week (PyStr start);
      end_week ← validate_week (PyStr end_);
      if decide (start_week > end_week)%Z then
        Raise (ValueError
                 ("Invalid week range: " +:+ weeks +:+
                  ". Start week must be <= end week."))
      else Ok (seqZ start_week (end_week + 1 - start_week))
  | _ => Raise (ValueError "not enough values to unpack (expected 2, got 1)")
  end.

(** The comma-separated and list branches: every element is validated,
    then the weeks are de-duplicated and sorted. *)
Definition validate_each (weeks : list pyval) : result (list Z) :=
  validated_weeks ←
    foldl (fun acc week =>
             validated_weeks ← acc;
             w ← validate_week week;
             Ok (validated_weeks ++ [w]))
          (Ok []) weeks;
  Ok (merge_sort Z.le (remove_dups validated_weeks)).

Definition validate_weeks_list (weeks : weeks_arg) : result (list Z) :=
  match weeks with
  | WeeksStr weeks =>
      if contains "-" weeks && negb (contains "," weeks) then
        match range_body weeks with
        | Raise (ValueError e) =>
            if contains "Invalid week range" e then Raise (ValueError e)
            else
              Raise (ValueError
                       ("Invalid week range format: " +:+ weeks +:+
                        ". Use format like '1-17'."))
        | r => r
        end
      else
        validate_each (map (fun w => PyStr (strip w)) (split "," weeks))
  | WeeksList weeks => validate_each weeks
  end.

End Validators.




(** * Further functions of the calculators

    ** calculators/win_probability.py: the other operations *)

Module WinProbabilityTools.
Import WinProbability.

Definition calculate_team_expected_score
    (player_fantasy_points position_average team_baseline_score : R) : R :=
  let player_contribution := player_fantasy_points - position_average in
  let expected_score := team_baseline_score + player_contribution in
  expected_score.

(** The dictionary returned by [calculate_win_probability_detailed]. *)
Record Detailed : Type := {
  expected_team_score : R;
  expected_margin : R;
  win_probability : R;
  z_score : R;
  player_contribution : R
}.

Definition calculate_win_probability_detailed
    (player_fantasy_points position_average team_baseline_score
     opponent_average_score league_score_std : R) : Detailed :=
  let expected_team_score :=
    calculate_team_expected_score player_fantasy_points position_average
      team_baseline_score in
  let win_prob :=
    calculate_win_probability expected_team_score opponent_average_score
      league_score_std in
  let expected_margin := expected_team_score - opponent_average_score in
  let margin_z_score :=
    if decide (league_score_std > 0) then expected_margin / league_score_std
    else 0 in
  {| expected_team_score := expected_team_score;
     expected_margin := expected_margin;
     win_probability := win_prob;
     z_score := margin_z_score;
     player_contribution := player_fantasy_points - position_average |}.

(** [calculate_strength_of_schedule_adjustment].  The mean is a numpy
    float, so a zero league average raises nothing: the quotient is an
    infinity or a NaN, and the clamp written with [max] and [min] turns a
    negative infinity into 0.5 and a positive infinity or a NaN into 2.0. *)
Definition calculate_strength_of_schedule_adjustment
    (opponent_scores : list R) (league_average_score : R) : R :=
  match opponent_scores with
  | [] => 1.0
  | _ =>
      let avg_opponent_score :=
        Py.sum opponent_scores / INR (length opponent_scores) in
      if decide (league_average_score = 0) then
        if decide (avg_opponent_score < 0) then 0.5 else 2.0
      else
        let sos_adjustment := avg_opponent_score / league_average_score in
        Py.max 0.5 (Py.min 2.0 sos_adjustment)
  end.

(** The recommendation of one position in
    [estimate_optimal_roster_construction]. *)
Definition roster_recommendation (war_values : list R) : Z :=
  match war_values with
  | [] => 0%Z
  | w :: ws =>
      let max_war := AuctionValues.list_max w ws in
      if decide (max_war > 2.0) then 3%Z
      else if decide (max_war > 1.0) then 2%Z
      else 1%Z
  end.

(** [estimate_optimal_roster_construction]: one recommendation per key of
    the input dictionary; the budget is not read. *)
Definition estimate_optimal_roster_construction
    (position_war_values : gmap string (list R)) (budget_constraint : R)
    : gmap string Z :=
  roster_recommendation <$> position_war_values.

End WinProbabilityTools.


(** ** models/war_results.py: the computed properties of the records *)

Module ModelProperties.

(** [WARResult.war_per_game]. *)
Definition war_per_game (self : WARResult.t) : R :=
  if decide (WARResult.games_played self > 0)%Z
  then WARResult.wins_above_replacement self / IZR (WARResult.games_played self)
  else 0.

(** [WARResult.is_replacement_level] and [WARResult.is_above_average]. *)
Definition is_replacement_level (self : WARResult.t) : bool :=
  bool_decide (Rabs (WARResult.wins_above_replacement self) < 0.01).

Definition is_above_average (self : WARResult.t) : bool :=
  bool_decide (WARResult.wins_above_average self > 0).

(** [xs[start:stop]]: a negative index counts from the end, and both
    indices are clipped to the list. *)
Definition slice {A} (start stop : Z) (xs : list A) : list A :=
  let n := Z.of_nat (length xs) in
  let clip i := if decide (i < 0)%Z then Z.max 0 (n + i) else Z.min i n in
  drop (Z.to_nat (clip start)) (take (Z.to_nat (clip stop)) xs).

(** [xs[:stop]]. *)
Definition slice_to {A} (stop : Z) (xs : list A) : list A := slice 0 stop xs.

(** [PositionWAR.starter_pool]: the qualified players by decreasing total
    points, cut at the number of starter spots. *)
Definition starter_pool (self : PositionWAR.t) : list WARResult.t :=
  let qualified := PositionWAR.qualified_players self in
  let qualified := Frame.sort_desc WARResult.total_fantasy_points qualified in
  slice_to (PositionWAR.total_starter_spots self) qualified.

(** [AuctionValue.value_per_dollar]. *)
Definition value_per_dollar (self : AuctionValue.t) : R :=
  if decide (AuctionValue.auction_value_dollars self > 0)
  then AuctionValue.wins_above_replacement self
       / AuctionValue.auction_value_dollars self
  else 0.

(** [AuctionValue.budget_percentage]: a float divided by an [int]. *)
Definition budget_percentage (self : AuctionValue.t) : result R :=
  share ← Py.truediv (AuctionValue.auction_value_dollars self)
             (IZR (AuctionValue.league_budget_total self));
  Ok (share * 100).

(** [LeagueWAR.top_players_overall]. *)
Definition top_players_overall (self : LeagueWAR.t) : list WARResult.t :=
  let all_wars :=
    concat (map (fun item => PositionWAR.player_wars (snd item))
                (LeagueWAR.position_results self)) in
  let all_wars := Frame.sort_desc WARResult.wins_above_replacement all_wars in
  slice_to 50 all_wars.

(** [LeagueWAR.most_valuable_positions]. *)
Definition most_valuable_positions (self : LeagueWAR.t) : list (string * R) :=
  let pos_wars :=
    map (fun item : string * PositionWAR.t =>
           (fst item,
            Py.sum (map WARResult.wins_above_replacement
                        (PositionWAR.player_wars (snd item)))))
        (LeagueWAR.position_results self) in
  Frame.sort_desc snd pos_wars.

(** [LeagueWAR.get_auction_value] on the list of auction values of the
    league: the first value of the player, if any. *)
Fixpoint get_auction_value (auction_values : list AuctionValue.t)
    (player_id : string) : option AuctionValue.t :=
  match auction_values with
  | [] => None
  | av :: rest =>
      if decide (AuctionValue.player_id av = player_id) then Some av
      else get_auction_value rest player_id
  end.

End ModelProperties.

(** ** auction_values.py: the draft board and the budget allocation *)

Module DraftBoard.
Import ModelProperties.

(** One dictionary of the draft board. *)
Record DraftRow : Type := {
  rank : Z;
  player_name : string;
  position : string;
  war : R;
  auction_value : R;
  position_rank : Z;
  tier : Z;
  value_efficiency : R;
  budget_percent : R;
  sleeper : bool;
  bust_risk : bool
}.

(** The [key] of the three [sorted] calls. *)
Definition sort_key (sort_by : string) (x : AuctionValue.t) : R :=
  if decide (sort_by = "war") then AuctionValue.wins_above_replacement x
  else if decide (sort_by = "value_efficiency") then
    (if decide (AuctionValue.auction_value_dollars x > 0)
     then AuctionValue.wins_above_replacement x
          / AuctionValue.auction_value_dollars x
     else 0)
  else AuctionValue.auction_value_dollars x.

(** [av.player_name or av.player_id]: a missing or empty name gives way
    to the id. *)
Definition display_name (av : AuctionValue.t) : string :=
  match AuctionValue.player_name av with
  | Some name =>
      if decide (name = EmptyString) then AuctionValue.player_id av else name
  | None => AuctionValue.player_id av
  end.

(** The body of the [for i, av in enumerate(sorted_values)] loop. *)
Definition board_step (acc : result (list DraftRow)) (item : Z * AuctionValue.t)
    : result (list DraftRow) :=
  draft_board ← acc;
  let '(i, av) := item in
  budget_percent ← budget_percentage av;
  Ok (draft_board ++
      [{| rank := (i + 1)%Z;
          player_name := display_name av;
          position := AuctionValue.position av;
          war := AuctionValue.wins_above_replacement av;
          auction_value := AuctionValue.auction_value_dollars av;
          position_rank := AuctionValue.war_rank_position av;
          tier := AuctionValue.draft_tier av;
          value_efficiency := value_per_dollar av;
          budget_percent := budget_percent;
          sleeper := AuctionValue.is_sleeper av;
          bust_risk := AuctionValue.is_bust_risk av |}]).

Definition generate_draft_board (auction_values : list AuctionValue.t)
    (sort_by : string) : result (list DraftRow) :=
  let sorted_values := Frame.sort_desc (sort_key sort_by) auction_values in
  foldl board_step (Ok []) (Frame.with_row_count 0 sorted_values).

(** One dictionary of the budget allocation. *)
Record PositionBudget : Type := {
  min_starters : Z;
  max_starters : Z;
  total_players : Z;
  top_tier_cost : R;
  mid_tier_cost : R;
  total_value : R;
  avg_top_tier : R;
  recommended_budget_pct : R;
  scarcity_rating : string
}.

(** The grouping loop: [by_position] keeps its keys in the order of their
    first appearance and every list in the order of the input. *)
Definition add_position (by_position : list (string * list AuctionValue.t))
    (av : AuctionValue.t) : list (string * list AuctionValue.t) :=
  if decide (AuctionValue.position av ∈ map fst by_position) then
    map (fun group : string * list AuctionValue.t =>
           if decide (fst group = AuctionValue.position av)
           then (fst group, snd group ++ [av])
           else group)
        by_position
  else by_position ++ [(AuctionValue.position av, [av])].

Definition group_by_position (auction_values : list AuctionValue.t)
    : list (string * list AuctionValue.t) :=
  foldl add_position [] auction_values.

Definition dollars (avs : list AuctionValue.t) : R :=
  Py.sum (map AuctionValue.auction_value_dollars avs).

(** The analysis of one position. *)
Definition analyze_position (league_config : Leagues.LeagueConfig)
    (auction_values : list AuctionValue.t)
    (position : string) (pos_values : list AuctionValue.t)
    : result PositionBudget :=
  let pos_values :=
    Frame.sort_desc AuctionValue.auction_value_dollars pos_values in
  let '(min_req, max_req) :=
    Leagues.get_position_requirements (Leagues.roster league_config) position in
  let top_tier_value := dollars (slice_to max_req pos_values) in
  let mid_tier_value :=
    if decide (Frame.len pos_values > max_req)%Z
    then dollars (slice max_req (max_req * 2) pos_values)
    else 0 in
  let total_position_value := dollars pos_values in
  share ← Py.truediv total_position_value (dollars auction_values);
  Ok {| min_starters := min_req;
        max_starters := max_req;
        total_players := Frame.len pos_values;
        top_tier_cost := top_tier_value;
        mid_tier_cost := mid_tier_value;
        total_value := total_position_value;
        avg_top_tier :=
          if decide (max_req > 0)%Z then top_tier_value / IZR max_req else 0;
        recommended_budget_pct := share * 100;
        scarcity_rating :=
          if decide (IZR (Frame.len pos_values) < IZR max_req * 1.5) then "High"
          else if decide (Frame.len pos_values < max_req * 2)%Z then "Medium"
          else "Low" |}.

(** One turn of the [for position, pos_values in by_position.items()]
    loop. *)
Definition allocation_step (league_config : Leagues.LeagueConfig)
    (auction_values : list AuctionValue.t)
    (acc : result (list (string * PositionBudget)))
    (group : string * list AuctionValue.t)
    : result (list (string * PositionBudget)) :=
  position_analysis ← acc;
  analysis ← analyze_position league_config auction_values (fst group) (snd group);
  Ok (position_analysis ++ [(fst group, analysis)]).

Definition calculate_optimal_budget_allocation
    (league_config : Leagues.LeagueConfig)
    (auction_values : list AuctionValue.t)
    : result (list (string * PositionBudget)) :=
  foldl (allocation_step league_config auction_values) (Ok [])
    (group_by_position auction_values).

End DraftBoard.

(** ** utils/validators.py: the other validators *)

Module InputValidators.
Import Validators.

(** [str.upper()] on ASCII text: the letters a..z become A..Z. *)
Definition upper_char (c : ascii) : ascii :=
  let n := nat_of_ascii c in
  if (97 <=? n)%nat && (n <=? 122)%nat then ascii_of_nat (n - 32) else c.

Fixpoint upper (s : string) : string :=
  match s with
  | EmptyString => EmptyString
  | String c s' => String (upper_char c) (upper s')
  end.

(** [validate_season]; [current_year] stands for [datetime.now().year]. *)
Definition validate_season (current_year : Z) (season : pyval) : result Z :=
  match int season with
  | None =>
      Raise (ValueError
               ("Invalid season: " +:+ str season +:+ ". Must be a valid year."))
  | Some season_int =>
      if decide (season_int < 1920)%Z then
        Raise (ValueError
                 ("Season " +:+ pretty season_int +:+
                  " too early. NFL data starts from 1920."))
      else if decide (season_int > current_year + 1)%Z then
        Raise (ValueError
                 ("Season " +:+ pretty season_int +:+
                  " is in the future. Current year: " +:+ pretty current_year))
      else Ok season_int
  end.

Definition valid_positions : list string :=
  ["QB"; "RB"; "WR"; "TE"; "PK"; "PN"; "DT"; "DE"; "LB"; "CB"; "S"].

(** [validate_position] on a string. *)
Definition validate_position (position : string) : result string :=
  let position := strip (upper position) in
  if decide (position ∉ valid_positions) then
    Raise (ValueError
             ("Invalid position: " +:+ position +:+
              ". Valid positions: QB, RB, WR, TE, PK, PN, DT, DE, LB, CB, S"))
  else Ok position.

(** The argument of the list validators: a string or a list. *)
Inductive list_arg (A : Type) : Type :=
| ArgStr (s : string)
| ArgList (l : list A).
Arguments ArgStr {A} s.
Arguments ArgList {A} l.

(** [validate_seasons_list]. *)
Definition validate_seasons_list (current_year : Z) (seasons : list_arg pyval)
    : result (list Z) :=
  let seasons :=
    match seasons with
    | ArgStr s => map (fun s => PyStr (strip s)) (split "," s)
    | ArgList l => l
    end in
  validated_seasons ←
    foldl (fun acc season =>
             validated_seasons ← acc;
             s ← validate_season current_year season;
             Ok (validated_seasons ++ [s]))
          (Ok []) seasons;
  Ok (merge_sort Z.le (remove_dups validated_seasons)).

(** The loop that removes duplicates while preserving order; the [seen]
    set always holds the elements of [unique_positions]. *)
Definition unique_step (unique_positions : list string) (pos : string)
    : list string :=
  if decide (pos ∉ unique_positions) then unique_positions ++ [pos]
  else unique_positions.

(** [validate_positions_list]. *)
Definition validate_positions_list (positions : list_arg string)
    : result (list string) :=
  let positions :=
    match positions with
    | ArgStr s => map strip (split "," s)
    | ArgList l => l
    end in
  validated_positions ←
    foldl (fun acc position =>
             validated_positions ← acc;
             p ← validate_position position;
             Ok (validated_positions ++ [p]))
          (Ok []) positions;
  Ok (foldl unique_step [] validated_positions).

(** [validate_player_id]. *)
Definition validate_player_id (player_id : pyval) : result string :=
  match player_id with
  | PyInt _ => Raise (ValueError "Player ID must be a string")
  | PyStr player_id =>
      let player_id := strip player_id in
      if decide (player_id = EmptyString) then
        Raise (ValueError "Player ID cannot be empty")
      else if decide (50 < String.length player_id)%nat then
        Raise (ValueError "Player ID too long (max 50 characters)")
      else Ok player_id
  end.

Definition valid_teams : list string :=
  ["ARI"; "ATL"; "BAL"; "BUF"; "CAR"; "CHI"; "CIN"; "CLE";
   "DAL"; "DEN"; "DET"; "GB"; "HOU"; "IND"; "JAX"; "KC";
   "LV"; "LAC"; "LAR"; "MIA"; "MIN"; "NE"; "NO"; "NYG";
   "NYJ"; "PHI"; "PIT"; "SF"; "SEA"; "TB"; "TEN"; "WAS"].

(** [validate_team_abbreviation]. *)
Definition validate_team_abbreviation (team : pyval) : result string :=
  match team with
  | PyInt _ => Raise (ValueError "Team abbreviation must be a string")
  | PyStr team =>
      let team := strip (upper team) in
      if decide (team ∉ valid_teams) then
        Raise (ValueError
                 ("Invalid team abbreviation: " +:+ team +:+
                  ". Valid teams: ARI, ATL, BAL, BUF, CAR, CHI, CIN, CLE, " +:+
                  "DAL, DEN, DET, GB, HOU, IND, JAX, KC, LAC, LAR, LV, MIA, " +:+
                  "MIN, NE, NO, NYG, NYJ, PHI, PIT, SEA, SF, TB, TEN, WAS"))
      else Ok team
  end.

(** [validate_games_played]. *)
Definition validate_games_played (games : pyval) : result Z :=
  match int games with
  | None =>
      Raise (ValueError
               ("Invalid games count: " +:+ str games +:+
                ". Must be a valid integer."))
  | Some games_int =>
      if decide (games_int < 0)%Z then
        Raise (ValueError
                 ("Games played cannot be negative. Got: " +:+ pretty games_int))
      else if decide (games_int > 17)%Z then
        Raise (ValueError
                 ("Games played cannot exceed 17 in a season. Got: " +:+
                  pretty games_int))
      else Ok games_int
  end.

End InputValidators.

(** ** calculators/war_engine.py: from weekly rows to the WAR of a position *)

Module WarPipeline.
Import Leagues WinProbability.

(** A row of the weekly statistics frame. *)
Record WeeklyRow : Type := {
  player_id : string;
  season : Z;
  week : Z;
  position : string;
  games_played : R;
  fantasy_points_mppr : R;
  player_name : option string;
  team : option string
}.

(** The constraints of [PositionWAR]: [season] in 1920..2030, [position]
    one of the eleven codes, and [total_teams], [starters_per_team],
    [total_starter_spots] and [replacement_level_rank] positive. *)
Definition position_war_fields_ok (p : PositionWAR.t) : Prop :=
  PositionWAR.position p ∈ all_position_codes /\
  (1920 <= PositionWAR.season p <= 2030)%Z /\
  (PositionWAR.total_teams p > 0)%Z /\
  (PositionWAR.starters_per_team p > 0)%Z /\
  (PositionWAR.total_starter_spots p > 0)%Z /\
  (PositionWAR.replacement_level_rank p > 0)%Z.

#[global] Instance position_war_fields_ok_dec (p : PositionWAR.t) :
  Decision (position_war_fields_ok p).
Proof. unfold position_war_fields_ok. apply _. Defined.

(** [PositionWAR(...)]: the constructor validates its fields. *)
Definition new_position_war (p : PositionWAR.t) : result PositionWAR.t :=
  if decide (position_war_fields_ok p) then Ok p else Raise ValidationError.

(** [min(xs)] on a list of integers; an empty list is a [ValueError]. *)
Definition min_of (xs : list Z) : result Z :=
  match xs with
  | [] => Raise (ValueError "min() arg is an empty sequence")
  | x :: xs => Ok (foldl Z.min x xs)
  end.

(** The two fields set by [_calculate_league_statistics]. *)
Record LeagueStatistics : Type := {
  total_war_generated : R;
  average_war_per_position : list (string * R)
}.

(** [_calculate_league_statistics]; the items of [position_results] are
    those of a dictionary, so every assignment to [position_wars] adds a new
    key. *)
Definition _calculate_league_statistics (league_war : LeagueWAR.t)
    : LeagueStatistics :=
  foldl (fun stats (item : string * PositionWAR.t) =>
           let wars := PositionWAR.player_wars (snd item) in
           let pos_war_total :=
             Py.sum (map WARResult.wins_above_replacement wars) in
           {| total_war_generated := total_war_generated stats + pos_war_total;
              average_war_per_position :=
                average_war_per_position stats ++
                [(fst item,
                  match wars with
                  | [] => 0
                  | _ => pos_war_total / INR (length wars)
                  end)] |})
        {| total_war_generated := 0; average_war_per_position := [] |}
        (LeagueWAR.position_results league_war).


(** The constraints of [LeagueWAR]: [season] in 1920..2030, [total_teams]
    positive, and positions among the eleven codes. *)
Definition league_war_fields_ok (l : LeagueWAR.t) : Prop :=
  (1920 <= LeagueWAR.season l <= 2030)%Z /\
  (LeagueWAR.total_teams l > 0)%Z /\
  Forall (fun pos => pos ∈ all_position_codes)
         (LeagueWAR.positions_analyzed l) /\
  Forall (fun item : string * PositionWAR.t => fst item ∈ all_position_codes)
         (LeagueWAR.position_results l).

#[global] Instance league_war_fields_ok_dec (l : LeagueWAR.t) :
  Decision (league_war_fields_ok l).
Proof. unfold league_war_fields_ok. apply _. Defined.

(** [LeagueWAR(...)]: the constructor validates its fields. *)
Definition new_league_war (l : LeagueWAR.t) : result LeagueWAR.t :=
  if decide (league_war_fields_ok l) then Ok l else Raise ValidationError.

(** [d[k] = v] on a dictionary kept as the list of its items: the value of
    an existing key is replaced in place, a new key is added at the end. *)
Fixpoint dict_set {V : Type} (d : list (string * V)) (k : string) (v : V)
    : list (string * V) :=
  match d with
  | [] => [(k, v)]
  | (k', v') :: d' =>
      if decide (k' = k) then (k, v) :: d' else (k', v') :: dict_set d' k v
  end.

Section GroupBy.

(** [DataFrame.group_by] does not fix the order of the groups it returns;
    [arrange] stands for the order it happens to produce. *)
Variable arrange : forall K : Type, list K -> list K.

(** The key of [group_by(["player_id", "season", "position"])]. *)
Definition season_key (r : WeeklyRow) : string * Z * string :=
  (player_id r, season r, position r).

(** The aggregation of one group. *)
Definition aggregate_group (key : string * Z * string)
    (rows : list WeeklyRow) : StatsRow.t :=
  let points := map fantasy_points_mppr rows in
  {| StatsRow.player_id := fst (fst key);
     StatsRow.season := snd (fst key);
     StatsRow.position := snd key;
     StatsRow.games_played := Py.sum (map games_played rows);
     StatsRow.total_fantasy_points_mppr := Py.sum points;
     StatsRow.avg_fantasy_points_mppr := default 0 (Py.mean points);
     StatsRow.player_name := head rows ≫= player_name;
     StatsRow.team := head rows ≫= team |}.

(** [_aggregate_to_season]. *)
Definition _aggregate_to_season (league_config : LeagueConfig)
    (weekly_stats : list WeeklyRow) : list StatsRow.t :=
  let keys := arrange _ (remove_dups (map season_key weekly_stats)) in
  let aggregated :=
    map (fun key =>
           aggregate_group key
             (filter (fun r => season_key r = key) weekly_stats))
        keys in
  filter (fun row =>
            StatsRow.games_played row
              >= IZR (minimum_games_played league_config))
         aggregated.

(** The total points of the players of a position: the
    [group_by("player_id")] of [_calculate_team_scoring_context]. *)
Definition player_totals (stats_df : list WeeklyRow) (position_ : string)
    : list R :=
  let rows := filter (fun r => position r = position_) stats_df in
  let keys := arrange _ (remove_dups (map player_id rows)) in
  map (fun key =>
         Py.sum (map fantasy_points_mppr
                     (filter (fun r => player_id r = key) rows)))
      keys.

(** One turn of the loop over the positions: the entries appended to
    [team_scores], each a pair of [avg_points] and [std_points]. *)
Definition position_scores (league_config : LeagueConfig)
    (stats_df : list WeeklyRow) (position_ : string) : list (R * R) :=
  let '(min_req, max_req) :=
    get_position_requirements (roster league_config) position_ in
  if decide (max_req = 0)%Z then []
  else
    let position_players :=
      Frame.head (teams league_config * max_req)%Z
        (Frame.sort_desc id (player_totals stats_df position_)) in
    match Py.mean position_players with
    | None => []
    | Some avg_points =>
        let std_points := default 0 (Frame.std position_players) in
        replicate (Z.to_nat max_req) (avg_points, std_points)
    end.

(** [_calculate_team_scoring_context]. *)
Definition _calculate_team_scoring_context (league_config : LeagueConfig)
    (stats_df : list WeeklyRow) : TeamContext :=
  let team_scores :=
    concat (map (position_scores league_config stats_df)
                (get_all_positions league_config)) in
  let '(total_avg, total_std) :=
    match team_scores with
    | [] => (100.0, 20.0)
    | _ =>
        (Py.sum (map fst team_scores),
         sqrt (Py.sum (map (fun pos => snd pos * snd pos) team_scores)))
    end in
  {| team_avg_score := total_avg;
     team_score_std := Py.max total_std 1.0 |}.

(** [calculate_position_war].  The call of
    [_calculate_position_statistics] at its end only fills the analytics
    fields ([average_war], [median_war], [std_dev_war], [top_performers],
    [worst_performers]), which the record [PositionWAR.t] does not carry. *)
Definition calculate_position_war (league_config : LeagueConfig)
    (stats_df : list WeeklyRow) (position_ : string) (seasons weeks : list Z)
    (team_context : TeamContext) : result (option PositionWAR.t) :=
  let position_stats :=
    filter (fun r =>
              position r = position_ /\
              games_played r >= IZR (minimum_games_played league_config))
           stats_df in
  if decide (Frame.len position_stats = 0)%Z then Ok None
  else
    let season_stats := _aggregate_to_season league_config position_stats in
    replacement_info ←
      Replacement.find_replacement_level league_config season_stats position_;
    match replacement_info with
    | None => Ok None
    | Some replacement_info =>
        let player_wars :=
          omap (fun player_data =>
                  WarEngine._calculate_player_war player_data replacement_info
                    team_context weeks)
               season_stats in
        let player_wars :=
          Frame.sort_desc WARResult.wins_above_replacement player_wars in
        season_ ← min_of seasons;
        position_war ←
          new_position_war
            {| PositionWAR.position := position_;
               PositionWAR.season := season_;
               PositionWAR.total_teams := teams league_config;
               PositionWAR.starters_per_team :=
                 snd (get_position_requirements (roster league_config)
                        position_);
               PositionWAR.total_starter_spots :=
                 get_starter_pool_size league_config position_;
               PositionWAR.replacement_level_rank :=
                 Replacement.rank replacement_info;
               PositionWAR.replacement_player_id :=
                 Some (Replacement.player_id replacement_info);
               PositionWAR.player_wars := player_wars |};
        Ok (Some position_war)
    end.

(** One turn of the loop of [calculate_league_war] over the positions. *)
Definition league_step (league_config : LeagueConfig)
    (filtered_stats : list WeeklyRow) (seasons weeks : list Z)
    (team_context : TeamContext)
    (acc : result (list (string * PositionWAR.t))) (position_ : string)
    : result (list (string * PositionWAR.t)) :=
  position_results ← acc;
  pos_war ←
    calculate_position_war league_config filtered_stats position_ seasons
      weeks team_context;
  match pos_war with
  | Some pos_war =>
      if decide (Frame.len (PositionWAR.player_wars pos_war) > 0)%Z
      then Ok (dict_set position_results position_ pos_war)
      else Ok position_results
  | None => Ok position_results
  end.

(** [calculate_league_war]: the [LeagueWAR] it returns, with the two
    statistics that [_calculate_league_statistics] sets on it. *)
Definition calculate_league_war (league_config : LeagueConfig)
    (stats_df : list WeeklyRow) (seasons : list Z)
    (weeks : option (list Z)) : result (LeagueWAR.t * LeagueStatistics) :=
  let weeks :=
    match weeks with
    | Some (w :: ws) => w :: ws
    | _ => regular_season_weeks league_config
    end in
  let filtered_stats :=
    filter (fun r => season r ∈ seasons /\ week r ∈ weeks) stats_df in
  let team_context :=
    _calculate_team_scoring_context league_config filtered_stats in
  position_results ←
    foldl (league_step league_config filtered_stats seasons weeks
             team_context)
          (Ok []) (get_all_positions league_config);
  season_ ← min_of seasons;
  league_war ←
    new_league_war
      {| LeagueWAR.season := season_;
         LeagueWAR.league_name := name league_config;
         LeagueWAR.total_teams := teams league_config;
         LeagueWAR.weeks_analyzed := weeks;
         LeagueWAR.positions_analyzed := map fst position_results;
         LeagueWAR.position_results := position_results |};
  Ok (league_war, _calculate_league_statistics league_war).

End GroupBy.

End WarPipeline.
(** * Properties

    ** The normal law and the builtins *)

Section NormalLaw.
Import WinProbability.

Lemma py_min_spec a b : Py.min a b = Rmin a b.
Proof. unfold Py.min, Rmin. case_decide; destruct (Rle_dec a b); lra. Qed.

Lemma py_max_spec a b : Py.max a b = Rmax a b.
Proof. unfold Py.max, Rmax. case_decide; destruct (Rle_dec a b); lra. Qed.

Lemma gauss_integral_chasles a b c :
  gauss_integral a b + gauss_integral b c = gauss_integral a c.
Proof. unfold gauss_integral. apply RiemannInt_P26. Qed.

Lemma gauss_integral_diag a : gauss_integral a a = 0.
Proof. unfold gauss_integral. apply RiemannInt_P9. Qed.

(** On [a, b] the density is at least [exp (- (m * m) / 2)] when [m] bounds
    the absolute values of the interval. *)
Lemma gauss_integral_lower a b m :
  a <= b -> - m <= a -> b <= m ->
  exp (- (m * m) / 2) * (b - a) <= gauss_integral a b.
Proof.
  intros Hab Hma Hbm. unfold gauss_integral.
  rewrite <- (RiemannInt_P15 (RiemannInt_P14 a b (exp (- (m * m) / 2)))).
  apply RiemannInt_P19; [done|].
  intros x Hx. unfold fct_cte, gauss_density.
  destruct (Req_dec (x * x) (m * m)) as [->|Hne]; [lra|].
  left. apply exp_increasing. nra.
Qed.

Lemma gauss_integral_pos a b : a < b -> 0 < gauss_integral a b.
Proof.
  intros Hab.
  pose (m := Rmax (Rabs a) (Rabs b)).
  assert (- m <= a).
  { unfold m. pose proof (Rmax_l (Rabs a) (Rabs b)).
    unfold Rabs in *. destruct (Rcase_abs a); lra. }
  assert (b <= m).
  { unfold m. pose proof (Rmax_r (Rabs a) (Rabs b)).
    pose proof (RRle_abs b). lra. }
  eapply Rlt_le_trans; [|apply (gauss_integral_lower a b m); lra].
  apply Rmult_lt_0_compat; [apply exp_pos | lra].
Qed.

Lemma sqrt_2pi_pos : 0 < sqrt (2 * PI).
Proof. apply sqrt_lt_R0. pose proof PI_RGT_0. lra. Qed.

Lemma std_norm_cdf_0 : std_norm_cdf 0 = 1 / 2.
Proof.
  unfold std_norm_cdf. rewrite gauss_integral_diag.
  unfold Rdiv. rewrite Rmult_0_l. lra.
Qed.

Lemma std_norm_cdf_strict z1 z2 : z1 < z2 -> std_norm_cdf z1 < std_norm_cdf z2.
Proof.
  intros H. unfold std_norm_cdf.
  rewrite <- (gauss_integral_chasles 0 z1 z2).
  pose proof (gauss_integral_pos z1 z2 H).
  pose proof sqrt_2pi_pos.
  assert (0 < gauss_integral z1 z2 / sqrt (2 * PI)).
  { apply Rdiv_lt_0_compat; done. }
  unfold Rdiv in *. rewrite Rmult_plus_distr_r. lra.
Qed.

Lemma std_norm_cdf_mono z1 z2 : z1 <= z2 -> std_norm_cdf z1 <= std_norm_cdf z2.
Proof.
  intros [H| ->]; [left; by apply std_norm_cdf_strict | lra].
Qed.
End NormalLaw.

(** ** Win probability *)

Section WinProbabilityProps.
Import WinProbability.

Lemma calculate_win_probability_unfold player_score mean std :
  calculate_win_probability player_score mean std =
  Rmax 0 (Rmin 1 (std_norm_cdf
    ((player_score - mean) / (if decide (std <= 0) then 1 else std)))).
Proof.
  unfold calculate_win_probability, norm_cdf.
  by rewrite py_max_spec, py_min_spec.
Qed.

Lemma effective_std_pos std : 0 < (if decide (std <= 0) then 1 else std).
Proof. case_decide; lra. Qed.

(** C3: for every team mean and every standard deviation (positive or
    not), [calculate_win_probability] returns a value in [0, 1], is
    non-decreasing in the player score, and returns exactly 0.5 when the
    player score equals the team mean. *)
Theorem win_probability_range_monotone_half :
  forall team_average_score team_score_std : R,
    (forall player_score,
        0 <= calculate_win_probability player_score team_average_score team_score_std <= 1) /\
    (forall score1 score2,
        score1 <= score2 ->
        calculate_win_probability score1 team_average_score team_score_std <=
        calculate_win_probability score2 team_average_score team_score_std) /\
    calculate_win_probability team_average_score team_average_score team_score_std = 0.5.
Proof.
  intros mean std. repeat split.
  - rewrite calculate_win_probability_unfold. apply Rmax_l.
  - rewrite calculate_win_probability_unfold.
    apply Rmax_lub; [lra | apply Rmin_l].
  - intros s1 s2 Hs. rewrite !calculate_win_probability_unfold.
    pose proof (effective_std_pos std) as Hstd.
    apply Rle_max_compat_l, Rle_min_compat_l, std_norm_cdf_mono.
    apply Rmult_le_compat_r; [left; by apply Rinv_0_lt_compat | lra].
  - rewrite calculate_win_probability_unfold.
    replace (mean - mean) with 0 by lra.
    unfold Rdiv at 1. rewrite Rmult_0_l, std_norm_cdf_0.
    rewrite Rmin_right by lra. rewrite Rmax_right by lra. lra.
Qed.
End WinProbabilityProps.

(** ** The value-over-replacement curve *)

Section CurveProps.
Import WinProbability.

Lemma win_probability_above_half score mean std :
  mean < score -> 1 / 2 < calculate_win_probability score mean std.
Proof.
  intros H. rewrite calculate_win_probability_unfold.
  pose proof (effective_std_pos std) as Hstd.
  assert (0 < (score - mean) / (if decide (std <= 0) then 1 else std)) as Hz.
  { apply Rdiv_lt_0_compat; lra. }
  apply std_norm_cdf_strict in Hz. rewrite std_norm_cdf_0 in Hz.
  unfold Rmax, Rmin. repeat destruct (Rle_dec _ _); lra.
Qed.

Lemma win_probability_below_half score mean std :
  score < mean -> calculate_win_probability score mean std < 1 / 2.
Proof.
  intros H. rewrite calculate_win_probability_unfold.
  pose proof (effective_std_pos std) as Hstd.
  assert ((score - mean) / (if decide (std <= 0) then 1 else std) < 0) as Hz.
  { apply Rinv_0_lt_compat in Hstd. unfold Rdiv. nra. }
  apply std_norm_cdf_strict in Hz. rewrite std_norm_cdf_0 in Hz.
  unfold Rmax, Rmin. repeat destruct (Rle_dec _ _); lra.
Qed.

(** [marginal_chain prev curve]: every point's marginal WAR is its WAR minus
    the WAR of the point before it, [prev] standing for the point before the
    first. *)
Fixpoint marginal_chain (prev : R) (curve : list CurvePoint) : Prop :=
  match curve with
  | [] => True
  | p :: curve' => marginal_war p = war p - prev /\ marginal_chain (war p) curve'
  end.

Lemma marginal_chain_snoc prev curve p :
  marginal_chain prev curve ->
  marginal_war p = war p - from_option war prev (last curve) ->
  marginal_chain prev (curve ++ [p]).
Proof.
  revert prev. induction curve as [|q curve IH]; intros prev Hc Hp; simpl in *.
  - by split.
  - destruct Hc as [Hq Hc]. split; [exact Hq|]. apply IH; [exact Hc|].
    rewrite Hp. destruct curve as [|c curve]; [done|].
    change (last (q :: c :: curve)) with (last (c :: curve)).
    assert (is_Some (last (c :: curve))) as [x ->] by (by apply last_is_Some).
    done.
Qed.

Lemma curve_append_chain ctx rwp curve points :
  marginal_chain 0 curve -> marginal_chain 0 (curve_append ctx rwp curve points).
Proof.
  intros Hc. unfold curve_append. apply marginal_chain_snoc; [done|].
  simpl. by destruct (last curve).
Qed.

Lemma curve_fold_chain ctx rwp pts curve :
  marginal_chain 0 curve ->
  marginal_chain 0 (foldl (curve_append ctx rwp) curve pts).
Proof.
  revert curve. induction pts as [|x pts IH]; intros curve Hc; simpl; [done|].
  by apply IH, curve_append_chain.
Qed.

Lemma curve_fold_length ctx rwp pts curve :
  length (foldl (curve_append ctx rwp) curve pts) = (length curve + length pts)%nat.
Proof.
  revert curve. induction pts as [|x pts IH]; intros curve; simpl; [lia|].
  rewrite IH. unfold curve_append. rewrite length_app. simpl. lia.
Qed.

Lemma curve_fold_prefix ctx rwp pts curve :
  exists rest, foldl (curve_append ctx rwp) curve pts = curve ++ rest.
Proof.
  revert curve. induction pts as [|x pts IH]; intros curve; simpl.
  - exists []. by rewrite app_nil_r.
  - destruct (IH (curve_append ctx rwp curve x)) as [rest ->].
    unfold curve_append. eexists. by rewrite <- app_assoc.
Qed.

Lemma marginal_chain_lookup prev curve i p q :
  marginal_chain prev curve ->
  curve !! i = Some p -> curve !! S i = Some q ->
  marginal_war q = war q - war p.
Proof.
  revert prev i. induction curve as [|x curve IH]; intros prev i Hc Hp Hq; [done|].
  destruct Hc as [_ Hc]. destruct i as [|i]; simpl in *.
  - simplify_eq. destruct curve as [|y curve]; simplify_eq/=. by destruct Hc.
  - eauto.
Qed.

Lemma linspace_length start stop num pts :
  linspace start stop num = Ok pts -> length pts = Z.to_nat num.
Proof.
  unfold linspace. case_decide; [done|]. intros [= <-].
  by rewrite length_map, length_seq.
Qed.

Lemma linspace_ok start stop num :
  (0 <= num)%Z -> exists pts, linspace start stop num = Ok pts.
Proof. intros. unfold linspace. case_decide; [lia | eauto]. Qed.

Lemma linspace_first start stop num pts x :
  linspace start stop num = Ok pts -> pts !! 0%nat = Some x -> x = start.
Proof.
  unfold linspace. case_decide; [done|]. intros [= <-].
  destruct (Z.to_nat num) as [|n]; [done|]. simpl. intros [= <-].
  case_decide; lra.
Qed.

(** The shape of the curve on a valid range. *)
Lemma curve_structure lo hi repl ctx num :
  lo < hi -> (0 <= num)%Z ->
  exists curve,
    calculate_value_over_replacement_curve (lo, hi) repl ctx num = Ok curve /\
    length curve = Z.to_nat num /\
    marginal_chain 0 curve /\
    (forall p, curve !! 0%nat = Some p ->
       war p =
         calculate_win_probability lo (team_avg_score ctx) (team_score_std ctx) * 17
         - calculate_win_probability repl (team_avg_score ctx) (team_score_std ctx) * 17).
Proof.
  intros Hlt Hnum. unfold calculate_value_over_replacement_curve.
  case_decide; [lra|].
  destruct (linspace_ok lo hi num Hnum) as [pts Hpts]. rewrite Hpts. simpl.
  eexists. split; [done|]. split; [|split].
  - rewrite curve_fold_length. simpl. by apply linspace_length in Hpts.
  - by apply curve_fold_chain.
  - intros p. destruct pts as [|x pts]; [done|]. simpl.
    rewrite (linspace_first _ _ _ _ x Hpts eq_refl).
    edestruct curve_fold_prefix as [rest ->]. by intros [= <-].
Qed.

(** C8 (amended): for [min < max] and a non-negative number of points the
    curve has one dictionary per grid point; the first dictionary's
    [marginal_war] equals its own [war] (the code subtracts 0 when there is
    no previous point), and every later dictionary's [marginal_war] equals
    its [war] minus the previous dictionary's [war].  For [min >= max] the
    function returns the empty list. *)
Theorem curve_marginal_war :
  forall (min_points max_points replacement_level_points : R)
         (team_context : TeamContext) (num_points : Z),
    (min_points >= max_points ->
     calculate_value_over_replacement_curve (min_points, max_points)
       replacement_level_points team_context num_points = Ok []) /\
    (min_points < max_points -> (0 <= num_points)%Z ->
     exists curve,
       calculate_value_over_replacement_curve (min_points, max_points)
         replacement_level_points team_context num_points = Ok curve /\
       length curve = Z.to_nat num_points /\
       (forall p, curve !! 0%nat = Some p -> marginal_war p = war p) /\
       (forall i p q, curve !! i = Some p -> curve !! S i = Some q ->
                      marginal_war q = war q - war p)).
Proof.
  intros lo hi repl ctx num. split.
  - intros H. unfold calculate_value_over_replacement_curve.
    case_decide; [done | lra].
  - intros Hlt Hnum.
    destruct (curve_structure lo hi repl ctx num Hlt Hnum)
      as (curve & Hrun & Hlen & Hchain & _).
    exists curve. repeat split; [done | done | |].
    + intros p Hp. destruct curve as [|x curve]; simplify_eq/=.
      destruct Hchain as [-> _]. lra.
    + intros i p q. eapply marginal_chain_lookup, Hchain.
Qed.

(** The curve of the default 100 grid points over the range (0, 30). *)
Lemma curve_marginal_war_witness :
  exists curve,
    calculate_value_over_replacement_curve (0, 30) 10
      {| team_avg_score := 15; team_score_std := 1 |} 100 = Ok curve /\
    length curve = 100%nat /\
    (forall p, curve !! 0%nat = Some p -> marginal_war p = war p) /\
    (forall i p q, curve !! i = Some p -> curve !! S i = Some q ->
                   marginal_war q = war q - war p).
Proof.
  apply (curve_marginal_war 0 30 10 {| team_avg_score := 15; team_score_std := 1 |} 100);
    [lra | lia].
Defined.

(** C8 (as stated) fails: on the range (20, 30) with replacement level 10,
    team mean 15 and deviation 1, the first dictionary's [marginal_war] is
    positive, not 0. *)
Lemma curve_first_marginal_war_positive :
  exists curve p,
    calculate_value_over_replacement_curve (20, 30) 10
      {| team_avg_score := 15; team_score_std := 1 |} 100 = Ok curve /\
    curve !! 0%nat = Some p /\
    0 < marginal_war p.
Proof.
  destruct (curve_structure 20 30 10 {| team_avg_score := 15; team_score_std := 1 |} 100)
    as (curve & Hrun & Hlen & Hchain & Hfirst); [lra | lia |].
  destruct curve as [|p curve]; [done|].
  exists (p :: curve), p. split; [done|]. split; [done|].
  destruct Hchain as [-> _]. rewrite (Hfirst p eq_refl). simpl.
  pose proof (win_probability_above_half 20 15 1 ltac:(lra)).
  pose proof (win_probability_below_half 10 15 1 ltac:(lra)).
  lra.
Qed.

End CurveProps.

(** ** The WAR engine *)

Section WarEngineProps.
Import WinProbability WarEngine.

Lemma win_probability_in_unit score mean std :
  0 <= calculate_win_probability score mean std <= 1.
Proof.
  rewrite calculate_win_probability_unfold. split.
  - apply Rmax_l.
  - apply Rmax_lub; [lra | apply Rmin_l].
Qed.

Lemma int_of_float_Some x z : WARResult.int_of_float x = Some z -> x = IZR z.
Proof. unfold WARResult.int_of_float. case_decide; [|done]. by intros [= <-]. Qed.

Lemma int_of_float_IZR z : WARResult.int_of_float (IZR z) = Some z.
Proof.
  unfold WARResult.int_of_float. rewrite ZfloorZ. by case_decide.
Qed.

(** What a successful [WARResult(...)] holds. *)
Lemma war_result_new_ok pid season pos name team g weeks tfp afp wp ew rwp rew war_ waa tas tss w :
  WARResult.new pid season pos name team g weeks tfp afp wp ew rwp rew war_ waa tas tss = Ok w ->
  WARResult.fields_ok w /\
  g = IZR (WARResult.games_played w) /\
  WARResult.win_percentage w = wp /\
  WARResult.expected_wins w = ew /\
  WARResult.replacement_win_percentage w = rwp /\
  WARResult.replacement_expected_wins w = rew /\
  WARResult.wins_above_replacement w = war_.
Proof.
  unfold WARResult.new. destruct (WARResult.int_of_float g) as [z|] eqn:Hg; [|done].
  case_decide as Hok; [|done]. intros [= <-]. simpl.
  apply int_of_float_Some in Hg. done.
Qed.

(** C9: every [WARResult] produced by [_calculate_player_war] has
    [expected_wins <= games_played] and
    [replacement_expected_wins <= games_played]: each is a win probability,
    at most 1, times the games played, which the result record requires to
    be non-negative. *)
Theorem expected_wins_at_most_games_played :
  forall (player_data : StatsRow.t) (replacement_info : Replacement.ReplacementInfo)
         (team_context : TeamContext) (weeks : list Z) (war_result : WARResult.t),
    _calculate_player_war player_data replacement_info team_context weeks
      = Some war_result ->
    WARResult.expected_wins war_result <= IZR (WARResult.games_played war_result) /\
    WARResult.replacement_expected_wins war_result
      <= IZR (WARResult.games_played war_result).
Proof.
  intros row info ctx weeks w. unfold _calculate_player_war.
  destruct (player_war_body row info ctx weeks) as [w'|] eqn:Hbody; [|done].
  intros [= ->]. unfold player_war_body in Hbody.
  apply war_result_new_ok in Hbody as (Hok & Hg & _ & Hew & _ & Hrew & _).
  destruct Hok as (_ & _ & [Hg0 _] & _).
  apply IZR_le in Hg0. rewrite Hew, Hrew, Hg.
  pose proof (win_probability_in_unit (StatsRow.total_fantasy_points_mppr row)
                (team_avg_score ctx) (team_score_std ctx)).
  pose proof (win_probability_in_unit (Replacement.avg_fantasy_points info)
                (team_avg_score ctx) (team_score_std ctx)).
  split; nra.
Qed.

(** A row with a valid season and position, a whole number of games in
    0..17 and a non-negative team deviation always yields a result, whose
    WAR is the difference of the two win probabilities times the games. *)
Lemma player_war_returns (row : StatsRow.t) info ctx weeks (games : Z) :
  (1920 <= StatsRow.season row <= 2030)%Z ->
  StatsRow.position row ∈ Leagues.all_position_codes ->
  StatsRow.games_played row = IZR games -> (0 <= games <= 17)%Z ->
  0 <= team_score_std ctx ->
  exists w,
    _calculate_player_war row info ctx weeks = Some w /\
    WARResult.games_played w = games /\
    WARResult.wins_above_replacement w =
      calculate_win_probability (StatsRow.total_fantasy_points_mppr row)
        (team_avg_score ctx) (team_score_std ctx) * IZR games
      - calculate_win_probability (Replacement.avg_fantasy_points info)
          (team_avg_score ctx) (team_score_std ctx) * IZR games.
Proof.
  intros Hseason Hpos Hg Hgames Hstd.
  unfold _calculate_player_war, player_war_body, WARResult.new.
  rewrite Hg, int_of_float_IZR.
  pose proof (win_probability_in_unit (StatsRow.total_fantasy_points_mppr row)
                (team_avg_score ctx) (team_score_std ctx)).
  pose proof (win_probability_in_unit (Replacement.avg_fantasy_points info)
                (team_avg_score ctx) (team_score_std ctx)).
  assert (0 <= IZR games) by (apply IZR_le; lia).
  case_decide as Hok.
  - eexists. split; [done|]. simpl. done.
  - exfalso. apply Hok. unfold WARResult.fields_ok. simpl.
    repeat split; try done; try lia; try lra; nra.
Qed.

Definition example_quarterback : StatsRow.t :=
  {| StatsRow.player_id := "QB1";
     StatsRow.season := 2023;
     StatsRow.position := "QB";
     StatsRow.games_played := 2;
     StatsRow.total_fantasy_points_mppr := 20;
     StatsRow.avg_fantasy_points_mppr := 10;
     StatsRow.player_name := Some "Quarterback One";
     StatsRow.team := Some "KC" |}.

Definition example_replacement_info : Replacement.ReplacementInfo :=
  {| Replacement.player_id := "QB1";
     Replacement.rank := 1;
     Replacement.total_starters := 16;
     Replacement.avg_fantasy_points := 10;
     Replacement.total_fantasy_points := 20;
     Replacement.games_played := 2;
     Replacement.position_avg_fantasy_points := Some 10;
     Replacement.avg_starter_info :=
       {| Replacement.asi_avg_fantasy_points := 10;
          Replacement.asi_total_fantasy_points := Some 20;
          Replacement.asi_games_played := Some 2 |};
     Replacement.avg_starter_win_prob := 0.5 |}.

Definition example_context : TeamContext :=
  {| team_avg_score := 20; team_score_std := 1 |}.

Lemma expected_wins_at_most_games_played_witness :
  exists war_result,
    _calculate_player_war example_quarterback example_replacement_info
      example_context [1; 2]%Z = Some war_result /\
    WARResult.expected_wins war_result <= IZR (WARResult.games_played war_result) /\
    WARResult.replacement_expected_wins war_result
      <= IZR (WARResult.games_played war_result).
Proof.
  destruct (player_war_returns example_quarterback example_replacement_info
              example_context [1; 2]%Z 2) as (w & Hw & _);
    [simpl; lia | set_solver | done | lia | simpl; lra |].
  exists w. split; [exact Hw|].
  exact (expected_wins_at_most_games_played _ _ _ _ _ Hw).
Defined.

End WarEngineProps.

(** ** Data frames *)

Section FrameProps.
Context {A : Type} (key : A -> R).

(** Rows in decreasing order of [key]. *)
Definition sorted_desc (df : list A) : Prop :=
  StronglySorted (fun a b => key b <= key a) df.

Lemma insert_desc_perm x df : Frame.insert_desc key x df ≡ₚ x :: df.
Proof.
  induction df as [|y df IH]; simpl; [done|].
  case_decide; [done|]. rewrite IH. apply Permutation_swap.
Qed.

Lemma sort_desc_perm df : Frame.sort_desc key df ≡ₚ df.
Proof.
  induction df as [|x df IH]; simpl; [done|].
  rewrite insert_desc_perm. by f_equiv.
Qed.

Lemma sort_desc_length df : length (Frame.sort_desc key df) = length df.
Proof. apply Permutation_length, sort_desc_perm. Qed.

Lemma insert_desc_sorted x df :
  sorted_desc df -> sorted_desc (Frame.insert_desc key x df).
Proof.
  unfold sorted_desc. induction 1 as [|y df Hsorted IH Hy]; simpl.
  - repeat constructor.
  - case_decide as Hle.
    + constructor; [by constructor|].
      constructor; [done|].
      eapply Forall_impl; [exact Hy|]. simpl. intros z Hz. lra.
    + constructor; [done|].
      rewrite insert_desc_perm. constructor; [lra | done].
Qed.

Lemma sort_desc_sorted df : sorted_desc (Frame.sort_desc key df).
Proof.
  induction df as [|x df IH]; simpl; [constructor|].
  by apply insert_desc_sorted.
Qed.

Lemma sorted_desc_take n df : sorted_desc df -> sorted_desc (take n df).
Proof.
  unfold sorted_desc. intros H. rewrite <- (take_drop n df) in H.
  by apply StronglySorted_app_1_l in H.
Qed.

(** The last row of a sorted frame has the smallest key. *)
Lemma sorted_desc_last df x y :
  sorted_desc df -> last df = Some x -> y ∈ df -> key x <= key y.
Proof.
  unfold sorted_desc. induction 1 as [|z df Hsorted IH Hz]; [done|].
  intros Hlast Hy. destruct df as [|z' df].
  - simplify_eq/=. apply list_elem_of_singleton in Hy as ->. lra.
  - change (last (z :: z' :: df)) with (last (z' :: df)) in Hlast.
    apply elem_of_cons in Hy as [->|Hy]; [|by apply IH].
    rewrite Forall_forall in Hz. apply Hz.
    apply last_Some in Hlast as [l' ->]. set_solver.
Qed.
End FrameProps.

Section FrameOps.
Context {A : Type}.

Lemma with_row_count_length offset (df : list A) :
  length (Frame.with_row_count offset df) = length df.
Proof. apply length_imap. Qed.

Lemma with_row_count_take offset n (df : list A) :
  take n (Frame.with_row_count offset df) = Frame.with_row_count offset (take n df).
Proof.
  unfold Frame.with_row_count. apply list_eq. intros i.
  destruct (decide (i < n)%nat).
  - by rewrite lookup_take_lt, !list_lookup_imap, lookup_take_lt.
  - by rewrite lookup_take_ge, list_lookup_imap, lookup_take_ge by lia.
Qed.

Lemma with_row_count_snd offset (df : list A) :
  snd <$> Frame.with_row_count offset df = df.
Proof.
  unfold Frame.with_row_count. apply list_eq. intros i.
  rewrite list_lookup_fmap, list_lookup_imap. by destruct (df !! i).
Qed.

Lemma with_row_count_last offset (df : list A) :
  snd <$> last (Frame.with_row_count offset df) = last df.
Proof. by rewrite <- fmap_last, with_row_count_snd. Qed.

Lemma head_nonneg n (df : list A) :
  (0 <= n)%Z -> Frame.head n df = take (Z.to_nat n) df.
Proof. intros. unfold Frame.head. case_decide; [lia | done]. Qed.

(** [df.tail(1)] of a non-empty frame is its last row. *)
Lemma tail_1_last (df : list A) x :
  last df = Some x -> Frame.tail 1 df = [x].
Proof.
  intros Hlast. apply last_Some in Hlast as [l' ->].
  unfold Frame.tail. rewrite length_app. simpl.
  replace (length l' + 1 - 1)%nat with (length l') by lia.
  by rewrite drop_app_length.
Qed.


End FrameOps.

Lemma mean_is_Some xs : xs <> [] -> exists m, Py.mean xs = Some m.
Proof. destruct xs; [done | eauto]. Qed.

Lemma sum_ge_bound c xs :
  Forall (fun x => c <= x) xs -> c * INR (length xs) <= Py.sum xs.
Proof.
  induction 1 as [|x xs Hx Hxs IH].
  - simpl. lra.
  - change (length (x :: xs)) with (S (length xs)). rewrite S_INR.
    change (Py.sum (x :: xs)) with (x + Py.sum xs). lra.
Qed.

(** The mean of a non-empty column is at least any lower bound of its
    values. *)
Lemma mean_ge_bound c xs m :
  Forall (fun x => c <= x) xs -> Py.mean xs = Some m -> c <= m.
Proof.
  intros Hall Hm.
  pose proof (sum_ge_bound c _ Hall) as Hsum.
  assert (0 < INR (length xs)) as Hlen.
  { destruct xs; [done|]. apply lt_0_INR. simpl. lia. }
  assert (m = Py.sum xs / INR (length xs)) as ->.
  { destruct xs; [done|]. by injection Hm as <-. }
  apply Rmult_le_reg_r with (INR (length xs)); [done|].
  unfold Rdiv. rewrite Rmult_assoc, Rinv_l; lra.
Qed.

(** ** Replacement level *)

Section ReplacementProps.
Import Leagues Replacement.

Lemma map_fmap {A B} (f : A -> B) (l : list A) : map f l = f <$> l.
Proof. reflexivity. Qed.

Lemma with_row_count_column {A B} (f : A -> B) offset (df : list A) :
  (fun p => f (snd p)) <$> Frame.with_row_count offset df = f <$> df.
Proof.
  rewrite <- (with_row_count_snd offset df) at 2.
  by rewrite <- list_fmap_compose.
Qed.

Lemma qualified_games league_config stats_df position r :
  r ∈ qualified league_config stats_df position ->
  StatsRow.position r = position /\
  IZR (minimum_games_played league_config) <= StatsRow.games_played r.
Proof.
  unfold qualified. rewrite list_elem_of_filter. intros [[Hp Hg] _].
  split; [done | lra].
Qed.

(** The result of [find_replacement_level] on a position with a starter
    slot and a qualified player. *)
Lemma find_replacement_level_spec :
  forall (league_config : LeagueConfig) (stats_df : list StatsRow.t)
         (position : string) (min_req max_req : Z),
    config_fields_ok league_config ->
    get_position_requirements (roster league_config) position = (min_req, max_req) ->
    (max_req > 0)%Z ->
    qualified league_config stats_df position <> [] ->
    exists (info : ReplacementInfo) (row : StatsRow.t),
      let ranked :=
        Frame.sort_desc StatsRow.total_fantasy_points_mppr
          (qualified league_config stats_df position) in
      let top_n := take (Z.to_nat (teams league_config * max_req)) ranked in
      find_replacement_level league_config stats_df position = Ok (Some info) /\
      rank info =
        (if decide (teams league_config * max_req <= Frame.len ranked)%Z
         then teams league_config * max_req
         else Frame.len ranked)%Z /\
      Frame.len ranked = Frame.len (qualified league_config stats_df position) /\
      total_starters info = (teams league_config * max_req)%Z /\
      last top_n = Some row /\
      ranked !! Z.to_nat (rank info - 1) = Some row /\
      (forall r, r ∈ top_n ->
         StatsRow.total_fantasy_points_mppr row
           <= StatsRow.total_fantasy_points_mppr r) /\
      player_id info = StatsRow.player_id row /\
      total_fantasy_points info = StatsRow.total_fantasy_points_mppr row /\
      avg_fantasy_points info = StatsRow.avg_fantasy_points_mppr row /\
      games_played info = StatsRow.games_played row.
Proof.
  intros cfg df pos min_req max_req (Hteams & Hmin & _) Hreq Hmax Hq.
  set (ranked := Frame.sort_desc StatsRow.total_fantasy_points_mppr
                   (qualified cfg df pos)).
  set (N := (teams cfg * max_req)%Z).
  assert (1 <= N)%Z as HN by (unfold N; nia).
  assert (length ranked = length (qualified cfg df pos)) as Hlen
    by apply sort_desc_length.
  assert (ranked <> []) as Hranked.
  { intros E. rewrite E in Hlen. by destruct (qualified cfg df pos). }
  set (top_n := take (Z.to_nat N) ranked).
  assert (top_n <> []) as Htop.
  { unfold top_n. destruct ranked; [done|].
    destruct (Z.to_nat N) eqn:E; [lia | done]. }
  destruct (proj2 (last_is_Some top_n) Htop) as [row Hrow].
  assert (forall r, r ∈ top_n -> r ∈ qualified cfg df pos) as Hin.
  { intros r Hr. apply subseteq_take in Hr. unfold ranked in Hr.
    by rewrite sort_desc_perm in Hr. }
  (* the function, step by step *)
  unfold find_replacement_level. rewrite Hreq.
  case_decide as Hz; [lia|]. clear Hz.
  unfold position_players. fold ranked. fold N.
  rewrite head_nonneg by lia. rewrite with_row_count_take. fold top_n.
  pose proof (with_row_count_last 1 top_n) as Hlast. rewrite Hrow in Hlast.
  destruct (last (Frame.with_row_count 1 top_n)) as [[k row']|] eqn:Hlast';
    [|done].
  injection Hlast as ->.
  rewrite (tail_1_last _ _ Hlast').
  rewrite !map_fmap.
  rewrite (with_row_count_column StatsRow.avg_fantasy_points_mppr),
    (with_row_count_column StatsRow.total_fantasy_points_mppr),
    (with_row_count_column StatsRow.games_played).
  destruct (mean_is_Some (StatsRow.total_fantasy_points_mppr <$> top_n))
    as [mp Hmp]; [by destruct top_n|].
  destruct (mean_is_Some (StatsRow.games_played <$> top_n))
    as [mg Hmg]; [by destruct top_n|].
  assert (1 <= mg) as Hmg1.
  { apply (mean_ge_bound 1 _ _) in Hmg; [done|].
    apply Forall_fmap, Forall_forall. intros r Hr. simpl.
    apply Hin, qualified_games in Hr as [_ Hr].
    apply IZR_le in Hmin. by eapply Rle_trans. }
  rewrite Hmp, Hmg. simpl. unfold Py.truediv.
  destruct (decide (mg = 0)) as [E|_]; [lra|]. simpl.
  eexists. exists row. split; [reflexivity|]. simpl.
  unfold Frame.len. rewrite with_row_count_length.
  assert (0 < length ranked)%nat by (destruct ranked; simpl; [done | lia]).
  repeat split; try done.
  - repeat case_decide; lia.
  - by rewrite Hlen.
  - rewrite last_lookup in Hrow. unfold top_n in Hrow.
    rewrite length_take in Hrow.
    rewrite lookup_take_lt in Hrow by lia.
    rewrite <- Hrow. f_equal.
    repeat case_decide; lia.
  - intros r Hr.
    eapply (sorted_desc_last StatsRow.total_fantasy_points_mppr top_n);
      [|exact Hrow|exact Hr].
    apply sorted_desc_take, sort_desc_sorted.
Qed.

(** C2: for a position with max starters > 0 and at least one qualified
    player, [find_replacement_level] returns a dictionary whose rank is
    team count x max starters when that many qualified players exist and
    the number of qualified players otherwise; the replacement player is
    the last row of the top-N slice (N the starter pool size) of the
    qualified players sorted by decreasing total points, hence the
    lowest-ranked player of that slice. *)
Theorem find_replacement_level_rank :
  forall (league_config : LeagueConfig) (stats_df : list StatsRow.t)
         (position : string) (min_req max_req : Z),
    config_fields_ok league_config ->
    get_position_requirements (roster league_config) position = (min_req, max_req) ->
    (max_req > 0)%Z ->
    qualified league_config stats_df position <> [] ->
    exists (info : ReplacementInfo) (row : StatsRow.t),
      let ranked :=
        Frame.sort_desc StatsRow.total_fantasy_points_mppr
          (qualified league_config stats_df position) in
      let top_n := take (Z.to_nat (teams league_config * max_req)) ranked in
      find_replacement_level league_config stats_df position = Ok (Some info) /\
      rank info =
        (if decide (teams league_config * max_req <= Frame.len ranked)%Z
         then teams league_config * max_req
         else Frame.len ranked)%Z /\
      Frame.len ranked = Frame.len (qualified league_config stats_df position) /\
      total_starters info = (teams league_config * max_req)%Z /\
      last top_n = Some row /\
      ranked !! Z.to_nat (rank info - 1) = Some row /\
      (forall r, r ∈ top_n ->
         StatsRow.total_fantasy_points_mppr row
           <= StatsRow.total_fantasy_points_mppr r) /\
      player_id info = StatsRow.player_id row /\
      total_fantasy_points info = StatsRow.total_fantasy_points_mppr row /\
      avg_fantasy_points info = StatsRow.avg_fantasy_points_mppr row /\
      games_played info = StatsRow.games_played row.
Proof. exact find_replacement_level_spec. Qed.

End ReplacementProps.

Section ReplacementExamples.
Import Leagues Replacement.

Lemma filter_all {A} (P : A -> Prop) `{forall x, Decision (P x)} (l : list A) :
  Forall P l -> filter P l = l.
Proof.
  induction 1 as [|x l Hx Hl IH]; [done|].
  rewrite filter_cons_True by done. by rewrite IH.
Qed.

Lemma fal_league_fields_ok : config_fields_ok fal_league.
Proof.
  split; [simpl; lia|]. split; [simpl; lia|].
  unfold roster_fields_ok. simpl. repeat constructor; lia.
Qed.

(** Seventeen quarterbacks of the 2023 season, one game each, with totals
    10, 20, ..., 170. *)
Definition quarterback (i : nat) : StatsRow.t :=
  {| StatsRow.player_id := "QB" +:+ pretty i;
     StatsRow.season := 2023;
     StatsRow.position := "QB";
     StatsRow.games_played := 1;
     StatsRow.total_fantasy_points_mppr := INR i * 10;
     StatsRow.avg_fantasy_points_mppr := INR i * 10;
     StatsRow.player_name := None;
     StatsRow.team := None |}.

Definition seventeen_quarterbacks : list StatsRow.t := quarterback <$> seq 1 17.

Lemma seventeen_quarterbacks_qualified :
  qualified fal_league seventeen_quarterbacks "QB" = seventeen_quarterbacks.
Proof.
  apply filter_all, Forall_fmap, Forall_forall. intros i _. simpl.
  split; [done | lra].
Qed.

(** With 17 quarterbacks in the default 16-team league the replacement rank
    is 16, the starter pool size. *)
Lemma find_replacement_level_rank_witness :
  exists (info : ReplacementInfo) (row : StatsRow.t),
    find_replacement_level fal_league seventeen_quarterbacks "QB" = Ok (Some info) /\
    rank info = 16%Z /\
    total_starters info = 16%Z /\
    last (take 16 (Frame.sort_desc StatsRow.total_fantasy_points_mppr
                     seventeen_quarterbacks)) = Some row /\
    player_id info = StatsRow.player_id row.
Proof.
  destruct (find_replacement_level_rank fal_league seventeen_quarterbacks "QB" 1 1)
    as (info & row & Hrun & Hrank & Hlen & Htotal & Hlast & _ & _ & Hid & _).
  - apply fal_league_fields_ok.
  - reflexivity.
  - lia.
  - by rewrite seventeen_quarterbacks_qualified.
  - rewrite seventeen_quarterbacks_qualified in *.
    exists info, row. split; [done|].
    split; [|done].
    rewrite Hrank, Hlen. by case_decide.
Defined.

(** With only 10 quarterbacks the replacement rank is 10, the number of
    qualified players. *)
Example ten_quarterbacks_rank :
  exists info : ReplacementInfo,
    find_replacement_level fal_league (quarterback <$> seq 1 10) "QB"
      = Ok (Some info) /\
    rank info = 10%Z /\
    total_starters info = 16%Z.
Proof.
  assert (qualified fal_league (quarterback <$> seq 1 10) "QB"
          = quarterback <$> seq 1 10) as Hq.
  { apply filter_all, Forall_fmap, Forall_forall. intros i _. simpl.
    split; [done | lra]. }
  destruct (find_replacement_level_spec fal_league (quarterback <$> seq 1 10) "QB" 1 1)
    as (info & row & Hrun & Hrank & Hlen & Htotal & _).
  - apply fal_league_fields_ok.
  - reflexivity.
  - lia.
  - by rewrite Hq.
  - rewrite Hq in *. exists info. split; [done|]. split; [|done].
    rewrite Hrank, Hlen. by case_decide.
Qed.

End ReplacementExamples.

(** ** The replacement-level player's own WAR *)

Section ReplacementWarProps.
Import Leagues Replacement WinProbability WarEngine.

Lemma win_probability_at_mean mean std :
  calculate_win_probability mean mean std = 1 / 2.
Proof.
  rewrite calculate_win_probability_unfold.
  replace (mean - mean) with 0 by lra.
  unfold Rdiv at 1. rewrite Rmult_0_l, std_norm_cdf_0.
  rewrite Rmin_right by lra. rewrite Rmax_right by lra. lra.
Qed.

Lemma lone_quarterback_qualified :
  qualified fal_league [example_quarterback] "QB" = [example_quarterback].
Proof.
  apply filter_all. repeat constructor. simpl. lra.
Qed.

(** C1 fails on the code.  The season table holds one quarterback with two
    weekly scores of 10 (total 20, average 10, two games); the team context
    the engine computes from it has mean 20 and deviation 1.  The
    quarterback is the replacement-level player, so his total points and
    games equal the replacement player's, yet his WAR is positive: the
    player's side of the subtraction is computed from the total, the
    replacement side from the average. *)
Theorem replacement_player_war_positive :
  exists (info : ReplacementInfo) (war_result : WARResult.t),
    find_replacement_level fal_league [example_quarterback] "QB" = Ok (Some info) /\
    player_id info = StatsRow.player_id example_quarterback /\
    total_fantasy_points info
      = StatsRow.total_fantasy_points_mppr example_quarterback /\
    games_played info = StatsRow.games_played example_quarterback /\
    _calculate_player_war example_quarterback info example_context [1; 2]%Z
      = Some war_result /\
    0 < WARResult.wins_above_replacement war_result.
Proof.
  destruct (find_replacement_level_spec fal_league [example_quarterback] "QB" 1 1)
    as (info & row & Hrun & _ & _ & _ & Hlast & _ & _ & Hid & Htotal & Havg & Hgames).
  { apply fal_league_fields_ok. }
  { reflexivity. }
  { lia. }
  { by rewrite lone_quarterback_qualified. }
  rewrite lone_quarterback_qualified in Hlast. simpl in Hlast.
  injection Hlast as <-.
  destruct (player_war_returns example_quarterback info example_context [1; 2]%Z 2)
    as (w & Hw & _ & Hwar);
    [simpl; lia | set_solver | done | lia | simpl; lra |].
  exists info, w. repeat split; try done.
  rewrite Hwar, Havg. simpl.
  rewrite win_probability_at_mean.
  pose proof (win_probability_below_half 10 20 1 ltac:(lra)). lra.
Qed.

(** The second half of C1 fails for the same reason.  With negative MPPR
    totals a player can out-produce the replacement player in total points
    (-15 against -20, two games each) and still have a negative WAR, because
    his total is compared with the replacement player's average (-10). *)
Lemma out_producing_player_war_negative :
  exists war_result : WARResult.t,
    _calculate_player_war
      {| StatsRow.player_id := "QB2"; StatsRow.season := 2023;
         StatsRow.position := "QB"; StatsRow.games_played := 2;
         StatsRow.total_fantasy_points_mppr := -15;
         StatsRow.avg_fantasy_points_mppr := -7.5;
         StatsRow.player_name := None; StatsRow.team := None |}
      {| player_id := "QB1"; rank := 1; total_starters := 16;
         avg_fantasy_points := -10; total_fantasy_points := -20;
         games_played := 2; position_avg_fantasy_points := Some (-10);
         avg_starter_info :=
           {| asi_avg_fantasy_points := -10;
              asi_total_fantasy_points := Some (-20);
              asi_games_played := Some 2 |};
         avg_starter_win_prob := 0.5 |}
      {| team_avg_score := -12; team_score_std := 1 |} [1; 2]%Z
      = Some war_result /\
    WARResult.wins_above_replacement war_result < 0.
Proof.
  edestruct (player_war_returns) as (w & Hw & _ & Hwar);
    [| | | | | exists w; split; [exact Hw|]].
  - simpl. lia.
  - simpl. set_solver.
  - simpl. reflexivity.
  - lia.
  - simpl. lra.
  - rewrite Hwar. simpl.
    pose proof (win_probability_below_half (-15) (-12) 1 ltac:(lra)).
    pose proof (win_probability_above_half (-10) (-12) 1 ltac:(lra)).
    lra.
Qed.

End ReplacementWarProps.

(** ** Flex replacement level *)

Section FlexProps.
Import Leagues Replacement.

Lemma filter_nonempty {A} (P : A -> Prop) `{forall x, Decision (P x)}
    (l : list A) x :
  x ∈ l -> P x -> filter P l <> [].
Proof.
  intros Hx HP E.
  assert (x ∈ filter P l) as Hin by (by apply list_elem_of_filter).
  rewrite E in Hin. by apply elem_of_nil in Hin.
Qed.

Lemma flex_eligible_games league_config stats_df flex_positions p :
  p ∈ flex_eligible league_config stats_df flex_positions ->
  IZR (minimum_games_played league_config) <= StatsRow.games_played (snd p).
Proof.
  unfold flex_eligible. intros Hp.
  apply (list_elem_of_fmap_2 snd) in Hp.
  rewrite with_row_count_snd, sort_desc_perm in Hp.
  apply list_elem_of_filter in Hp as [(_ & _ & Hg) _]. lra.
Qed.

(** C6 fails on the code: whenever there is a flex-eligible player and at
    least one flex spot, [find_flex_replacement_level] finds the replacement
    player, builds its dictionary and then raises [NameError] while building
    the log message; no dictionary is returned. *)
Theorem find_flex_replacement_level_raises :
  forall (league_config : LeagueConfig) (stats_df : list StatsRow.t)
         (flex_positions : list string) (flex_spots : Z),
    config_fields_ok league_config ->
    (1 <= flex_spots)%Z ->
    flex_eligible league_config stats_df flex_positions <> [] ->
    find_flex_replacement_level league_config stats_df flex_positions flex_spots
      = Raise (NameError "replacement_info").
Proof.
  intros cfg df fps spots (_ & Hmin & _) Hspots Hne.
  unfold find_flex_replacement_level.
  set (fe := flex_eligible cfg df fps) in *.
  set (rk := if decide (Frame.len fe < spots)%Z then Frame.len fe else spots).
  assert (0 < length fe)%nat as Hlen by (destruct fe; simpl; [done | lia]).
  assert (1 <= rk <= Frame.len fe)%Z as Hrk.
  { unfold rk, Frame.len. case_decide; unfold Frame.len in *; lia. }
  (* the row of rank [rk] exists *)
  assert (exists row, (rk, row) ∈ fe) as [row Hrow].
  { unfold fe, flex_eligible in *. unfold Frame.with_row_count in *.
    rewrite length_imap in Hlen. unfold Frame.len in Hrk.
    rewrite length_imap in Hrk.
    match goal with |- context [imap _ ?l] => set (sorted := l) in * end.
    destruct (lookup_lt_is_Some_2 sorted (Z.to_nat (rk - 1))) as [row Hrow];
      [lia|].
    exists row. apply list_elem_of_lookup. exists (Z.to_nat (rk - 1)).
    rewrite list_lookup_imap, Hrow. simpl. do 2 f_equal. lia. }
  pose proof (filter_nonempty (fun p : Z * StatsRow.t => fst p = rk) fe
                (rk, row) Hrow eq_refl) as Hfound.
  destruct (filter (fun p : Z * StatsRow.t => fst p = rk) fe)
    as [|[k replacement_data] rest]; [done|].
  (* the two means and their quotient *)
  rewrite head_nonneg by lia. rewrite !map_fmap.
  set (starters := take (Z.to_nat spots) fe).
  assert (starters <> []) as Hstarters.
  { unfold starters. destruct fe; [done|].
    destruct (Z.to_nat spots) eqn:E; [lia | done]. }
  destruct (mean_is_Some
              ((fun p : Z * StatsRow.t => StatsRow.total_fantasy_points_mppr (snd p))
                 <$> starters)) as [mp ->]; [by destruct starters|].
  destruct (mean_is_Some
              ((fun p : Z * StatsRow.t => StatsRow.games_played (snd p))
                 <$> starters)) as [mg Hmg]; [by destruct starters|].
  assert (1 <= mg) as Hmg1.
  { eapply mean_ge_bound; [|exact Hmg].
    apply Forall_fmap, Forall_forall. intros p Hp. simpl.
    apply subseteq_take, flex_eligible_games in Hp.
    apply IZR_le in Hmin. lra. }
  rewrite ?map_fmap, Hmg. simpl. unfold Py.truediv.
  destruct (decide (mg = 0)) as [E|_]; [lra|]. reflexivity.
Qed.

(** A league without a dedicated tight-end slot, and one tight end. *)
Definition no_tight_end_slot_league : LeagueConfig :=
  {| name := "No TE slot";
     teams := 4;
     regular_season_weeks := [1; 2; 3; 4; 5; 6; 7; 8; 9; 10; 11; 12]%Z;
     playoff_weeks := [13; 14; 15; 16; 17]%Z;
     roster :=
       {| qb_min := 1; qb_max := 1; rb_min := 1; rb_max := 2;
          wr_min := 2; wr_max := 4; te_min := 0; te_max := 0;
          pk_min := 1; pk_max := 1; pn_min := 1; pn_max := 1;
          dt_min := 2; dt_max := 3; de_min := 2; de_max := 3;
          lb_min := 1; lb_max := 3; cb_min := 2; cb_max := 4;
          s_min := 2; s_max := 3;
          offensive_flex_max := 7; total_idp := 12;
          Leagues.total_starters := 21 |};
     minimum_games_played := 1;
     use_expected_points := false |}.

Definition example_tight_end : StatsRow.t :=
  {| StatsRow.player_id := "TE1";
     StatsRow.season := 2023;
     StatsRow.position := "TE";
     StatsRow.games_played := 2;
     StatsRow.total_fantasy_points_mppr := 12;
     StatsRow.avg_fantasy_points_mppr := 6;
     StatsRow.player_name := None;
     StatsRow.team := None |}.

Lemma example_tight_end_eligible :
  flex_eligible no_tight_end_slot_league [example_tight_end] ["RB"; "WR"; "TE"]
  = [(1%Z, example_tight_end)].
Proof.
  unfold flex_eligible.
  assert (used_players no_tight_end_slot_league [example_tight_end]
            ["RB"; "WR"; "TE"] = []) as ->.
  { unfold used_players. cbn [foldl].
    replace (get_position_requirements (roster no_tight_end_slot_league) "RB")
      with (1, 2)%Z by reflexivity.
    replace (get_position_requirements (roster no_tight_end_slot_league) "WR")
      with (2, 4)%Z by reflexivity.
    replace (get_position_requirements (roster no_tight_end_slot_league) "TE")
      with (0, 0)%Z by reflexivity.
    cbn beta iota. repeat (case_decide; try lia).
    rewrite !filter_cons_False, !filter_nil by (simpl; congruence).
    reflexivity. }
  rewrite filter_all; [reflexivity|].
  constructor; [|constructor]. simpl. repeat split; [set_solver | set_solver | lra].
Qed.

Lemma find_flex_replacement_level_raises_witness :
  find_flex_replacement_level no_tight_end_slot_league [example_tight_end]
    ["RB"; "WR"; "TE"] 4
  = Raise (NameError "replacement_info").
Proof.
  apply find_flex_replacement_level_raises.
  - split; [simpl; lia|]. split; [simpl; lia|].
    unfold roster_fields_ok. simpl. repeat constructor; lia.
  - lia.
  - by rewrite example_tight_end_eligible.
Defined.

End FlexProps.

(** ** Positional scarcity *)

Section ScarcityProps.
Import Leagues.

Lemma starter_pool_positive league_config position :
  config_fields_ok league_config ->
  position ∈ get_all_positions league_config ->
  (0 < teams league_config *
         snd (get_position_requirements (roster league_config) position))%Z.
Proof.
  intros (Hteams & _) Hpos. unfold get_all_positions in Hpos.
  apply list_elem_of_filter in Hpos as [Hmax _]. nia.
Qed.

Lemma py_min_le_r a b : Py.min a b <= b.
Proof. unfold Py.min. case_decide; lra. Qed.

(** The replacement-level calculator's multiplier of one position never
    exceeds 2, and any exception it raises is a [TypeError]. *)
Lemma replacement_position_scarcity_cases league_config stats_df position :
  config_fields_ok league_config ->
  position ∈ get_all_positions league_config ->
  (exists m, Replacement.position_scarcity league_config stats_df position = Ok m
             /\ m <= 2) \/
  Replacement.position_scarcity league_config stats_df position = Raise TypeError.
Proof.
  intros (Hteams & _) Hpos. unfold get_all_positions in Hpos.
  apply list_elem_of_filter in Hpos as [Hmax _].
  unfold Replacement.position_scarcity.
  case_decide; [left; eexists; split; [done | lra]|].
  destruct (get_position_requirements _ _) as [min_req max_req]. simpl in Hmax.
  destruct (Py.mean _) as [points_mean|]; [|by right].
  case_decide as Hc; [|left; eexists; split; [done | lra]].
  destruct Hc as [Hmean Hpool].
  destruct (Frame.std _) as [points_std|]; simpl; [|by right].
  unfold Py.truediv.
  destruct (decide (points_mean = 0)); [lra|]. simpl.
  destruct (decide (IZR (teams league_config * max_req) = 0)) as [E|_].
  { apply eq_IZR in E. lia. }
  simpl. left. eexists. split; [done|]. apply py_min_le_r.
Qed.

Lemma scarcity_fold_raise league_config stats_df e positions :
  foldl (Replacement.scarcity_step league_config stats_df) (Raise e) positions
  = Raise e.
Proof. induction positions as [|p positions IH]; simpl; done. Qed.

(** One qualified player with a positive total: the standard deviation of
    the single total is null and the division by it raises. *)
Lemma replacement_position_scarcity_single league_config stats_df position r :
  config_fields_ok league_config ->
  position ∈ get_all_positions league_config ->
  Replacement.qualified league_config stats_df position = [r] ->
  0 < StatsRow.total_fantasy_points_mppr r ->
  Replacement.position_scarcity league_config stats_df position = Raise TypeError.
Proof.
  intros Hcfg Hpos Hq Hr.
  pose proof (starter_pool_positive _ _ Hcfg Hpos) as Hpool.
  unfold Replacement.position_scarcity. rewrite Hq.
  case_decide as Hlen; [done|]. simpl.
  destruct (get_position_requirements _ _) as [min_req max_req]. simpl in Hpool.
  case_decide as Hc; [done|].
  exfalso. apply Hc. split; [|lia].
  unfold Rdiv. rewrite Rplus_0_r, Rinv_1. lra.
Qed.

Lemma scarcity_fold_single league_config stats_df position r positions acc :
  config_fields_ok league_config ->
  (forall p, p ∈ positions -> p ∈ get_all_positions league_config) ->
  position ∈ positions ->
  Replacement.qualified league_config stats_df position = [r] ->
  0 < StatsRow.total_fantasy_points_mppr r ->
  foldl (Replacement.scarcity_step league_config stats_df) (Ok acc) positions
  = Raise TypeError.
Proof.
  intros Hcfg Hall Hpos Hq Hr. revert acc Hall Hpos.
  induction positions as [|p positions IH]; intros acc Hall Hpos.
  - by apply elem_of_nil in Hpos.
  - cbn [foldl].
    change (Replacement.scarcity_step league_config stats_df (Ok acc) p)
      with (m ← Replacement.position_scarcity league_config stats_df p;
            (Ok (<[p := m]> acc) : result (gmap string R))).
    destruct (decide (p = position)) as [->|Hne].
    + rewrite (replacement_position_scarcity_single league_config stats_df position r)
        by (try done; apply Hall, elem_of_cons; by left).
      simpl. apply scarcity_fold_raise.
    + destruct (replacement_position_scarcity_cases league_config stats_df p Hcfg)
        as [(m & -> & _)| ->].
      * apply Hall, elem_of_cons. by left.
      * simpl. apply IH.
        -- intros q Hq'. apply Hall, elem_of_cons. by right.
        -- apply elem_of_cons in Hpos as [?|?]; [congruence | done].
      * simpl. apply scarcity_fold_raise.
Qed.

(** C7 fails on the code, in its last part, for the replacement-level
    calculator: with exactly one qualified player at a position of the
    league, and a positive total for that player,
    [calculate_positional_scarcity] returns no multiplier at all, it raises
    [TypeError]. *)
Theorem positional_scarcity_single_player_raises :
  forall (league_config : LeagueConfig) (stats_df : list StatsRow.t)
         (position : string) (r : StatsRow.t),
    config_fields_ok league_config ->
    position ∈ get_all_positions league_config ->
    Replacement.qualified league_config stats_df position = [r] ->
    0 < StatsRow.total_fantasy_points_mppr r ->
    Replacement.calculate_positional_scarcity league_config stats_df
      = Raise TypeError.
Proof.
  intros cfg df pos r Hcfg Hpos Hq Hr.
  unfold Replacement.calculate_positional_scarcity.
  by apply (scarcity_fold_single cfg df pos r).
Qed.

Lemma fal_league_all_positions :
  get_all_positions fal_league = all_position_codes.
Proof. reflexivity. Qed.

Lemma positional_scarcity_single_player_raises_witness :
  Replacement.calculate_positional_scarcity fal_league [example_quarterback]
    = Raise TypeError.
Proof.
  apply (positional_scarcity_single_player_raises fal_league
           [example_quarterback] "QB" example_quarterback).
  - apply fal_league_fields_ok.
  - rewrite fal_league_all_positions. set_solver.
  - apply lone_quarterback_qualified.
  - simpl. lra.
Defined.

(** The parts of C7 that hold.  Replacement-level calculator: every
    multiplier it returns is at most 2, and a position without qualified
    players gets 1. *)
Lemma replacement_scarcity_at_most_2 league_config stats_df multipliers :
  config_fields_ok league_config ->
  Replacement.calculate_positional_scarcity league_config stats_df = Ok multipliers ->
  map_Forall (fun _ m => m <= 2) multipliers.
Proof.
  intros Hcfg. unfold Replacement.calculate_positional_scarcity.
  assert (forall p, p ∈ get_all_positions league_config ->
                    p ∈ get_all_positions league_config) as Hall by done.
  assert (map_Forall (fun (_ : string) m => m <= 2) (∅ : gmap string R)) as Hacc
    by apply map_Forall_empty.
  revert Hall Hacc. generalize (get_all_positions league_config) at 1 3.
  intros positions. generalize (∅ : gmap string R). revert multipliers.
  induction positions as [|p positions IH]; intros multipliers acc Hall Hacc.
  - simpl. by intros [= <-].
  - cbn [foldl].
    change (Replacement.scarcity_step league_config stats_df (Ok acc) p)
      with (m ← Replacement.position_scarcity league_config stats_df p;
            (Ok (<[p := m]> acc) : result (gmap string R))).
    destruct (replacement_position_scarcity_cases league_config stats_df p Hcfg)
      as [(m & -> & Hm)| ->].
    + apply Hall, elem_of_cons. by left.
    + simpl. apply IH.
      * intros q Hq. apply Hall, elem_of_cons. by right.
      * by apply map_Forall_insert_2.
    + simpl. by rewrite scarcity_fold_raise.
Qed.

Lemma replacement_scarcity_no_players league_config stats_df position :
  Replacement.qualified league_config stats_df position = [] ->
  Replacement.position_scarcity league_config stats_df position = Ok 1.
Proof.
  intros Hq. unfold Replacement.position_scarcity. rewrite Hq.
  by case_decide.
Qed.

(** Auction-value calculator: every multiplier is at most 1.8, and a
    position with fewer than two qualified players gets 1. *)
Lemma auction_position_scarcity_at_most pos_result m :
  AuctionValues.position_scarcity pos_result = Ok m -> m <= 1.8.
Proof.
  unfold AuctionValues.position_scarcity.
  destruct (PositionWAR.player_wars pos_result); [intros [= <-]; lra|].
  destruct (map _ _) as [|w0 [|w1 ws]]; try (intros [= <-]; lra).
  destruct (if decide _ then _ else _) as [depth|]; [|done]. simpl.
  intros [= <-]. apply py_min_le_r.
Qed.

Lemma auction_position_scarcity_few_players pos_result :
  (length (PositionWAR.qualified_players pos_result) < 2)%nat ->
  AuctionValues.position_scarcity pos_result = Ok 1.
Proof.
  intros Hlen. unfold AuctionValues.position_scarcity.
  destruct (PositionWAR.player_wars pos_result); [done|].
  destruct (PositionWAR.qualified_players pos_result) as [|w0 [|w1 ws]];
    simpl in *; [done | done | lia].
Qed.

Lemma auction_scarcity_fold_raise e items :
  foldl AuctionValues.scarcity_step (Raise e) items = Raise e.
Proof. induction items as [|p items IH]; simpl; done. Qed.

Lemma auction_scarcity_at_most league_war multipliers :
  AuctionValues._calculate_positional_scarcity league_war = Ok multipliers ->
  map_Forall (fun _ m => m <= 1.8) multipliers.
Proof.
  unfold AuctionValues._calculate_positional_scarcity.
  assert (map_Forall (fun (_ : string) m => m <= 1.8) (∅ : gmap string R)) as Hacc
    by apply map_Forall_empty.
  revert Hacc. generalize (∅ : gmap string R). revert multipliers.
  induction (LeagueWAR.position_results league_war) as [|item items IH];
    intros multipliers acc Hacc.
  - simpl. by intros [= <-].
  - cbn [foldl].
    change (AuctionValues.scarcity_step (Ok acc) item)
      with (m ← AuctionValues.position_scarcity (snd item);
            (Ok (<[fst item := m]> acc) : result (gmap string R))).
    destruct (AuctionValues.position_scarcity (snd item)) as [m|e] eqn:Hm.
    + simpl. apply IH. apply map_Forall_insert_2; [|done].
      by apply auction_position_scarcity_at_most in Hm.
    + simpl. by rewrite auction_scarcity_fold_raise.
Qed.

End ScarcityProps.

(** ** Auction values *)

Section RoundProps.

Lemma round_half_even_near x :
  x - 1 / 2 <= IZR (Py.round_half_even x) <= x + 1 / 2.
Proof.
  unfold Py.round_half_even. pose proof (Zfloor_bound x) as Hf.
  repeat case_decide; try destruct (Z.even _); rewrite ?plus_IZR; lra.
Qed.

Lemma round_half_even_IZR n : Py.round_half_even (IZR n) = n.
Proof.
  unfold Py.round_half_even. rewrite ZfloorZ.
  case_decide; [done | lra].
Qed.

Lemma round_half_even_lower n x : IZR n <= x -> (n <= Py.round_half_even x)%Z.
Proof.
  intros H. apply Zfloor_lub in H. unfold Py.round_half_even.
  repeat case_decide; try destruct (Z.even _); lia.
Qed.

Lemma round_half_even_mono x y :
  x <= y -> (Py.round_half_even x <= Py.round_half_even y)%Z.
Proof.
  intros Hxy.
  destruct (Z_le_gt_dec (Py.round_half_even x) (Py.round_half_even y))
    as [|Hgt]; [done|exfalso].
  pose proof (round_half_even_near x) as Hx.
  pose proof (round_half_even_near y) as Hy.
  assert (IZR (Py.round_half_even y) + 1 <= IZR (Py.round_half_even x)) as Hstep.
  { rewrite <- plus_IZR. apply IZR_le. lia. }
  assert (x = y) as -> by lra. lia.
Qed.

Lemma round_near x : x - 1 / 2 <= Py.round x <= x + 1 / 2.
Proof. apply round_half_even_near. Qed.

Lemma round_mono x y : x <= y -> Py.round x <= Py.round y.
Proof. intros. by apply IZR_le, round_half_even_mono. Qed.

Lemma round_lower n x : IZR n <= x -> IZR n <= Py.round x.
Proof. intros. by apply IZR_le, round_half_even_lower. Qed.

Lemma round_IZR n : Py.round (IZR n) = IZR n.
Proof. unfold Py.round. by rewrite round_half_even_IZR. Qed.

Lemma round_six_tenths : Py.round 0.6 = 1.
Proof.
  unfold Py.round, Py.round_half_even.
  rewrite (Zfloor_eq 0 0.6) by lra.
  repeat case_decide; try lra. done.
Qed.

End RoundProps.

Section AuctionProps.
Import AuctionValues.

(** The stored dollars of one auction value. *)
Lemma individual_auction_value_dollars self war_result base mult overall_rank all av :
  _calculate_individual_auction_value self war_result base mult overall_rank all
    = Ok (Some av) ->
  (1 <= total_budget self)%Z /\
  AuctionValue.auction_value_dollars av =
    Py.round
      (Py.min
         (Py.max (WARResult.wins_above_replacement war_result * base * mult
                  * _calculate_rank_multiplier overall_rank) 1)
         (IZR (total_budget self) * 0.6)).
Proof.
  unfold _calculate_individual_auction_value.
  case_decide; [done|].
  destruct (_is_sleeper_candidate _ _ _ _) as [sleeper|]; [|done]. simpl.
  destruct (_is_bust_risk _ _ _ _) as [bust|]; [|done]. simpl.
  unfold AuctionValue.new. case_decide as Hok; [|done]. simpl.
  intros [= <-]. simpl.
  destruct Hok as (_ & _ & _ & _ & _ & _ & _ & _ & Hbudget). simpl in Hbudget.
  split; [lia | done].
Qed.

(** The bounds that hold for the stored dollars. *)
Definition dollars_in_bounds (self : AuctionValueCalculator)
    (av : AuctionValue.t) : Prop :=
  1 <= AuctionValue.auction_value_dollars av /\
  AuctionValue.auction_value_dollars av
    <= Py.round (IZR (total_budget self) * 0.6) /\
  AuctionValue.auction_value_dollars av
    <= IZR (total_budget self) * 0.6 + 1 / 2 /\
  ((total_budget self mod 5 = 0)%Z ->
   AuctionValue.auction_value_dollars av <= IZR (total_budget self) * 0.6).

Lemma budget_multiple_of_5 b :
  (b mod 5 = 0)%Z -> IZR b * 0.6 = IZR (3 * (b / 5)).
Proof.
  intros Hb. rewrite (Z.div_mod b 5) at 1 by lia. rewrite Hb, Z.add_0_r.
  rewrite !mult_IZR. lra.
Qed.

Lemma individual_auction_value_bounds self war_result base mult overall_rank all av :
  _calculate_individual_auction_value self war_result base mult overall_rank all
    = Ok (Some av) ->
  dollars_in_bounds self av.
Proof.
  intros Hav. apply individual_auction_value_dollars in Hav as [Hb Hd].
  unfold dollars_in_bounds. rewrite Hd. clear Hd.
  set (v := Py.max _ 1).
  set (cap := IZR (total_budget self) * 0.6).
  assert (1 <= v) as Hv by (unfold v, Py.max; case_decide; lra).
  assert (0.6 <= cap) as Hcap by (apply IZR_le in Hb; unfold cap; lra).
  assert (0.6 <= Py.min v cap) as Hlow by (unfold Py.min; case_decide; lra).
  assert (Py.min v cap <= cap) as Hhigh by apply py_min_le_r.
  repeat split.
  - rewrite <- round_six_tenths. by apply round_mono.
  - by apply round_mono.
  - pose proof (round_near (Py.min v cap)). lra.
  - intros H5. eapply Rle_trans; [apply round_mono, Hhigh|].
    unfold cap. rewrite (budget_multiple_of_5 _ H5), round_IZR. lra.
Qed.

Lemma auction_step_bounds self base scarcity all acc item avs :
  auction_step self base scarcity all acc item = Ok avs ->
  (forall avs0, acc = Ok avs0 -> Forall (dollars_in_bounds self) avs0) ->
  Forall (dollars_in_bounds self) avs.
Proof.
  unfold auction_step. destruct acc as [avs0|]; [|done]. simpl.
  destruct item as [i war_result]. intros Hstep Hacc.
  specialize (Hacc avs0 eq_refl).
  case_decide; [by injection Hstep as <-|].
  destruct (_calculate_individual_auction_value _ _ _ _ _ _) as [[av|]|] eqn:Hav;
    simpl in Hstep; [| by injection Hstep as <- | done].
  injection Hstep as <-. apply Forall_app. split; [done|].
  constructor; [|done]. by eapply individual_auction_value_bounds.
Qed.

Lemma auction_fold_bounds self base scarcity all items acc avs :
  foldl (auction_step self base scarcity all) acc items = Ok avs ->
  (forall avs0, acc = Ok avs0 -> Forall (dollars_in_bounds self) avs0) ->
  Forall (dollars_in_bounds self) avs.
Proof.
  revert acc. induction items as [|item items IH]; intros acc Hfold Hacc; simpl in *.
  - by apply Hacc.
  - eapply IH; [exact Hfold|]. intros avs1 Hstep.
    by eapply auction_step_bounds.
Qed.

(** The bound that the code does keep: every [AuctionValue] produced by
    [calculate_league_auction_values] has [auction_value_dollars] at least 1
    and at most 0.6 x the per-team budget rounded to a whole dollar, so at
    most 0.6 x budget + 0.5; when the budget is a multiple of 5 (0.6 x budget
    is then a whole number) it is at most 0.6 x budget. *)
Theorem auction_value_dollars_bounds :
  forall (self : AuctionValueCalculator) (league_war : LeagueWAR.t)
         (auction_values : list AuctionValue.t) (av : AuctionValue.t),
    calculate_league_auction_values self league_war = Ok auction_values ->
    av ∈ auction_values ->
    1 <= AuctionValue.auction_value_dollars av /\
    AuctionValue.auction_value_dollars av
      <= Py.round (IZR (total_budget self) * 0.6) /\
    AuctionValue.auction_value_dollars av
      <= IZR (total_budget self) * 0.6 + 1 / 2 /\
    ((total_budget self mod 5 = 0)%Z ->
     AuctionValue.auction_value_dollars av <= IZR (total_budget self) * 0.6).
Proof.
  intros self league_war avs av Hrun Hav.
  unfold calculate_league_auction_values in Hrun.
  destruct (_calculate_positional_scarcity league_war) as [scarcity|]; [|done].
  simpl in Hrun.
  apply auction_fold_bounds in Hrun.
  - rewrite Forall_forall in Hrun. by apply Hrun.
  - intros avs0 [= <-]. constructor.
Qed.

End AuctionProps.

Section AuctionExamples.
Import AuctionValues.

(** A league analysis with a single position holding a single player. *)
Definition single_player_league (war_result : WARResult.t) : LeagueWAR.t :=
  {| LeagueWAR.season := WARResult.season war_result;
     LeagueWAR.league_name := "Fantasy Analytical League";
     LeagueWAR.total_teams := 16;
     LeagueWAR.weeks_analyzed := WARResult.weeks_analyzed war_result;
     LeagueWAR.positions_analyzed := [WARResult.position war_result];
     LeagueWAR.position_results :=
       [(WARResult.position war_result,
         {| PositionWAR.position := WARResult.position war_result;
            PositionWAR.season := WARResult.season war_result;
            PositionWAR.total_teams := 16;
            PositionWAR.starters_per_team := 1;
            PositionWAR.total_starter_spots := 16;
            PositionWAR.replacement_level_rank := 1;
            PositionWAR.replacement_player_id := None;
            PositionWAR.player_wars := [war_result] |})] |}.

Lemma single_player_scarcity war_result :
  exists multipliers,
    _calculate_positional_scarcity (single_player_league war_result)
      = Ok multipliers /\
    default 1 (multipliers !! WARResult.position war_result) = 1.
Proof.
  unfold _calculate_positional_scarcity, single_player_league. simpl.
  unfold scarcity_step. simpl.
  rewrite auction_position_scarcity_few_players.
  - simpl. eexists. split; [done|]. by rewrite lookup_insert_eq.
  - unfold PositionWAR.qualified_players. simpl.
    destruct (decide (WARResult.games_played war_result >= 1)%Z).
    + rewrite filter_cons_True, filter_nil by done. simpl. lia.
    + rewrite filter_cons_False, filter_nil by done. simpl. lia.
Qed.

(** The auction values of a single-player league: one value, whose dollars
    are the rounding of the capped product. *)
Lemma single_player_auction_values self war_result :
  WARResult.fields_ok war_result ->
  0 < WARResult.wins_above_replacement war_result ->
  (1 <= total_budget self)%Z ->
  (1 <= Leagues.teams (league_config self))%Z ->
  exists av,
    calculate_league_auction_values self (single_player_league war_result)
      = Ok [av] /\
    AuctionValue.auction_value_dollars av =
      Py.round
        (Py.min
           (Py.max (IZR (total_budget self * Leagues.teams (league_config self))
                    * 0.65 * 1.3) 1)
           (IZR (total_budget self) * 0.6)).
Proof.
  intros Hok Hwar Hbudget Hteams.
  unfold calculate_league_auction_values.
  destruct (single_player_scarcity war_result) as (multipliers & -> & Hmult).
  cbn [mbind result_bind].
  change (concat _) with [war_result].
  change (Frame.sort_desc WARResult.wins_above_replacement [war_result])
    with [war_result].
  change (Frame.with_row_count 0 [war_result]) with [(0%Z, war_result)].
  cbn [foldl]. unfold auction_step. cbn [mbind result_bind].
  destruct (decide (WARResult.wins_above_replacement war_result <= 0)); [lra|].
  rewrite Hmult.
  unfold _calculate_base_value_per_war.
  rewrite filter_cons_True by lra. rewrite filter_nil. simpl Py.sum.
  unfold total_league_budget.
  set (budget := total_budget self) in *.
  set (pool := IZR (budget * Leagues.teams (league_config self))).
  set (w := WARResult.wins_above_replacement war_result) in *.
  destruct (decide (w + 0 > 0)); [|lra].
  assert (0 < pool) as Hpool by (apply IZR_lt; nia).
  assert (w * (pool * 0.65 / (w + 0)) * 1
          * _calculate_rank_multiplier (0 + 1) = pool * 0.65 * 1.3) as Hprod.
  { unfold _calculate_rank_multiplier. case_decide; [|lia].
    field. lra. }
  unfold _calculate_individual_auction_value. fold w.
  destruct (decide (w <= 0)); [lra|].
  rewrite Hprod.
  unfold _is_sleeper_candidate, _is_bust_risk, Py.truediv, AuctionValue.new.
  fold budget.
  set (final := Py.min (Py.max (pool * 0.65 * 1.3) 1) (IZR budget * 0.6)).
  assert (0.6 <= final) as Hfinal.
  { unfold final, Py.min, Py.max. apply IZR_le in Hbudget.
    repeat case_decide; lra. }
  destruct (decide (final = 0)); [lra|]. cbn [mbind result_bind].
  match goal with |- context [decide (AuctionValue.fields_ok ?a)] =>
    destruct (decide (AuctionValue.fields_ok a)) as [Hav|Hav] end.
  - cbn [mbind result_bind]. eexists. split; [reflexivity|]. reflexivity.
  - exfalso. apply Hav. clear Hav.
    destruct Hok as (Hseason & Hpos & _).
    unfold AuctionValue.fields_ok. simpl.
    split; [done|]. split; [done|]. split; [lia|].
    split.
    { unfold _get_position_rank.
      rewrite filter_cons_True by done. rewrite filter_nil. simpl.
      case_decide; [simpl; lia | done]. }
    split.
    { apply Rle_trans with (IZR 0); [lra|]. apply round_lower. simpl. lra. }
    split.
    { apply Rlt_le, Rdiv_lt_0_compat; lra. }
    split; [lra|]. split; [|lia].
    unfold _calculate_draft_tier. repeat case_decide; lia.
Qed.

Lemma round_nearest n x :
  IZR n - 1 / 2 < x < IZR n + 1 / 2 -> Py.round x = IZR n.
Proof.
  intros Hx. unfold Py.round. f_equal.
  pose proof (round_half_even_near x) as Hr.
  assert (IZR (Py.round_half_even x) < IZR (n + 1)) as H1
    by (rewrite plus_IZR; lra).
  assert (IZR (n - 1) < IZR (Py.round_half_even x)) as H2
    by (rewrite minus_IZR; lra).
  apply lt_IZR in H1, H2. lia.
Qed.

Definition example_war_result : WARResult.t :=
  {| WARResult.player_id := "QB1";
     WARResult.season := 2023;
     WARResult.position := "QB";
     WARResult.player_name := Some "Quarterback One";
     WARResult.team := Some "KC";
     WARResult.games_played := 2;
     WARResult.weeks_analyzed := [1; 2]%Z;
     WARResult.total_fantasy_points := 40;
     WARResult.average_fantasy_points := 20;
     WARResult.win_percentage := 0.75;
     WARResult.expected_wins := 1.5;
     WARResult.replacement_win_percentage := 0.25;
     WARResult.replacement_expected_wins := 0.5;
     WARResult.wins_above_replacement := 1;
     WARResult.wins_above_average := 0.5;
     WARResult.team_average_score := 30;
     WARResult.team_score_std := 15 |}.

Lemma example_war_result_fields_ok : WARResult.fields_ok example_war_result.
Proof.
  unfold WARResult.fields_ok. simpl.
  repeat split; try lia; try lra. set_solver.
Qed.

(** The calculator of the default league with a per-team budget. *)
Definition calculator (budget : Z) : AuctionValueCalculator :=
  {| league_config := Leagues.fal_league; total_budget := budget |}.

Lemma auction_value_dollars_bounds_witness :
  exists auction_values av,
    calculate_league_auction_values (calculator 200)
      (single_player_league example_war_result) = Ok auction_values /\
    av ∈ auction_values /\
    1 <= AuctionValue.auction_value_dollars av /\
    AuctionValue.auction_value_dollars av <= Py.round (IZR 200 * 0.6) /\
    AuctionValue.auction_value_dollars av <= IZR 200 * 0.6 + 1 / 2 /\
    ((200 mod 5 = 0)%Z ->
     AuctionValue.auction_value_dollars av <= IZR 200 * 0.6).
Proof.
  destruct (single_player_auction_values (calculator 200) example_war_result)
    as (av & Hrun & _).
  - apply example_war_result_fields_ok.
  - simpl. lra.
  - simpl. lia.
  - simpl. lia.
  - exists [av], av.
    assert (av ∈ [av]) as Hin by (apply list_elem_of_singleton; reflexivity).
    split; [exact Hrun|]. split; [exact Hin|].
    exact (auction_value_dollars_bounds (calculator 200)
             (single_player_league example_war_result) [av] av Hrun Hin).
Defined.

(** C4: the stored dollars can exceed 60 percent of the per-team budget,
    because the value is rounded to a whole dollar after the cap is applied.
    With a per-team budget of 201 dollars the cap is 120.6, the capped value
    of the only player of the league is 120.6, and the stored
    [auction_value_dollars] is its rounding, 121, which is more than
    0.6 x 201. *)
Lemma auction_value_dollars_above_cap :
  exists auction_values av,
    calculate_league_auction_values (calculator 201)
      (single_player_league example_war_result) = Ok auction_values /\
    av ∈ auction_values /\
    AuctionValue.auction_value_dollars av = 121 /\
    0.6 * IZR 201 < AuctionValue.auction_value_dollars av.
Proof.
  destruct (single_player_auction_values (calculator 201) example_war_result)
    as (av & Hrun & Hdollars).
  - apply example_war_result_fields_ok.
  - simpl. lra.
  - simpl. lia.
  - simpl. lia.
  - exists [av], av. split; [exact Hrun|].
    split; [apply list_elem_of_singleton; reflexivity|].
    assert (AuctionValue.auction_value_dollars av = 121) as ->; [|split; lra].
    rewrite Hdollars. simpl total_budget. simpl Leagues.teams.
    change (201 * 16)%Z with 3216%Z.
    apply (round_nearest 121).
    unfold Py.min, Py.max. repeat case_decide; lra.
Qed.

End AuctionExamples.

(** ** The two kicking paths *)

Section KickingProps.
Import Binary64 Scoring FantasyPoints Processors.

(** After [_ensure_columns] a column with default 0 holds what
    [stats.get(name, 0)] returns. *)
Lemma col_ensured (row : gmap string float) name :
  required_cols !! name = Some (of_int 0) ->
  col (_ensure_columns row) name = Ok (get row name).
Proof.
  intros Hreq. unfold col, _ensure_columns, get.
  rewrite lookup_union, Hreq. by destruct (row !! name).
Qed.

(** Adding [-0.0] changes nothing. *)
Lemma add_negative_zero (x : float) : (x + S754_zero true)%b64 = x.
Proof. by destruct x as [[]|[]| |]. Qed.

(** Adding a zero of either sign changes nothing but a [-0.0]. *)
Lemma add_zero_r (x : float) s :
  x <> S754_zero true -> (x + S754_zero s)%b64 = x.
Proof. by destruct x as [[]|[]| |], s. Qed.

Lemma add_zero_l (x : float) :
  x <> S754_zero true -> (zero + x)%b64 = x.
Proof. by destruct x as [[]|[]| |]. Qed.

(** A product with a positive finite number has the sign of the other
    factor: it is no [-0.0] when that factor has its sign bit clear. *)
Lemma mul_positive_not_negative_zero (x : float) m e :
  sign_bit x = false -> (x * S754_finite false m e)%b64 <> S754_zero true.
Proof.
  destruct x as [s|s| |s mx ex]; simpl; intros Hs; subst; try done.
  unfold mul, SFmul, binary_round_aux. simpl xorb.
  destruct (shr_fexp _ _ _ _ _) as [mrs' e'].
  destruct (shr_fexp _ _ _ _ _) as [mrs'' e''].
  destruct (shr_m mrs''); [done| |done]. by case_match.
Qed.

(** The products of [0.0] with the coefficients. *)
Lemma mul_zero_3 : (zero * of_int 3)%b64 = zero.
Proof. reflexivity. Qed.
Lemma mul_zero_5 : (zero * of_int 5)%b64 = zero.
Proof. reflexivity. Qed.
Lemma mul_zero_6 : (zero * of_int 6)%b64 = zero.
Proof. reflexivity. Qed.
Lemma mul_zero_7 : (zero * of_int 7)%b64 = zero.
Proof. reflexivity. Qed.
Lemma mul_zero_fg_missed :
  (zero * fg_missed mppr_kicking)%b64 = S754_zero true.
Proof. reflexivity. Qed.
Lemma mul_zero_extra_points : (zero * extra_points mppr_kicking)%b64 = zero.
Proof. reflexivity. Qed.
Lemma mul_zero_extra_points_missed :
  (zero * extra_points_missed mppr_kicking)%b64 = S754_zero true.
Proof. reflexivity. Qed.
Lemma mul_zero_fumbles :
  (zero * fumbles_special_teams mppr_kicking)%b64 = S754_zero true.
Proof. reflexivity. Qed.

Lemma get_singleton key (n : float) : get {[ key := n ]} key = n.
Proof. unfold get. by rewrite lookup_singleton_eq. Qed.

Lemma get_singleton_ne key key' (n : float) :
  key <> key' -> get {[ key := n ]} key' = zero.
Proof. intros Hne. unfold get. by rewrite lookup_singleton_ne. Qed.

(** The two paths on a mapping without made 0-19 field goals and without
    fumbles. *)
Lemma kicking_points_agree (stats : gmap string float) :
  get stats "fumbles_special_teams" = zero ->
  get stats "fg_made_0_19" = zero ->
  kicking_points_of_row mppr_kicking stats
    = Ok (calculate_kicking_points mppr_kicking stats).
Proof.
  intros Hfumbles Hshort.
  unfold kicking_points_of_row, _calculate_kicking_points.
  rewrite !col_ensured by reflexivity. cbn [mbind result_bind].
  unfold calculate_kicking_points.
  rewrite Hfumbles, Hshort, mul_zero_fumbles, add_negative_zero.
  rewrite mul_zero_5, mul_zero_3. reflexivity.
Qed.

(** The two paths on a mapping with nothing but made 0-19 field goals. *)
Lemma kicking_points_short_field_goals (n : float) :
  sign_bit n = false ->
  calculate_kicking_points mppr_kicking {[ "fg_made_0_19" := n ]}
    = (n * of_int 5)%b64 /\
  kicking_points_of_row mppr_kicking {[ "fg_made_0_19" := n ]}
    = Ok (n * of_int 3)%b64.
Proof.
  intros Hn.
  pose proof (mul_positive_not_negative_zero n 5629499534213120 (-50) Hn)
    as H5.
  pose proof (mul_positive_not_negative_zero n 6755399441055744 (-51) Hn)
    as H3.
  change (S754_finite false 5629499534213120 (-50)) with (of_int 5) in H5.
  change (S754_finite false 6755399441055744 (-51)) with (of_int 3) in H3.
  split.
  - unfold calculate_kicking_points.
    rewrite get_singleton, !get_singleton_ne by done.
    rewrite mul_zero_5, mul_zero_6, mul_zero_7, mul_zero_fg_missed,
      mul_zero_extra_points, mul_zero_extra_points_missed, mul_zero_fumbles.
    rewrite add_zero_l by done. unfold zero.
    by rewrite !(add_zero_r (n * of_int 5)%b64) by done.
  - unfold kicking_points_of_row, _calculate_kicking_points.
    rewrite !col_ensured by reflexivity. cbn [mbind result_bind].
    rewrite get_singleton, !get_singleton_ne by done.
    rewrite mul_zero_5, mul_zero_6, mul_zero_7, mul_zero_fg_missed,
      mul_zero_extra_points, mul_zero_extra_points_missed.
    unfold zero. by rewrite !(add_zero_r (n * of_int 3)%b64) by done.
Qed.



(** The mapping with one made and one missed 0-19-yard field goal and one
    made extra point. *)
Definition short_field_goal_stats : gmap string float :=
  {[ "fg_made_0_19" := of_int 1; "fg_missed_0_19" := of_int 1;
     "pat_made" := of_int 1 ]}.


End KickingProps.

(** ** Week lists *)

Section ValidatorProps.
Import Validators.

(** Strings made of decimal digits only. *)
Fixpoint all_digits (s : string) : bool :=
  match s with
  | EmptyString => true
  | String c s' => bool_decide (is_Some (Ascii.is_nat c)) && all_digits s'
  end.

(** [has_char c s]: the character [c] occurs in [s]. *)
Fixpoint has_char (c : ascii) (s : string) : bool :=
  match s with
  | EmptyString => false
  | String d s' => bool_decide (d = c) || has_char c s'
  end.

Lemma prefix_empty s : String.prefix "" s = true.
Proof. by destruct s. Qed.

Lemma contains_char c s : contains (String c "") s = has_char c s.
Proof.
  induction s as [|d s IH]; [done|].
  cbn [contains has_char]. rewrite IH. f_equal.
  cbn [String.prefix]. rewrite prefix_empty.
  destruct (ascii_dec c d) as [->|Hne].
  - by rewrite bool_decide_eq_true_2.
  - rewrite bool_decide_eq_false_2; [done | congruence].
Qed.

Lemma has_char_app c s1 s2 :
  has_char c (s1 +:+ s2) = has_char c s1 || has_char c s2.
Proof.
  induction s1 as [|d s1 IH]; [done|].
  change (String d s1 +:+ s2) with (String d (s1 +:+ s2)).
  cbn [has_char]. rewrite IH. by rewrite orb_assoc.
Qed.

Lemma digit_not_special c :
  is_Some (Ascii.is_nat c) ->
  c <> "-"%char /\ c <> ","%char /\ c <> "+"%char /\ c <> "_"%char /\
  is_space c = false.
Proof.
  intros [d Hd]. revert Hd.
  destruct c as [[] [] [] [] [] [] [] []]; done.
Qed.

Lemma all_digits_no_char c s :
  all_digits s = true -> ~ is_Some (Ascii.is_nat c) -> has_char c s = false.
Proof.
  intros Hs Hc. induction s as [|d s IH]; [done|].
  cbn [all_digits has_char] in *. apply andb_true_iff in Hs as [Hd Hs].
  apply bool_decide_eq_true in Hd.
  rewrite IH by done. rewrite bool_decide_eq_false_2; [done|].
  by intros ->.
Qed.

Lemma split_once_dash s1 s2 :
  has_char "-" s1 = false ->
  split_once "-" (s1 +:+ String "-" s2) = [s1; s2].
Proof.
  induction s1 as [|d s1 IH]; intros Hs.
  - change ("" +:+ String "-" s2) with (String "-" s2). cbn [split_once].
    by rewrite decide_True.
  - change (String d s1 +:+ String "-" s2) with (String d (s1 +:+ String "-" s2)).
    cbn [has_char] in Hs. apply orb_false_iff in Hs as [Hd Hs].
    apply bool_decide_eq_false in Hd.
    cbn [split_once]. rewrite decide_False by done. by rewrite IH.
Qed.

Lemma lstrip_digits s : all_digits s = true -> lstrip s = s.
Proof.
  destruct s as [|c s]; [done|]. cbn [all_digits lstrip]. intros Hs.
  apply andb_true_iff in Hs as [Hc _]. apply bool_decide_eq_true in Hc.
  apply digit_not_special in Hc as (_ & _ & _ & _ & ->). done.
Qed.

Lemma rstrip_digits s : all_digits s = true -> rstrip s = s.
Proof.
  induction s as [|c s IH]; [done|]. cbn [all_digits rstrip]. intros Hs.
  apply andb_true_iff in Hs as [Hc Hs]. apply bool_decide_eq_true in Hc.
  rewrite IH by done.
  apply digit_not_special in Hc as (_ & _ & _ & _ & ->). by destruct s.
Qed.

Lemma strip_digits s : all_digits s = true -> strip s = s.
Proof.
  intros Hs. unfold strip. rewrite rstrip_digits by done. by apply lstrip_digits.
Qed.

Lemma is_int_space_is_space c : is_space c = false -> is_int_space c = false.
Proof. by destruct c as [[] [] [] [] [] [] [] []]. Qed.

Lemma int_lstrip_digits s : all_digits s = true -> int_lstrip s = s.
Proof.
  destruct s as [|c s]; [done|]. cbn [all_digits int_lstrip]. intros Hs.
  apply andb_true_iff in Hs as [Hc _]. apply bool_decide_eq_true in Hc.
  apply digit_not_special in Hc as (_ & _ & _ & _ & Hc).
  by rewrite (is_int_space_is_space _ Hc).
Qed.

Lemma int_rstrip_digits s : all_digits s = true -> int_rstrip s = s.
Proof.
  induction s as [|c s IH]; [done|]. cbn [all_digits int_rstrip]. intros Hs.
  apply andb_true_iff in Hs as [Hc Hs]. apply bool_decide_eq_true in Hc.
  rewrite IH by done.
  apply digit_not_special in Hc as (_ & _ & _ & _ & Hc).
  rewrite (is_int_space_is_space _ Hc). by destruct s.
Qed.

(** On a digit string [int] reads the digits; there is no sign to consume. *)
Lemma int_of_str_digits s :
  all_digits s = true -> int_of_str s = parse_digits s false 0.
Proof.
  intros Hs. unfold int_of_str.
  rewrite int_rstrip_digits, int_lstrip_digits by done.
  destruct s as [|c s]; [done|].
  cbn [all_digits] in Hs. apply andb_true_iff in Hs as [Hc _].
  apply bool_decide_eq_true in Hc.
  apply digit_not_special in Hc as (Hm & _ & Hp & _).
  destruct c as [[] [] [] [] [] [] [] []]; done.
Qed.

(** The decimal rendering of a natural number. *)
Lemma pretty_N_char_digit x :
  (x < 10)%N -> Ascii.is_nat (pretty_N_char x) = Some (N.to_nat x).
Proof.
  intros Hx.
  assert (x = 0 \/ x = 1 \/ x = 2 \/ x = 3 \/ x = 4 \/ x = 5 \/ x = 6 \/ x = 7
          \/ x = 8 \/ x = 9)%N as H by lia.
  repeat destruct H as [->|H]; try done. by subst.
Qed.

Lemma pretty_N_go_digits x s :
  all_digits s = true -> all_digits (pretty_N_go x s) = true.
Proof.
  revert s. induction (N.lt_wf_0 x) as [x _ IH]; intros s Hs.
  destruct (decide (x = 0)%N) as [->|Hx]; [by rewrite pretty_N_go_0|].
  rewrite pretty_N_go_step by lia. apply IH.
  - apply N.div_lt; lia.
  - cbn [all_digits]. rewrite Hs, andb_true_r. apply bool_decide_eq_true.
    rewrite pretty_N_char_digit; [done|]. apply N.mod_lt. lia.
Qed.

Lemma parse_pretty_N_go x s prev_digit :
  (0 < x)%N ->
  parse_digits (pretty_N_go x s) prev_digit 0
  = parse_digits s true (Z.of_N x).
Proof.
  revert s prev_digit. induction (N.lt_wf_0 x) as [x _ IH]; intros s pd Hx.
  rewrite pretty_N_go_step by done.
  assert (x `mod` 10 < 10)%N as Hmod by (apply N.mod_lt; lia).
  pose proof (N.div_mod x 10 ltac:(lia)) as Hdiv.
  destruct (decide (x `div` 10 = 0)%N) as [Hz|Hnz].
  - rewrite Hz, pretty_N_go_0. cbn [parse_digits].
    rewrite pretty_N_char_digit by done. f_equal. lia.
  - rewrite IH; [| apply N.div_lt; lia | lia].
    cbn [parse_digits]. rewrite pretty_N_char_digit by done. f_equal. lia.
Qed.

Lemma pretty_Z_nonneg z : (0 <= z)%Z -> pretty z = pretty (Z.to_N z).
Proof. intros Hz. destruct z; [done | done | lia]. Qed.

Lemma pretty_digits z : (0 <= z)%Z -> all_digits (pretty z) = true.
Proof.
  intros Hz. rewrite pretty_Z_nonneg by done.
  unfold pretty, pretty_N. case_decide; [done|].
  by apply pretty_N_go_digits.
Qed.

Lemma int_of_str_pretty z : (0 <= z)%Z -> int_of_str (pretty z) = Some z.
Proof.
  intros Hz. rewrite int_of_str_digits by (by apply pretty_digits).
  rewrite pretty_Z_nonneg by done.
  unfold pretty, pretty_N. case_decide as H0.
  - cbn. f_equal. lia.
  - rewrite parse_pretty_N_go by lia. cbn. f_equal. lia.
Qed.

Lemma validate_week_pretty z :
  (0 <= z)%Z ->
  validate_week (PyStr (pretty z)) =
    if decide (z < 1 \/ z > 18)%Z
    then Raise (ValueError
                  ("Week " +:+ pretty z +:+ " is invalid. Must be between 1 and 18."))
    else Ok z.
Proof.
  intros Hz. unfold validate_week. cbn [int]. by rewrite int_of_str_pretty.
Qed.

(** The range string "a-b" of two non-negative integers. *)
Definition range_string (a b : Z) : string := pretty a +:+ String "-" (pretty b).

Lemma range_string_is_range a b :
  (0 <= a)%Z -> (0 <= b)%Z ->
  contains "-" (range_string a b) && negb (contains "," (range_string a b)) = true.
Proof.
  intros Ha Hb. unfold range_string.
  rewrite !contains_char, !has_char_app. cbn [has_char].
  rewrite bool_decide_eq_true_2 by done.
  rewrite (all_digits_no_char "," (pretty a)), (all_digits_no_char "," (pretty b));
    try (by apply pretty_digits); try (by intros [? ?]).
  rewrite bool_decide_eq_false_2 by done. by rewrite orb_true_r.
Qed.

Lemma range_body_pretty a b :
  (0 <= a)%Z -> (0 <= b)%Z ->
  range_body (range_string a b) =
    start_week ← validate_week (PyStr (pretty a));
    end_week ← validate_week (PyStr (pretty b));
    if decide (start_week > end_week)%Z then
      Raise (ValueError
               ("Invalid week range: " +:+ range_string a b +:+
                ". Start week must be <= end week."))
    else Ok (seqZ start_week (end_week + 1 - start_week)).
Proof.
  intros Ha Hb. unfold range_body, range_string at 1.
  rewrite split_once_dash; [done|].
  apply all_digits_no_char; [by apply pretty_digits | by intros [? ?]].
Qed.

(** C10: ["1-5"] gives the weeks 1 to 5 and ["5-1"] raises [ValueError]; for
    every range string "a-b" of valid weeks [a <= b] the result is
    [a, a+1, ..., b], and every range string with [a > b] raises
    [ValueError] instead of returning a list. *)
Theorem validate_weeks_list_range :
  validate_weeks_list (WeeksStr "1-5") = Ok [1; 2; 3; 4; 5]%Z /\
  validate_weeks_list (WeeksStr "5-1")
    = Raise (ValueError
               "Invalid week range: 5-1. Start week must be <= end week.") /\
  (forall a b : Z,
      (1 <= a)%Z -> (a <= b)%Z -> (b <= 18)%Z ->
      validate_weeks_list (WeeksStr (range_string a b))
        = Ok (seqZ a (b - a + 1))) /\
  (forall a b : Z,
      (0 <= b)%Z -> (b < a)%Z ->
      exists msg,
        validate_weeks_list (WeeksStr (range_string a b))
          = Raise (ValueError msg)).
Proof.
  split; [reflexivity|]. split; [reflexivity|]. split.
  - intros a b Ha Hab Hb. unfold validate_weeks_list.
    rewrite range_string_is_range, range_body_pretty by lia.
    rewrite !validate_week_pretty by lia.
    rewrite decide_False by lia. cbn [mbind result_bind].
    rewrite decide_False by lia. cbn [mbind result_bind].
    rewrite decide_False by lia. do 2 f_equal. lia.
  - intros a b Hb Hab. unfold validate_weeks_list.
    rewrite range_string_is_range, range_body_pretty by lia.
    rewrite !validate_week_pretty by lia.
    destruct (decide (a < 1 \/ a > 18)%Z); cbn [mbind result_bind].
    { case_match; eauto. }
    destruct (decide (b < 1 \/ b > 18)%Z); cbn [mbind result_bind].
    { case_match; eauto. }
    rewrite decide_True by lia. case_match; eauto.
Qed.

Lemma validate_weeks_list_range_witness :
  validate_weeks_list (WeeksStr "3-17")
    = Ok [3; 4; 5; 6; 7; 8; 9; 10; 11; 12; 13; 14; 15; 16; 17]%Z /\
  exists msg, validate_weeks_list (WeeksStr "17-3") = Raise (ValueError msg).
Proof.
  destruct validate_weeks_list_range as (_ & _ & Hok & Hraise).
  split.
  - exact (Hok 3 17 ltac:(lia) ltac:(lia) ltac:(lia))%Z.
  - exact (Hraise 17 3 ltac:(lia) ltac:(lia))%Z.
Defined.

End ValidatorProps.

Section WinProbabilityToolsProps.
Import WinProbability WinProbabilityTools.

Lemma win_probability_mono score1 score2 mean std :
  score1 <= score2 ->
  calculate_win_probability score1 mean std <=
  calculate_win_probability score2 mean std.
Proof.
  intros Hs. rewrite !calculate_win_probability_unfold.
  pose proof (effective_std_pos std) as Hstd.
  apply Rle_max_compat_l, Rle_min_compat_l, std_norm_cdf_mono.
  apply Rmult_le_compat_r; [left; by apply Rinv_0_lt_compat | lra].
Qed.

(** X1: in the detailed win probability the expected margin is the team
    baseline plus the player's points over the position average, minus the
    opponent average; the win probability lies in [0, 1], is at least 0.5
    when the margin is not negative and at most 0.5 when it is not positive,
    and never decreases when the player's points grow; the z-score is the
    margin over the deviation when the deviation is positive and 0
    otherwise. *)
Theorem detailed_win_probability_follows_margin :
  forall player_fantasy_points position_average team_baseline_score
         opponent_average_score league_score_std : R,
    let d := calculate_win_probability_detailed player_fantasy_points
               position_average team_baseline_score opponent_average_score
               league_score_std in
    expected_margin d =
      team_baseline_score + (player_fantasy_points - position_average)
      - opponent_average_score /\
    0 <= win_probability d <= 1 /\
    (0 <= expected_margin d -> 1 / 2 <= win_probability d) /\
    (expected_margin d <= 0 -> win_probability d <= 1 / 2) /\
    (forall more_points,
       player_fantasy_points <= more_points ->
       win_probability d
         <= win_probability
              (calculate_win_probability_detailed more_points
                 position_average team_baseline_score opponent_average_score
                 league_score_std)) /\
    (league_score_std > 0 ->
     z_score d = expected_margin d / league_score_std) /\
    (league_score_std <= 0 -> z_score d = 0).
Proof.
  intros pfp pa base opp std d.
  set (score := calculate_team_expected_score pfp pa base).
  assert (expected_margin d = score - opp) as Hm by reflexivity.
  assert (win_probability d = calculate_win_probability score opp std) as Hw
    by reflexivity.
  assert (calculate_win_probability opp opp std = 1 / 2) as Hhalf
    by apply win_probability_at_mean.
  rewrite Hm, Hw. split_and!.
  - unfold score, calculate_team_expected_score. lra.
  - apply win_probability_in_unit.
  - apply win_probability_in_unit.
  - intros Hpos. rewrite <- Hhalf. apply win_probability_mono. lra.
  - intros Hneg. rewrite <- Hhalf. apply win_probability_mono. lra.
  - intros more Hmore. cbn [win_probability calculate_win_probability_detailed].
    apply win_probability_mono.
    unfold score, calculate_team_expected_score. lra.
  - intros Hstd. subst d. simpl. by rewrite decide_True.
  - intros Hstd. subst d. simpl. rewrite decide_False; [done | lra].
Qed.

(** X2: the strength-of-schedule factor is 1.0 for an empty list of
    opponent scores, always lies between 0.5 and 2.0, and is the plain ratio
    of the mean opponent score to the league average whenever that ratio is
    itself between 0.5 and 2.0. *)
Theorem strength_of_schedule_bounds :
  forall (opponent_scores : list R) (league_average_score : R),
    calculate_strength_of_schedule_adjustment [] league_average_score = 1 /\
    0.5 <= calculate_strength_of_schedule_adjustment opponent_scores
             league_average_score <= 2 /\
    (forall s rest ratio,
        opponent_scores = s :: rest ->
        league_average_score <> 0 ->
        ratio = Py.sum opponent_scores / INR (length opponent_scores)
                / league_average_score ->
        0.5 <= ratio <= 2 ->
        calculate_strength_of_schedule_adjustment opponent_scores
          league_average_score = ratio).
Proof.
  intros scores avg. split; [simpl; lra|]. split.
  - unfold calculate_strength_of_schedule_adjustment.
    destruct scores as [|s rest]; [lra|].
    repeat case_decide; try lra.
    rewrite py_max_spec, py_min_spec. unfold Rmax, Rmin.
    repeat destruct (Rle_dec _ _); lra.
  - intros s rest ratio -> Havg -> Hr.
    unfold calculate_strength_of_schedule_adjustment.
    destruct (decide (avg = 0)) as [|_]; [done|].
    rewrite py_max_spec, py_min_spec. unfold Rmax, Rmin.
    repeat destruct (Rle_dec _ _); lra.
Qed.

Lemma list_max_gt c xs x :
  AuctionValues.list_max x xs > c <-> exists y, y ∈ x :: xs /\ y > c.
Proof.
  unfold AuctionValues.list_max. revert x.
  induction xs as [|a xs IH]; intros x; simpl.
  - split.
    + intros H. exists x. split; [left | done].
    + intros (y & Hy & Hc). apply elem_of_cons in Hy as [Heq|Hy]; [by subst|].
      by apply elem_of_nil in Hy.
  - rewrite IH. unfold Py.max. split.
    + intros (y & Hy & Hc). apply elem_of_cons in Hy as [Heq|Hy].
      * subst y. case_decide.
        -- exists a. split; [right; left | done].
        -- exists x. split; [left | done].
      * exists y. split; [by do 2 right | done].
    + intros (y & Hy & Hc). apply elem_of_cons in Hy as [Heq|Hy].
      * subst y. case_decide.
        -- exists a. split; [left | lra].
        -- exists x. split; [left | done].
      * apply elem_of_cons in Hy as [Heq|Hy].
        -- subst y. case_decide.
           ++ exists a. split; [left | done].
           ++ exists x. split; [left | lra].
        -- exists y. split; [by right | done].
Qed.

Lemma roster_recommendation_spec war_values :
  let n := roster_recommendation war_values in
  (0 <= n <= 3)%Z /\
  (n = 0%Z <-> war_values = []) /\
  ((2 <= n)%Z <-> exists w, w ∈ war_values /\ w > 1) /\
  (n = 3%Z <-> exists w, w ∈ war_values /\ w > 2).
Proof.
  destruct war_values as [|w ws]; simpl.
  - repeat split; try lia; try done.
    + intros (w & Hw & _). by apply elem_of_nil in Hw.
    + intros (w & Hw & _). by apply elem_of_nil in Hw.
  - pose proof (list_max_gt 2 ws w) as H2.
    pose proof (list_max_gt 1 ws w) as H1.
    replace (2.0) with 2 by lra. replace (1.0) with 1 by lra.
    destruct (decide (AuctionValues.list_max w ws > 2)) as [Hgt2|Hle2].
    + assert (AuctionValues.list_max w ws > 1) as Hgt1 by lra.
      repeat split; try lia; try done; intros; tauto.
    + destruct (decide (AuctionValues.list_max w ws > 1)) as [Hgt1|Hle1].
      * repeat split; try lia; try done; intros; tauto.
      * repeat split; try lia; try done; intros; tauto.
Qed.

(** X3: the roster recommendation has exactly the positions of the input
    dictionary; each recommendation is between 0 and 3, is 0 exactly for an
    empty list of WAR values, at least 2 exactly when some WAR value exceeds
    1.0 and 3 exactly when some WAR value exceeds 2.0; the budget has no
    influence. *)
Theorem roster_construction_recommendations :
  forall (position_war_values : gmap string (list R))
         (budget_constraint other_budget : R) (position : string),
    estimate_optimal_roster_construction position_war_values budget_constraint =
    estimate_optimal_roster_construction position_war_values other_budget /\
    match position_war_values !! position with
    | None =>
        estimate_optimal_roster_construction position_war_values
          budget_constraint !! position = None
    | Some war_values =>
        exists n,
          estimate_optimal_roster_construction position_war_values
            budget_constraint !! position = Some n /\
          (0 <= n <= 3)%Z /\
          (n = 0%Z <-> war_values = []) /\
          ((2 <= n)%Z <-> exists w, w ∈ war_values /\ w > 1) /\
          (n = 3%Z <-> exists w, w ∈ war_values /\ w > 2)
    end.
Proof.
  intros m b b' pos. split; [reflexivity|].
  unfold estimate_optimal_roster_construction. rewrite lookup_fmap.
  destruct (m !! pos) as [ws|]; simpl; [|done].
  eexists. split; [done|]. apply roster_recommendation_spec.
Qed.

(** Every dictionary of the curve is computed from its own
    [fantasy_points]. *)
Definition curve_point_ok (ctx : TeamContext) (rwp : R) (p : CurvePoint) : Prop :=
  let wp := calculate_win_probability (fantasy_points p)
              (team_avg_score ctx) (team_score_std ctx) in
  WinProbability.win_probability p = wp /\
  expected_wins p = wp * 17 /\
  war p = wp * 17 - rwp * 17.

Lemma curve_fold_points ctx rwp pts curve :
  Forall (curve_point_ok ctx rwp) curve ->
  Forall (curve_point_ok ctx rwp) (foldl (curve_append ctx rwp) curve pts) /\
  fantasy_points <$> foldl (curve_append ctx rwp) curve pts =
    (fantasy_points <$> curve) ++ pts.
Proof.
  revert curve. induction pts as [|x pts IH]; intros curve Hc; simpl.
  - by rewrite app_nil_r.
  - destruct (IH (curve_append ctx rwp curve x)) as [Hok Hfp].
    + unfold curve_append. apply Forall_app. split; [done|].
      apply Forall_singleton. by repeat split.
    + split; [done|]. rewrite Hfp. unfold curve_append.
      rewrite fmap_app. simpl. by rewrite <- app_assoc.
Qed.

Lemma linspace_lookup start stop num pts i x :
  linspace start stop num = Ok pts -> pts !! i = Some x ->
  (i < Z.to_nat num)%nat /\
  x = (if decide (0 < INR (Z.to_nat num - 1))
       then start + INR i * ((stop - start) / INR (Z.to_nat num - 1))
       else start).
Proof.
  unfold linspace. case_decide; [done|]. intros [= <-].
  rewrite map_fmap, list_lookup_fmap.
  destruct (seq 0 (Z.to_nat num) !! i) as [k|] eqn:Hk; [|done].
  apply lookup_seq in Hk as [-> Hlt]. simpl. intros [= <-]. done.
Qed.

Lemma linspace_increasing start stop num pts i x y :
  start < stop ->
  linspace start stop num = Ok pts ->
  pts !! i = Some x -> pts !! S i = Some y ->
  x < y.
Proof.
  intros Hlt Hpts Hx Hy.
  destruct (linspace_lookup _ _ _ _ _ _ Hpts Hx) as [Hi ->].
  destruct (linspace_lookup _ _ _ _ _ _ Hpts Hy) as [HSi ->].
  assert (0 < INR (Z.to_nat num - 1)) as Hdiv by (apply lt_0_INR; lia).
  destruct (decide (0 < INR (Z.to_nat num - 1))) as [_|]; [|done].
  rewrite S_INR.
  assert (0 < (stop - start) / INR (Z.to_nat num - 1))
    by (apply Rdiv_lt_0_compat; lra).
  lra.
Qed.

Lemma linspace_in_range start stop num pts i x :
  start < stop ->
  linspace start stop num = Ok pts ->
  pts !! i = Some x ->
  start <= x <= stop.
Proof.
  intros Hlt Hpts Hx.
  destruct (linspace_lookup _ _ _ _ _ _ Hpts Hx) as [Hi ->].
  case_decide as Hdiv; [|lra].
  assert (0 <= INR i <= INR (Z.to_nat num - 1)) as Hb.
  { split; [apply pos_INR | apply le_INR; lia]. }
  set (d := INR (Z.to_nat num - 1)) in *.
  assert (INR i * ((stop - start) / d) = (stop - start) * (INR i / d)) as ->
    by (field; lra).
  assert (0 <= INR i / d <= 1) as Hq.
  { split.
    - apply Rmult_le_pos; [lra | left; by apply Rinv_0_lt_compat].
    - apply (Rmult_le_reg_r d); [done|]. unfold Rdiv.
      rewrite Rmult_assoc, Rinv_l by lra. lra. }
  nra.
Qed.

(** X4: along the value-over-replacement curve the fantasy points never
    decrease from one dictionary to the next and stay within the requested
    range, the WAR never decreases, so every [marginal_war] after the first
    is non-negative; in every dictionary the win probability is in [0, 1],
    the expected wins are 17 times the win probability and the WAR is
    between -17 and 17. *)
Theorem curve_war_nondecreasing :
  forall (min_points max_points replacement_level_points : R)
         (team_context : TeamContext) (num_points : Z)
         (curve : list CurvePoint),
    calculate_value_over_replacement_curve (min_points, max_points)
      replacement_level_points team_context num_points = Ok curve ->
    (forall p, p ∈ curve ->
       min_points <= fantasy_points p <= max_points /\
       0 <= WinProbability.win_probability p <= 1 /\
       expected_wins p = 17 * WinProbability.win_probability p /\
       -17 <= war p <= 17) /\
    (forall i p q, curve !! i = Some p -> curve !! S i = Some q ->
       fantasy_points p <= fantasy_points q /\
       war p <= war q /\
       0 <= marginal_war q).
Proof.
  intros lo hi repl ctx num curve.
  unfold calculate_value_over_replacement_curve.
  case_decide as Hrange.
  { intros [= <-]. split.
    - intros p Hp. by apply elem_of_nil in Hp.
    - intros i p q Hp. done. }
  assert (lo < hi) as Hlt by lra.
  destruct (linspace lo hi num) as [pts|e] eqn:Hpts; [|done].
  simpl. intros [= <-].
  set (rwp := calculate_win_probability repl (team_avg_score ctx)
                (team_score_std ctx)).
  destruct (curve_fold_points ctx rwp pts [] (Forall_nil_2 _)) as [Hok Hfp].
  simpl in Hfp.
  pose proof (curve_fold_chain ctx rwp pts [] I) as Hchain.
  set (curve := foldl (curve_append ctx rwp) [] pts) in *.
  assert (forall i p, curve !! i = Some p -> pts !! i = Some (fantasy_points p))
    as Hgrid.
  { intros i p Hp. rewrite <- Hfp, list_lookup_fmap, Hp. done. }
  pose proof (win_probability_in_unit repl (team_avg_score ctx)
                (team_score_std ctx)) as Hrepl. fold rwp in Hrepl.
  split.
  - intros p Hp.
    pose proof (proj1 (Forall_forall _ _) Hok p Hp) as (Hwp & Hew & Hwar).
    apply list_elem_of_lookup in Hp as [i Hi].
    pose proof (linspace_in_range _ _ _ _ _ _ Hlt Hpts (Hgrid i p Hi)) as Hfr.
    pose proof (win_probability_in_unit (fantasy_points p) (team_avg_score ctx)
                  (team_score_std ctx)) as Hu.
    rewrite Hwp, Hew, Hwar. repeat split; lra.
  - intros i p q Hp Hq.
    pose proof (linspace_increasing _ _ _ _ _ _ _ Hlt Hpts
                  (Hgrid _ _ Hp) (Hgrid _ _ Hq)) as Hinc.
    assert (p ∈ curve) as Hpin by (eapply list_elem_of_lookup_2; eauto).
    assert (q ∈ curve) as Hqin by (eapply list_elem_of_lookup_2; eauto).
    pose proof (proj1 (Forall_forall _ _) Hok p Hpin) as (_ & _ & Hwp).
    pose proof (proj1 (Forall_forall _ _) Hok q Hqin) as (_ & _ & Hwq).
    pose proof (win_probability_mono (fantasy_points p) (fantasy_points q)
                  (team_avg_score ctx) (team_score_std ctx) ltac:(lra)) as Hm.
    pose proof (marginal_chain_lookup _ _ _ _ _ Hchain Hp Hq) as Hmq.
    rewrite Hmq, Hwp, Hwq. repeat split; lra.
Qed.

(** The default 100 grid points over the range (0, 30). *)
Lemma curve_war_nondecreasing_witness :
  exists curve,
    calculate_value_over_replacement_curve (0, 30) 10
      {| team_avg_score := 15; team_score_std := 1 |} 100 = Ok curve /\
    (forall p, p ∈ curve ->
       0 <= fantasy_points p <= 30 /\
       0 <= WinProbability.win_probability p <= 1 /\
       expected_wins p = 17 * WinProbability.win_probability p /\
       -17 <= war p <= 17) /\
    (forall i p q, curve !! i = Some p -> curve !! S i = Some q ->
       fantasy_points p <= fantasy_points q /\
       war p <= war q /\
       0 <= marginal_war q).
Proof.
  destruct (curve_structure 0 30 10 {| team_avg_score := 15; team_score_std := 1 |}
              100 ltac:(lra) ltac:(lia)) as (curve & Hrun & _).
  exists curve. split; [exact Hrun|].
  exact (curve_war_nondecreasing 0 30 10
           {| team_avg_score := 15; team_score_std := 1 |} 100 curve Hrun).
Defined.

End WinProbabilityToolsProps.

(** ** war_engine.py: what [_calculate_player_war] keeps and drops *)

Section PlayerWarProps.
Import WinProbability WarEngine.

(** What a successful [WARResult(...)] copies from its arguments. *)
Lemma war_result_new_fields pid season pos name team g weeks tfp afp wp ew rwp rew war_ waa tas tss w :
  WARResult.new pid season pos name team g weeks tfp afp wp ew rwp rew war_ waa tas tss = Ok w ->
  WARResult.player_id w = pid /\
  WARResult.season w = season /\
  WARResult.position w = pos /\
  WARResult.wins_above_average w = waa /\
  WARResult.team_score_std w = tss /\
  WARResult.total_fantasy_points w = tfp.
Proof.
  unfold WARResult.new. destruct (WARResult.int_of_float g) as [z|] eqn:Hg; [|done].
  case_decide as Hok; [|done]. intros [= <-]. simpl. done.
Qed.

(** X5: every [WARResult] produced by [_calculate_player_war] is
    consistent: its WAR is its expected wins minus the replacement's expected
    wins, its expected wins are its win percentage times its games, and both
    its WAR and its wins above average lie between minus and plus its games
    played; the player id, season and position are those of the row. *)
Theorem player_war_within_games_played :
  forall (player_data : StatsRow.t) (replacement_info : Replacement.ReplacementInfo)
         (team_context : TeamContext) (weeks : list Z) (war_result : WARResult.t),
    _calculate_player_war player_data replacement_info team_context weeks
      = Some war_result ->
    let games := IZR (WARResult.games_played war_result) in
    WARResult.wins_above_replacement war_result =
      WARResult.expected_wins war_result
      - WARResult.replacement_expected_wins war_result /\
    WARResult.expected_wins war_result =
      WARResult.win_percentage war_result * games /\
    - games <= WARResult.wins_above_replacement war_result <= games /\
    - games <= WARResult.wins_above_average war_result <= games /\
    games = StatsRow.games_played player_data /\
    WARResult.player_id war_result = StatsRow.player_id player_data /\
    WARResult.season war_result = StatsRow.season player_data /\
    WARResult.position war_result = StatsRow.position player_data.
Proof.
  intros row info ctx weeks w. unfold _calculate_player_war.
  destruct (player_war_body row info ctx weeks) as [w'|] eqn:Hbody; [|done].
  intros [= ->]. unfold player_war_body in Hbody.
  pose proof (war_result_new_fields _ _ _ _ _ _ _ _ _ _ _ _ _ _ _ _ _ _ Hbody)
    as (Hpid & Hseason & Hpos & Hwaa & _).
  apply war_result_new_ok in Hbody as (Hok & Hg & Hwp & Hew & _ & Hrew & Hwar).
  destruct Hok as (_ & _ & [Hg0 _] & _).
  apply IZR_le in Hg0. simpl.
  rewrite Hwar, Hew, Hrew, Hwp, Hwaa, Hpid, Hseason, Hpos, <- Hg.
  pose proof (win_probability_in_unit (StatsRow.total_fantasy_points_mppr row)
                (team_avg_score ctx) (team_score_std ctx)).
  pose proof (win_probability_in_unit (Replacement.avg_fantasy_points info)
                (team_avg_score ctx) (team_score_std ctx)).
  pose proof (win_probability_in_unit
                (Replacement.asi_avg_fantasy_points
                   (Replacement.avg_starter_info info))
                (team_avg_score ctx) (team_score_std ctx)).
  repeat split; try done; nra.
Qed.

Lemma player_war_within_games_played_witness :
  exists war_result,
    _calculate_player_war example_quarterback example_replacement_info
      example_context [1; 2]%Z = Some war_result /\
    let games := IZR (WARResult.games_played war_result) in
    WARResult.wins_above_replacement war_result =
      WARResult.expected_wins war_result
      - WARResult.replacement_expected_wins war_result /\
    WARResult.expected_wins war_result =
      WARResult.win_percentage war_result * games /\
    - games <= WARResult.wins_above_replacement war_result <= games /\
    - games <= WARResult.wins_above_average war_result <= games /\
    games = StatsRow.games_played example_quarterback /\
    WARResult.player_id war_result = StatsRow.player_id example_quarterback /\
    WARResult.season war_result = StatsRow.season example_quarterback /\
    WARResult.position war_result = StatsRow.position example_quarterback.
Proof.
  destruct (player_war_returns example_quarterback example_replacement_info
              example_context [1; 2]%Z 2) as (w & Hw & _);
    [simpl; lia | set_solver | done | lia | simpl; lra |].
  exists w. split; [exact Hw|].
  exact (player_war_within_games_played _ _ _ _ _ Hw).
Defined.

(** X6: [_calculate_player_war] returns a result exactly when the row's
    games played are a whole number from 0 to 17, its season is in
    1920..2030, its position is one of the eleven codes and the team
    deviation is not negative; in every other case the validation error of
    the result record is swallowed and the player is dropped ([None]). *)
Theorem player_war_dropped_exactly_when_invalid :
  forall (player_data : StatsRow.t) (replacement_info : Replacement.ReplacementInfo)
         (team_context : TeamContext) (weeks : list Z),
    is_Some (_calculate_player_war player_data replacement_info team_context weeks)
    <->
    ((exists games : Z,
        StatsRow.games_played player_data = IZR games /\ (0 <= games <= 17)%Z) /\
     (1920 <= StatsRow.season player_data <= 2030)%Z /\
     StatsRow.position player_data ∈ Leagues.all_position_codes /\
     0 <= team_score_std team_context).
Proof.
  intros row info ctx weeks. split.
  - intros [w Hw]. unfold _calculate_player_war in Hw.
    destruct (player_war_body row info ctx weeks) as [w'|] eqn:Hbody; [|done].
    injection Hw as ->. unfold player_war_body in Hbody.
    pose proof (war_result_new_fields _ _ _ _ _ _ _ _ _ _ _ _ _ _ _ _ _ _ Hbody)
      as (_ & Hseason & Hpos & _ & Hstd & _).
    apply war_result_new_ok in Hbody as (Hok & Hg & _).
    destruct Hok as (Hs & Hp & Hgames & _ & _ & _ & _ & Hsd).
    rewrite Hseason in Hs. rewrite Hpos in Hp. rewrite Hstd in Hsd.
    split; [|done]. exists (WARResult.games_played w). done.
  - intros ((games & Hg & Hgames) & Hseason & Hpos & Hstd).
    destruct (player_war_returns row info ctx weeks games)
      as (w & Hw & _); [done..|].
    by exists w.
Qed.

(** X7: for two rows with the same games played, the one with more total
    fantasy points never gets less WAR against the same replacement level
    and team context. *)
Theorem player_war_monotone_in_total_points :
  forall (row1 row2 : StatsRow.t) (replacement_info : Replacement.ReplacementInfo)
         (team_context : TeamContext) (weeks : list Z) (war1 war2 : WARResult.t),
    StatsRow.games_played row1 = StatsRow.games_played row2 ->
    StatsRow.total_fantasy_points_mppr row1 <= StatsRow.total_fantasy_points_mppr row2 ->
    _calculate_player_war row1 replacement_info team_context weeks = Some war1 ->
    _calculate_player_war row2 replacement_info team_context weeks = Some war2 ->
    WARResult.wins_above_replacement war1 <= WARResult.wins_above_replacement war2 /\
    WARResult.wins_above_average war1 <= WARResult.wins_above_average war2.
Proof.
  intros row1 row2 info ctx weeks w1 w2 Hg Hpts.
  unfold _calculate_player_war.
  destruct (player_war_body row1 info ctx weeks) as [w1'|] eqn:Hb1; [|done].
  destruct (player_war_body row2 info ctx weeks) as [w2'|] eqn:Hb2; [|done].
  intros [= ->] [= ->]. unfold player_war_body in Hb1, Hb2.
  pose proof (war_result_new_fields _ _ _ _ _ _ _ _ _ _ _ _ _ _ _ _ _ _ Hb1)
    as (_ & _ & _ & Hwaa1 & _).
  pose proof (war_result_new_fields _ _ _ _ _ _ _ _ _ _ _ _ _ _ _ _ _ _ Hb2)
    as (_ & _ & _ & Hwaa2 & _).
  apply war_result_new_ok in Hb1 as (Hok & Hg1 & _ & _ & _ & _ & Hwar1).
  apply war_result_new_ok in Hb2 as (_ & _ & _ & _ & _ & _ & Hwar2).
  destruct Hok as (_ & _ & [Hg0 _] & _). apply IZR_le in Hg0.
  rewrite Hwar1, Hwar2, Hwaa1, Hwaa2, <- Hg.
  pose proof (win_probability_mono _ _ (team_avg_score ctx) (team_score_std ctx)
                Hpts).
  rewrite Hg1 in *. split; nra.
Qed.

Definition example_better_quarterback : StatsRow.t :=
  {| StatsRow.player_id := "QB2";
     StatsRow.season := 2023;
     StatsRow.position := "QB";
     StatsRow.games_played := 2;
     StatsRow.total_fantasy_points_mppr := 30;
     StatsRow.avg_fantasy_points_mppr := 15;
     StatsRow.player_name := Some "Quarterback Two";
     StatsRow.team := Some "BUF" |}.

Lemma player_war_monotone_in_total_points_witness :
  exists war1 war2,
    _calculate_player_war example_quarterback example_replacement_info
      example_context [1; 2]%Z = Some war1 /\
    _calculate_player_war example_better_quarterback example_replacement_info
      example_context [1; 2]%Z = Some war2 /\
    WARResult.wins_above_replacement war1 <= WARResult.wins_above_replacement war2 /\
    WARResult.wins_above_average war1 <= WARResult.wins_above_average war2.
Proof.
  destruct (player_war_returns example_quarterback example_replacement_info
              example_context [1; 2]%Z 2) as (w1 & Hw1 & _);
    [simpl; lia | set_solver | done | lia | simpl; lra |].
  destruct (player_war_returns example_better_quarterback example_replacement_info
              example_context [1; 2]%Z 2) as (w2 & Hw2 & _);
    [simpl; lia | set_solver | done | lia | simpl; lra |].
  exists w1, w2. split; [exact Hw1|]. split; [exact Hw2|].
  apply (player_war_monotone_in_total_points example_quarterback
           example_better_quarterback example_replacement_info example_context
           [1; 2]%Z w1 w2); [done | simpl; lra | exact Hw1 | exact Hw2].
Defined.

End PlayerWarProps.

(** ** replacement.py: when a replacement level exists, and the range of
    the scarcity multipliers *)

Section ReplacementLevelProps.
Import Leagues Replacement.

Lemma position_requirements_nonneg roster position :
  roster_fields_ok roster ->
  (0 <= fst (get_position_requirements roster position))%Z /\
  (0 <= snd (get_position_requirements roster position))%Z.
Proof.
  intros Hok. unfold get_position_requirements.
  destruct (position_map roster !! position) as [req|] eqn:Hreq; [|simpl; lia].
  simpl. unfold position_map in Hreq.
  apply elem_of_list_to_map_2 in Hreq.
  unfold roster_fields_ok in Hok. rewrite !Forall_cons in Hok.
  repeat (apply elem_of_cons in Hreq as [Heq|Hreq];
          [injection Heq as _ ->; simpl; lia|]).
  by apply elem_of_nil in Hreq.
Qed.

(** X8: with a valid league configuration [find_replacement_level] never
    raises, and it returns [None] exactly when the position has no starter
    slot (unknown position codes included) or no qualified player. *)
Theorem find_replacement_level_none_iff :
  forall (league_config : LeagueConfig) (stats_df : list StatsRow.t)
         (position : string),
    config_fields_ok league_config ->
    (exists r, find_replacement_level league_config stats_df position = Ok r) /\
    (find_replacement_level league_config stats_df position = Ok None <->
     snd (get_position_requirements (roster league_config) position) = 0%Z \/
     qualified league_config stats_df position = []).
Proof.
  intros cfg df pos Hcfg.
  pose proof Hcfg as (_ & _ & Hroster).
  pose proof (position_requirements_nonneg _ pos Hroster) as [_ Hmax].
  destruct (get_position_requirements (roster cfg) pos) as [min_req max_req] eqn:Hreq.
  simpl in Hmax |- *.
  destruct (decide (max_req = 0)%Z) as [Hz|Hnz].
  { assert (find_replacement_level cfg df pos = Ok None) as Hnone.
    { unfold find_replacement_level. rewrite Hreq. by case_decide. }
    rewrite Hnone. split; [eauto | ]. split; [by left | done]. }
  destruct (decide (qualified cfg df pos = [])) as [Hq|Hq].
  { assert (find_replacement_level cfg df pos = Ok None) as Hnone.
    { unfold find_replacement_level. rewrite Hreq.
      case_decide; [done|]. unfold position_players. rewrite Hq.
      change (Frame.with_row_count 1 (Frame.sort_desc _ []))
        with (@nil (Z * StatsRow.t)).
      unfold Frame.head. case_decide; rewrite take_nil; done. }
    rewrite Hnone. split; [eauto | ]. split; [by right | done]. }
  destruct (find_replacement_level_spec cfg df pos min_req max_req Hcfg Hreq
              ltac:(lia) Hq) as (info & row & Hrun & _).
  rewrite Hrun. split; [eauto|]. split; [done|]. intros [?|?]; done.
Qed.

Lemma find_replacement_level_none_iff_witness :
  (exists r, find_replacement_level fal_league [example_quarterback] "QB" = Ok r) /\
  (find_replacement_level fal_league [example_quarterback] "QB" = Ok None <->
   snd (get_position_requirements (roster fal_league) "QB") = 0%Z \/
   qualified fal_league [example_quarterback] "QB" = []).
Proof.
  apply (find_replacement_level_none_iff fal_league [example_quarterback] "QB").
  apply fal_league_fields_ok.
Defined.

Lemma sum_squares_nonneg (xs : list R) m :
  0 <= Py.sum (map (fun x => (x - m) * (x - m)) xs).
Proof.
  unfold Py.sum. induction xs as [|x xs IH]; simpl; [lra|].
  pose proof (Rle_0_sqr (x - m)) as Hsq. unfold Rsqr in Hsq. lra.
Qed.

Lemma frame_std_nonneg xs s : Frame.std xs = Some s -> 0 <= s.
Proof.
  unfold Frame.std. destruct (Py.mean xs) as [m|]; [|done].
  case_decide; [done|]. intros [= <-]. apply sqrt_pos.
Qed.

Lemma frame_std_is_Some xs :
  (2 <= length xs)%nat -> exists s, Frame.std xs = Some s.
Proof.
  intros Hlen. unfold Frame.std.
  destruct (mean_is_Some xs) as [m ->]; [intros ->; simpl in Hlen; lia|].
  case_decide; [lia | eauto].
Qed.

Lemma py_min_ge a b c : c <= a -> c <= b -> c <= Py.min a b.
Proof. intros. unfold Py.min. case_decide; lra. Qed.

(** The multiplier of a position that does not have exactly one qualified
    player. *)
Lemma replacement_position_scarcity_range league_config stats_df position :
  config_fields_ok league_config ->
  position ∈ get_all_positions league_config ->
  length (qualified league_config stats_df position) <> 1%nat ->
  exists m,
    position_scarcity league_config stats_df position = Ok m /\ 1 <= m <= 2.
Proof.
  intros Hcfg Hpos Hlen.
  pose proof (starter_pool_positive _ _ Hcfg Hpos) as Hpool.
  unfold position_scarcity.
  case_decide as Hempty; [exists 1; split; [done | lra]|].
  destruct (get_position_requirements _ _) as [min_req max_req]. simpl in Hpool.
  set (points := map StatsRow.total_fantasy_points_mppr
                   (qualified league_config stats_df position)).
  assert (length points = length (qualified league_config stats_df position))
    as Hpl by apply length_map.
  assert (2 <= length points)%nat as H2.
  { unfold Frame.len in Hempty. lia. }
  destruct (mean_is_Some points) as [mean Hmean_eq].
  { intros E. rewrite E in H2. simpl in H2. lia. }
  rewrite Hmean_eq.
  case_decide as Hc; [|exists 1; split; [done | lra]].
  destruct Hc as [Hmean _].
  destruct (frame_std_is_Some points H2) as [sd Hsd]. rewrite Hsd.
  apply frame_std_nonneg in Hsd. simpl. unfold Py.truediv.
  destruct (decide (mean = 0)) as [|_]; [lra|]. simpl.
  destruct (decide (IZR (teams league_config * max_req) = 0)) as [E|_].
  { apply eq_IZR in E. lia. }
  simpl. eexists. split; [done|].
  split; [|apply py_min_le_r].
  apply py_min_ge; [|lra].
  assert (0 < IZR (teams league_config * max_req)) as Hp by (apply IZR_lt; lia).
  assert (0 <= sd / mean).
  { apply Rmult_le_pos; [done | left; by apply Rinv_0_lt_compat]. }
  assert (0 < 100 / IZR (teams league_config * max_req)).
  { apply Rdiv_lt_0_compat; lra. }
  nra.
Qed.

(** The pure counterpart of the scarcity loop when no turn raises. *)
Lemma scarcity_fold_ok league_config stats_df (f : string -> R) positions acc :
  (forall p, p ∈ positions ->
     position_scarcity league_config stats_df p = Ok (f p)) ->
  foldl (scarcity_step league_config stats_df) (Ok acc) positions =
  Ok (foldl (fun a p => <[p := f p]> a) acc positions).
Proof.
  revert acc. induction positions as [|p positions IH]; intros acc Hall; [done|].
  cbn [foldl].
  change (scarcity_step league_config stats_df (Ok acc) p)
    with (m ← position_scarcity league_config stats_df p;
          (Ok (<[p := m]> acc) : result (gmap string R))).
  rewrite (Hall p) by (by left). simpl. apply IH.
  intros q Hq. apply Hall. by right.
Qed.

Lemma insert_fold_lookup (f : string -> R) positions (acc : gmap string R) k :
  foldl (fun a p => <[p := f p]> a) acc positions !! k =
  if decide (k ∈ positions) then Some (f k) else acc !! k.
Proof.
  revert acc. induction positions as [|p positions IH]; intros acc; cbn [foldl].
  - destruct (decide (k ∈ [])) as [Hin|_]; [by apply elem_of_nil in Hin | done].
  - rewrite IH.
    destruct (decide (k ∈ positions)) as [Hin|Hnin];
      destruct (decide (k ∈ p :: positions)) as [Hin'|Hnin']; try done.
    + exfalso. apply Hnin', elem_of_cons. by right.
    + apply elem_of_cons in Hin' as [->|?]; [|done]. by rewrite lookup_insert_eq.
    + rewrite lookup_insert_ne; [done|].
      intros ->. apply Hnin', elem_of_cons. by left.
Qed.

(** X9: when no position of the league has exactly one qualified player,
    [calculate_positional_scarcity] returns a dictionary whose keys are
    exactly the positions of the league, whose multipliers all lie between
    1.0 and 2.0, and which gives 1.0 to every position without a qualified
    player. *)
Theorem replacement_scarcity_multipliers_range :
  forall (league_config : LeagueConfig) (stats_df : list StatsRow.t),
    config_fields_ok league_config ->
    (forall position, position ∈ get_all_positions league_config ->
       length (qualified league_config stats_df position) <> 1%nat) ->
    exists multipliers,
      calculate_positional_scarcity league_config stats_df = Ok multipliers /\
      (forall position,
         is_Some (multipliers !! position) <->
         position ∈ get_all_positions league_config) /\
      (forall position m, multipliers !! position = Some m -> 1 <= m <= 2) /\
      (forall position,
         position ∈ get_all_positions league_config ->
         qualified league_config stats_df position = [] ->
         multipliers !! position = Some 1).
Proof.
  intros cfg df Hcfg Hlen.
  set (f := fun p => match position_scarcity cfg df p with
                     | Ok m => m
                     | Raise _ => 1
                     end).
  assert (forall p, p ∈ get_all_positions cfg ->
            position_scarcity cfg df p = Ok (f p) /\ 1 <= f p <= 2) as Hf.
  { intros p Hp.
    destruct (replacement_position_scarcity_range cfg df p Hcfg Hp (Hlen p Hp))
      as (m & Hm & Hrange).
    unfold f. rewrite Hm. done. }
  eexists. split.
  { unfold calculate_positional_scarcity.
    apply (scarcity_fold_ok cfg df f). intros p Hp. by apply Hf. }
  split; [|split].
  - intros pos. rewrite insert_fold_lookup. case_decide as Hin.
    + split; [done | eauto].
    + rewrite lookup_empty. split; [by intros [? ?] | done].
  - intros pos m. rewrite insert_fold_lookup. case_decide as Hin.
    + intros [= <-]. by apply Hf.
    + by rewrite lookup_empty.
  - intros pos Hpos Hq. rewrite insert_fold_lookup.
    rewrite decide_True by done. f_equal.
    unfold f. by rewrite (replacement_scarcity_no_players cfg df pos Hq).
Qed.

(** Two quarterbacks and no other player: no position of the league has
    exactly one qualified player. *)
Lemma two_quarterbacks_qualified position :
  length (qualified fal_league [example_quarterback; example_better_quarterback]
            position) <> 1%nat.
Proof.
  unfold qualified.
  destruct (decide (position = "QB")) as [->|Hne].
  - rewrite filter_all; [simpl; lia|].
    repeat constructor; simpl; lra.
  - rewrite filter_cons_False by (simpl; intros [? _]; congruence).
    rewrite filter_cons_False by (simpl; intros [? _]; congruence).
    simpl. lia.
Qed.

Lemma replacement_scarcity_multipliers_range_witness :
  exists multipliers,
    calculate_positional_scarcity fal_league
      [example_quarterback; example_better_quarterback] = Ok multipliers /\
    (forall position,
       is_Some (multipliers !! position) <->
       position ∈ get_all_positions fal_league) /\
    (forall position m, multipliers !! position = Some m -> 1 <= m <= 2) /\
    (forall position,
       position ∈ get_all_positions fal_league ->
       qualified fal_league [example_quarterback; example_better_quarterback]
         position = [] ->
       multipliers !! position = Some 1).
Proof.
  apply (replacement_scarcity_multipliers_range fal_league
           [example_quarterback; example_better_quarterback]).
  - apply fal_league_fields_ok.
  - intros position _. apply two_quarterbacks_qualified.
Defined.

End ReplacementLevelProps.

(** ** replacement.py: the flex replacement level; auction_values.py: the
    scarcity multipliers *)

Section FlexAndScarcityProps.
Import Leagues.

Lemma with_row_count_ranks {A} (offset : Z) (df : list A) p :
  p ∈ Frame.with_row_count offset df -> (offset <= fst p)%Z.
Proof.
  unfold Frame.with_row_count. intros Hp.
  apply elem_of_lookup_imap_1 in Hp as (i & row & -> & _). simpl. lia.
Qed.

(** X10: [find_flex_replacement_level] never returns a dictionary: on
    every input it either returns [None] or raises; it returns [None]
    whenever there is no flex-eligible player or no flex spot. *)
Theorem find_flex_replacement_level_none_or_raises :
  forall (league_config : LeagueConfig) (stats_df : list StatsRow.t)
         (flex_positions : list string) (flex_spots : Z),
    (Replacement.find_flex_replacement_level league_config stats_df
       flex_positions flex_spots = Ok None \/
     exists e,
       Replacement.find_flex_replacement_level league_config stats_df
         flex_positions flex_spots = Raise e) /\
    (Replacement.flex_eligible league_config stats_df flex_positions = [] \/
     (flex_spots <= 0)%Z ->
     Replacement.find_flex_replacement_level league_config stats_df
       flex_positions flex_spots = Ok None).
Proof.
  intros cfg df fps spots. unfold Replacement.find_flex_replacement_level.
  set (fe := Replacement.flex_eligible cfg df fps).
  set (rk := if decide (Frame.len fe < spots)%Z then Frame.len fe else spots).
  split.
  - destruct (filter (fun p : Z * StatsRow.t => fst p = rk) fe)
      as [|[k replacement_data] rest]; [by left|].
    right. destruct (Replacement.truediv_opt _ _) as [q|e]; simpl; eauto.
  - intros Hnone.
    assert (filter (fun p : Z * StatsRow.t => fst p = rk) fe = []) as ->; [|done].
    destruct Hnone as [Hempty|Hspots].
    + by rewrite Hempty.
    + assert (rk <= 0)%Z as Hrk.
      { unfold rk, Frame.len. case_decide; lia. }
      destruct (filter (fun p : Z * StatsRow.t => fst p = rk) fe)
        as [|p rest] eqn:Hf; [done|].
      assert (p ∈ filter (fun p : Z * StatsRow.t => fst p = rk) fe) as Hp
        by (rewrite Hf; left).
      apply list_elem_of_filter in Hp as [Heq Hp].
      apply with_row_count_ranks in Hp. lia.
Qed.

(** The multiplier of one position in the auction calculator always
    exists. *)
Lemma auction_position_scarcity_total pos_result :
  exists m,
    AuctionValues.position_scarcity pos_result = Ok m /\
    m <= 1.8 /\
    ((0 <= PositionWAR.total_starter_spots pos_result)%Z -> 1 <= m).
Proof.
  unfold AuctionValues.position_scarcity.
  destruct (PositionWAR.player_wars pos_result);
    [exists 1; split; [done | lra]|].
  destruct (map _ _) as [|w0 [|w1 ws]] eqn:Hmap;
    try (exists 1; split; [done | lra]).
  set (q := Frame.len (PositionWAR.qualified_players pos_result)).
  set (spots := PositionWAR.total_starter_spots pos_result).
  assert (exists depth,
            (if decide (q > 0)%Z
             then Py.truediv (IZR spots) (IZR (Z.max q spots))
             else Ok 1) = Ok depth /\
            ((0 <= spots)%Z -> 0 <= depth)) as (depth & -> & Hdepth).
  { case_decide as Hq; [|exists 1; split; [done | lra]].
    unfold Py.truediv.
    assert (0 < IZR (Z.max q spots)) as Hmax by (apply IZR_lt; lia).
    destruct (decide (IZR (Z.max q spots) = 0)); [lra|].
    eexists. split; [done|]. intros Hs.
    apply Rmult_le_pos; [by apply IZR_le | left; by apply Rinv_0_lt_compat]. }
  simpl. eexists. split; [done|]. split; [apply py_min_le_r|].
  intros Hs. specialize (Hdepth Hs). apply py_min_ge; [|lra].
  set (sd := Frame.np_std _).
  assert (0 <= sd) as Hsd by apply sqrt_pos.
  set (drop := if decide (AuctionValues.list_max w0 (w1 :: ws) > 0)
               then AuctionValues.list_max w0 (w1 :: ws) - 0 else 1).
  assert (0 < drop) as Hdrop by (unfold drop; case_decide; lra).
  assert (0 <= sd * drop) by nra.
  assert (0 <= sd * drop * depth) by nra.
  change (AuctionValues.list_max (Py.max w0 w1) ws)
    with (AuctionValues.list_max w0 (w1 :: ws)).
  fold drop. lra.
Qed.

Lemma auction_scarcity_fold_ok (f : PositionWAR.t -> R) items acc :
  (forall item, item ∈ items ->
     AuctionValues.position_scarcity (snd item) = Ok (f (snd item))) ->
  foldl AuctionValues.scarcity_step (Ok acc) items =
  Ok (foldl (fun a (item : string * PositionWAR.t) =>
               <[fst item := f (snd item)]> a) acc items).
Proof.
  revert acc. induction items as [|item items IH]; intros acc Hall; [done|].
  cbn [foldl].
  change (AuctionValues.scarcity_step (Ok acc) item)
    with (m ← AuctionValues.position_scarcity (snd item);
          (Ok (<[fst item := m]> acc) : result (gmap string R))).
  rewrite (Hall item) by (by left). simpl. apply IH.
  intros it Hit. apply Hall. by right.
Qed.

Lemma insert_fold_items (f : PositionWAR.t -> R)
    (items : list (string * PositionWAR.t)) (acc : gmap string R) k v :
  foldl (fun a (item : string * PositionWAR.t) =>
           <[fst item := f (snd item)]> a) acc items !! k = Some v ->
  (exists item, item ∈ items /\ fst item = k /\ v = f (snd item)) \/
  (acc !! k = Some v /\ k ∉ map fst items).
Proof.
  revert acc. induction items as [|item items IH]; intros acc; cbn [foldl].
  - intros Hk. right. split; [done|]. simpl. apply not_elem_of_nil.
  - intros Hk. apply IH in Hk as [(it & Hit & Hfst & Hv)|[Hk Hnin]].
    + left. exists it. split; [by right | done].
    + destruct (decide (fst item = k)) as [Heq|Hne].
      * left. exists item. split; [by left|]. split; [done|].
        rewrite <- Heq, lookup_insert_eq in Hk. by injection Hk as <-.
      * right. rewrite lookup_insert_ne in Hk by done. split; [done|].
        simpl. intros Hin. apply elem_of_cons in Hin as [?|?]; by auto.
Qed.

Lemma insert_fold_items_dom (f : PositionWAR.t -> R)
    (items : list (string * PositionWAR.t)) (acc : gmap string R) k :
  is_Some (foldl (fun a (item : string * PositionWAR.t) =>
                    <[fst item := f (snd item)]> a) acc items !! k) <->
  k ∈ map fst items \/ is_Some (acc !! k).
Proof.
  revert acc. induction items as [|item items IH]; intros acc; cbn [foldl].
  - simpl. split; [by right|]. intros [Hin|?]; [|done].
    by apply elem_of_nil in Hin.
  - rewrite IH. simpl. rewrite elem_of_cons.
    destruct (decide (fst item = k)) as [Heq|Hne].
    + rewrite <- Heq, lookup_insert_eq. split; [|by eauto].
      intros [?|_]; [by left; right | by left; left].
    + rewrite lookup_insert_ne by done. split.
      * intros [?|?]; [by left; right | by right].
      * intros [[?|?]|?]; [congruence | by left | by right].
Qed.

(** The dictionary of scarcity multipliers of the auction calculator. *)
Lemma auction_scarcity_spec :
  forall league_war : LeagueWAR.t,
    exists multipliers,
      AuctionValues._calculate_positional_scarcity league_war = Ok multipliers /\
      (forall position,
         is_Some (multipliers !! position) <->
         position ∈ map fst (LeagueWAR.position_results league_war)) /\
      (forall position m, multipliers !! position = Some m -> m <= 1.8) /\
      ((forall item, item ∈ LeagueWAR.position_results league_war ->
          (0 <= PositionWAR.total_starter_spots (snd item))%Z) ->
       forall position m, multipliers !! position = Some m -> 1 <= m).
Proof.
  intros lw.
  set (f := fun pr => match AuctionValues.position_scarcity pr with
                      | Ok m => m
                      | Raise _ => 1
                      end).
  assert (forall pr,
            AuctionValues.position_scarcity pr = Ok (f pr) /\
            f pr <= 1.8 /\
            ((0 <= PositionWAR.total_starter_spots pr)%Z -> 1 <= f pr)) as Hf.
  { intros pr. destruct (auction_position_scarcity_total pr) as (m & Hm & Hb).
    unfold f. rewrite Hm. done. }
  eexists. split.
  { unfold AuctionValues._calculate_positional_scarcity.
    apply (auction_scarcity_fold_ok f). intros item _. apply Hf. }
  split; [|split].
  - intros pos. rewrite insert_fold_items_dom, lookup_empty.
    split; [intros [?|[? ?]]; done | by left].
  - intros pos m Hm.
    apply insert_fold_items in Hm as [(item & _ & _ & ->)|[Hm _]].
    + apply Hf.
    + by rewrite lookup_empty in Hm.
  - intros Hspots pos m Hm.
    apply insert_fold_items in Hm as [(item & Hitem & _ & ->)|[Hm _]].
    + apply Hf, Hspots, Hitem.
    + by rewrite lookup_empty in Hm.
Qed.

(** X11: [_calculate_positional_scarcity] of the auction calculator never
    raises; the dictionary it returns has exactly the positions of
    [position_results] as keys, every multiplier is at most 1.8, and at
    least 1.0 when no position has a negative number of starter spots. *)
Theorem auction_scarcity_multipliers_range :
  forall league_war : LeagueWAR.t,
    exists multipliers,
      AuctionValues._calculate_positional_scarcity league_war = Ok multipliers /\
      (forall position,
         is_Some (multipliers !! position) <->
         position ∈ map fst (LeagueWAR.position_results league_war)) /\
      (forall position m, multipliers !! position = Some m -> m <= 1.8) /\
      ((forall item, item ∈ LeagueWAR.position_results league_war ->
          (0 <= PositionWAR.total_starter_spots (snd item))%Z) ->
       forall position m, multipliers !! position = Some m -> 1 <= m).
Proof. exact auction_scarcity_spec. Qed.

End FlexAndScarcityProps.

(** ** auction_values.py: the list of auction values *)

Section AuctionListProps.
Import AuctionValues.

(** The dollar value of a player before rounding: the product of WAR, base
    value, scarcity and rank multipliers, raised to the minimum of 1 and
    capped at 0.6 of the per-team budget. *)
Definition capped_value (self : AuctionValueCalculator) (war base mult : R)
    (overall_rank : Z) : R :=
  Py.min (Py.max (war * base * mult * _calculate_rank_multiplier overall_rank) 1)
         (IZR (total_budget self) * 0.6).

Lemma first_index_gt player_id players i k :
  first_index player_id players i = Some k -> (i < k)%Z.
Proof.
  revert i. induction players as [|p players IH]; intros i; simpl; [done|].
  case_decide.
  - intros [= <-]. lia.
  - intros Hk. apply IH in Hk. lia.
Qed.

Lemma get_position_rank_pos war_result all :
  (1 <= _get_position_rank war_result all)%Z.
Proof.
  unfold _get_position_rank.
  destruct (first_index _ _ _) as [k|] eqn:Hk; simpl.
  - apply first_index_gt in Hk. lia.
  - unfold Frame.len. lia.
Qed.

Lemma draft_tier_range self overall_rank auction_value :
  (1 <= _calculate_draft_tier self overall_rank auction_value <= 5)%Z.
Proof. unfold _calculate_draft_tier. repeat case_decide; lia. Qed.

Lemma rank_multiplier_range overall_rank :
  0.9 <= _calculate_rank_multiplier overall_rank <= 1.3.
Proof. unfold _calculate_rank_multiplier. repeat case_decide; lra. Qed.

Lemma rank_multiplier_antitone rank1 rank2 :
  (rank1 <= rank2)%Z ->
  _calculate_rank_multiplier rank2 <= _calculate_rank_multiplier rank1.
Proof.
  intros H. unfold _calculate_rank_multiplier.
  repeat case_decide; try lra; lia.
Qed.

Lemma base_value_nonneg self war_results :
  (0 <= total_league_budget self)%Z ->
  0 <= _calculate_base_value_per_war self war_results.
Proof.
  intros Hb. unfold _calculate_base_value_per_war.
  destruct (filter _ war_results); [lra|].
  case_decide as Htotal; [|lra].
  apply IZR_le in Hb.
  apply Rmult_le_pos; [lra | left; by apply Rinv_0_lt_compat].
Qed.

(** What a returned auction value holds. *)
Definition auction_value_of (self : AuctionValueCalculator)
    (war_result : WARResult.t) (base mult : R) (overall_rank : Z)
    (all : list WARResult.t) (av : AuctionValue.t) : Prop :=
  let final :=
    capped_value self (WARResult.wins_above_replacement war_result) base mult
      overall_rank in
  0 < WARResult.wins_above_replacement war_result /\
  AuctionValue.fields_ok av /\
  AuctionValue.player_id av = WARResult.player_id war_result /\
  AuctionValue.season av = WARResult.season war_result /\
  AuctionValue.position av = WARResult.position war_result /\
  AuctionValue.player_name av = WARResult.player_name war_result /\
  AuctionValue.wins_above_replacement av =
    WARResult.wins_above_replacement war_result /\
  AuctionValue.war_rank_overall av = overall_rank /\
  AuctionValue.war_rank_position av = _get_position_rank war_result all /\
  AuctionValue.value_per_war av = base /\
  AuctionValue.positional_scarcity_multiplier av = mult /\
  AuctionValue.league_budget_total av = total_budget self /\
  AuctionValue.auction_value_dollars av = Py.round final /\
  AuctionValue.value_over_replacement av = final - 1 /\
  AuctionValue.draft_tier av = _calculate_draft_tier self overall_rank final /\
  (AuctionValue.is_sleeper av = true -> final < IZR (total_budget self) * 0.1) /\
  (AuctionValue.is_bust_risk av = true ->
     (overall_rank <= 24)%Z /\ final >= IZR (total_budget self) * 0.15).

Lemma individual_auction_value_inv self war_result base mult overall_rank all av :
  _calculate_individual_auction_value self war_result base mult overall_rank all
    = Ok (Some av) ->
  auction_value_of self war_result base mult overall_rank all av.
Proof.
  unfold _calculate_individual_auction_value, auction_value_of, capped_value.
  case_decide as Hwar; [done|].
  set (final := Py.min _ _).
  unfold _is_sleeper_candidate, _is_bust_risk, Py.truediv.
  destruct (decide (final = 0)) as [|Hfinal]; [done|].
  cbn [mbind result_bind].
  unfold AuctionValue.new. case_decide as Hok; [|done].
  cbn [mbind result_bind]. intros [= <-]. simpl.
  split; [lra|]. split; [exact Hok|].
  split_and!; try done.
  - intros Hs. apply bool_decide_eq_true in Hs. lra.
  - intros Hb. apply bool_decide_eq_true in Hb. tauto.
Qed.

Lemma individual_auction_value_not_none self war_result base mult overall_rank all :
  0 < WARResult.wins_above_replacement war_result ->
  _calculate_individual_auction_value self war_result base mult overall_rank all
    <> Ok None.
Proof.
  intros Hwar. unfold _calculate_individual_auction_value.
  case_decide; [lra|].
  destruct (_is_sleeper_candidate _ _ _ _); [|done]. simpl.
  destruct (_is_bust_risk _ _ _ _); [|done]. simpl.
  destruct (AuctionValue.new _); done.
Qed.

Lemma capped_value_lower self war base mult overall_rank :
  (1 <= total_budget self)%Z -> 0.6 <= capped_value self war base mult overall_rank.
Proof.
  intros Hb. apply IZR_le in Hb. unfold capped_value, Py.min, Py.max.
  repeat case_decide; lra.
Qed.

(** A validated player with positive WAR always gets an auction value. *)
Lemma individual_auction_value_returns self war_result base mult overall_rank all :
  WARResult.fields_ok war_result ->
  0 < WARResult.wins_above_replacement war_result ->
  (1 <= total_budget self)%Z ->
  0 <= base -> 0 < mult -> (0 < overall_rank)%Z ->
  exists av,
    _calculate_individual_auction_value self war_result base mult overall_rank all
      = Ok (Some av).
Proof.
  intros (Hseason & Hpos & _) Hwar Hbudget Hbase Hmult Hrank.
  pose proof (capped_value_lower self (WARResult.wins_above_replacement war_result)
                base mult overall_rank Hbudget) as Hfinal.
  unfold capped_value in Hfinal.
  unfold _calculate_individual_auction_value.
  case_decide; [lra|].
  set (final := Py.min _ _) in *.
  unfold _is_sleeper_candidate, _is_bust_risk, Py.truediv.
  destruct (decide (final = 0)) as [|_]; [lra|].
  cbn [mbind result_bind].
  unfold AuctionValue.new. case_decide as Hok; [cbn [mbind result_bind]; eauto|].
  exfalso. apply Hok. unfold AuctionValue.fields_ok. simpl.
  pose proof (get_position_rank_pos war_result all).
  pose proof (draft_tier_range self overall_rank final).
  repeat split; try done; try lia; try lra.
  apply Rle_trans with (IZR 0); [lra|]. apply round_lower. simpl. lra.
Qed.

(** The loop over the ranked players: the values it appends are those of
    the players with positive WAR, in order. *)
Lemma auction_fold_inv self base scarcity all items acc avs :
  foldl (auction_step self base scarcity all) (Ok acc) items = Ok avs ->
  exists outs,
    avs = acc ++ outs /\
    Forall2 (fun av (item : Z * WARResult.t) =>
               _calculate_individual_auction_value self (snd item) base
                 (default 1 (scarcity !! WARResult.position (snd item)))
                 (fst item + 1)%Z all = Ok (Some av))
      outs
      (filter (fun item : Z * WARResult.t =>
                 WARResult.wins_above_replacement (snd item) > 0) items).
Proof.
  revert acc. induction items as [|[i w] items IH]; intros acc; cbn [foldl].
  - intros [= <-]. exists []. split; [by rewrite app_nil_r | constructor].
  - unfold auction_step at 2. cbn [mbind result_bind].
    destruct (decide (WARResult.wins_above_replacement w <= 0)) as [Hle|Hgt].
    + intros Hfold. apply IH in Hfold as (outs & -> & Hall).
      exists outs. split; [done|].
      rewrite filter_cons_False by (simpl; lra). done.
    + destruct (_calculate_individual_auction_value self w base _ _ all)
        as [[av|]|e] eqn:Hav; cbn [mbind result_bind].
      * intros Hfold. apply IH in Hfold as (outs & -> & Hall).
        exists (av :: outs). split; [by rewrite <- app_assoc|].
        rewrite filter_cons_True by (simpl; lra). by constructor.
      * exfalso. revert Hav. apply individual_auction_value_not_none. lra.
      * intros Hfold. exfalso. clear -Hfold.
        induction items as [|item items IH']; [done|]. cbn [foldl] in Hfold.
        by apply IH'.
Qed.

Lemma auction_fold_total self base (scarcity : gmap string R) all items acc :
  (1 <= total_budget self)%Z -> 0 <= base ->
  (forall position m, scarcity !! position = Some m -> 0 < m) ->
  Forall (fun item : Z * WARResult.t =>
            (0 <= fst item)%Z /\ WARResult.fields_ok (snd item)) items ->
  exists avs, foldl (auction_step self base scarcity all) (Ok acc) items = Ok avs.
Proof.
  intros Hbudget Hbase Hscarcity Hitems. revert acc.
  induction Hitems as [|[i w] items [Hi Hw] Hitems IH]; intros acc; cbn [foldl].
  - eauto.
  - unfold auction_step at 2. cbn [mbind result_bind].
    destruct (decide (WARResult.wins_above_replacement w <= 0)) as [Hle|Hgt];
      [apply IH|].
    destruct (individual_auction_value_returns self w base
                (default 1 (scarcity !! WARResult.position w)) (i + 1)%Z all)
      as [av ->]; try done; try lra; try (simpl in *; lia).
    + destruct (scarcity !! WARResult.position w) as [m|] eqn:Hm; simpl; [|lra].
      by eapply Hscarcity.
    + cbn [mbind result_bind]. apply IH.
Qed.

Lemma filter_none {A} (P : A -> Prop) `{forall x, Decision (P x)} (l : list A) :
  Forall (fun x => ~ P x) l -> filter P l = [].
Proof.
  induction 1 as [|x l Hx Hl IH]; [done|].
  by rewrite filter_cons_False.
Qed.

Lemma with_row_count_cons {A} offset (x : A) df :
  Frame.with_row_count offset (x :: df) =
  (offset, x) :: Frame.with_row_count (offset + 1) df.
Proof.
  unfold Frame.with_row_count. simpl. f_equal; [f_equal; lia|].
  apply imap_ext. intros i y _. simpl. f_equal. lia.
Qed.

(** In a frame sorted by decreasing key the rows with a positive key form a
    prefix, and numbering the rows commutes with selecting them. *)
Lemma sorted_desc_positive_prefix {A} (key : A -> R) offset (df : list A) :
  sorted_desc key df ->
  filter (fun x => key x > 0) df =
    take (length (filter (fun x => key x > 0) df)) df /\
  filter (fun p : Z * A => key (snd p) > 0) (Frame.with_row_count offset df) =
    Frame.with_row_count offset (filter (fun x => key x > 0) df).
Proof.
  unfold sorted_desc. intros Hsorted. revert offset.
  induction Hsorted as [|x df Hsorted IH Hx]; intros offset; [done|].
  rewrite with_row_count_cons.
  destruct (decide (key x > 0)) as [Hpos|Hneg].
  - rewrite !filter_cons_True by done. simpl.
    rewrite with_row_count_cons.
    destruct (IH (offset + 1)%Z) as [IH1 IH2]. split; by f_equal.
  - assert (Forall (fun y => ~ key y > 0) df) as Hnone.
    { eapply Forall_impl; [exact Hx|]. simpl. intros y Hy. lra. }
    rewrite !filter_cons_False by done.
    rewrite (filter_none _ df Hnone). split; [done|].
    apply filter_none. apply Forall_forall. intros p Hp.
    apply (list_elem_of_fmap_2 snd) in Hp. rewrite with_row_count_snd in Hp.
    rewrite Forall_forall in Hnone. by apply Hnone.
Qed.

Lemma with_row_count_lookup {A} offset (df : list A) k :
  Frame.with_row_count offset df !! k =
  (fun x => ((offset + Z.of_nat k)%Z, x)) <$> df !! k.
Proof. unfold Frame.with_row_count. by rewrite list_lookup_imap. Qed.

(** The WAR results of the league, best first. *)
Definition ranked_war_results (league_war : LeagueWAR.t) : list WARResult.t :=
  Frame.sort_desc WARResult.wins_above_replacement
    (concat (map (fun item => PositionWAR.player_wars (snd item))
                 (LeagueWAR.position_results league_war))).

(** The shape of every list of auction values. *)
Lemma league_auction_values_spec self league_war auction_values :
  calculate_league_auction_values self league_war = Ok auction_values ->
  exists scarcity,
    _calculate_positional_scarcity league_war = Ok scarcity /\
    length auction_values =
      length (filter (fun w => WARResult.wins_above_replacement w > 0)
                (ranked_war_results league_war)) /\
    forall k av,
      auction_values !! k = Some av ->
      exists war_result,
        ranked_war_results league_war !! k = Some war_result /\
        auction_value_of self war_result
          (_calculate_base_value_per_war self (ranked_war_results league_war))
          (default 1 (scarcity !! WARResult.position war_result))
          (Z.of_nat k + 1) (ranked_war_results league_war) av.
Proof.
  unfold calculate_league_auction_values. fold (ranked_war_results league_war).
  set (ranked := ranked_war_results league_war).
  destruct (_calculate_positional_scarcity league_war) as [scarcity|]; [|done].
  cbn [mbind result_bind]. intros Hfold.
  apply auction_fold_inv in Hfold as (outs & -> & Hall). simpl.
  assert (sorted_desc WARResult.wins_above_replacement ranked) as Hsorted
    by apply sort_desc_sorted.
  destruct (sorted_desc_positive_prefix WARResult.wins_above_replacement 0
              ranked Hsorted) as [Hprefix Hcount].
  rewrite Hcount in Hall.
  exists scarcity. split; [done|]. split.
  - apply Forall2_length in Hall. by rewrite with_row_count_length in Hall.
  - intros k av Hav.
    destruct (Forall2_lookup_l _ _ _ _ _ Hall Hav) as ([i w] & Hitem & Hrun).
    rewrite with_row_count_lookup in Hitem.
    destruct (filter _ ranked !! k) as [w'|] eqn:Hw; [|done].
    injection Hitem as <- <-.
    rewrite Hprefix in Hw. apply lookup_take_Some in Hw as [Hw _].
    exists w'. split; [done|].
    apply individual_auction_value_inv in Hrun. simpl in Hrun.
    by rewrite Z.add_0_l in Hrun.
Qed.


(** X12: in every list returned by [calculate_league_auction_values] there
    is exactly one auction value per player with positive WAR, and no other;
    the value at index [k] belongs to the player at index [k] of the league's
    WAR ranking (all positions together, best first) and carries the overall
    rank [k + 1], the player's id, season, position and WAR. *)
Theorem league_auction_values_ranked :
  forall (self : AuctionValueCalculator) (league_war : LeagueWAR.t)
         (auction_values : list AuctionValue.t),
    calculate_league_auction_values self league_war = Ok auction_values ->
    length auction_values =
      length (filter (fun w => WARResult.wins_above_replacement w > 0)
                (concat (map (fun item => PositionWAR.player_wars (snd item))
                             (LeagueWAR.position_results league_war)))) /\
    forall k av,
      auction_values !! k = Some av ->
      exists war_result,
        ranked_war_results league_war !! k = Some war_result /\
        AuctionValue.war_rank_overall av = (Z.of_nat k + 1)%Z /\
        AuctionValue.player_id av = WARResult.player_id war_result /\
        AuctionValue.season av = WARResult.season war_result /\
        AuctionValue.position av = WARResult.position war_result /\
        AuctionValue.wins_above_replacement av =
          WARResult.wins_above_replacement war_result /\
        0 < AuctionValue.wins_above_replacement av.
Proof.
  intros self lw avs Hrun.
  apply league_auction_values_spec in Hrun as (scarcity & _ & Hlen & Hk).
  split.
  - rewrite Hlen. apply Permutation_length.
    unfold ranked_war_results. by rewrite sort_desc_perm.
  - intros k av Hav. destruct (Hk k av Hav) as (w & Hw & Hof).
    exists w. split; [done|].
    destruct Hof as (Hpos & _ & Hid & Hseason & Hposn & _ & Hwar & Hrank & _).
    rewrite Hwar. done.
Qed.

Lemma league_auction_values_ranked_witness :
  exists auction_values,
    calculate_league_auction_values (calculator 200)
      (single_player_league example_war_result) = Ok auction_values /\
    length auction_values =
      length (filter (fun w => WARResult.wins_above_replacement w > 0)
                (concat (map (fun item => PositionWAR.player_wars (snd item))
                             (LeagueWAR.position_results
                                (single_player_league example_war_result))))) /\
    forall k av,
      auction_values !! k = Some av ->
      exists war_result,
        ranked_war_results (single_player_league example_war_result) !! k
          = Some war_result /\
        AuctionValue.war_rank_overall av = (Z.of_nat k + 1)%Z /\
        AuctionValue.player_id av = WARResult.player_id war_result /\
        AuctionValue.season av = WARResult.season war_result /\
        AuctionValue.position av = WARResult.position war_result /\
        AuctionValue.wins_above_replacement av =
          WARResult.wins_above_replacement war_result /\
        0 < AuctionValue.wins_above_replacement av.
Proof.
  destruct (single_player_auction_values (calculator 200) example_war_result)
    as (av & Hrun & _).
  - apply example_war_result_fields_ok.
  - simpl. lra.
  - simpl. lia.
  - simpl. lia.
  - exists [av]. split; [exact Hrun|].
    exact (league_auction_values_ranked (calculator 200)
             (single_player_league example_war_result) [av] Hrun).
Defined.

Lemma elem_of_concat {A} (x : A) (ls : list (list A)) :
  x ∈ concat ls -> exists l, x ∈ l /\ l ∈ ls.
Proof.
  induction ls as [|l ls IH]; simpl.
  - intros Hx. by apply elem_of_nil in Hx.
  - intros Hx. apply elem_of_app in Hx as [Hx|Hx].
    + exists l. split; [done | by left].
    + destruct (IH Hx) as (l' & Hl' & Hin). exists l'. split; [done | by right].
Qed.

(** On validated input the auction values of a league are returned. *)
Lemma league_auction_values_total :
  forall (self : AuctionValueCalculator) (league_war : LeagueWAR.t),
    (1 <= total_budget self)%Z ->
    (0 <= Leagues.teams (league_config self))%Z ->
    (forall item, item ∈ LeagueWAR.position_results league_war ->
       (0 <= PositionWAR.total_starter_spots (snd item))%Z /\
       Forall WARResult.fields_ok (PositionWAR.player_wars (snd item))) ->
    exists auction_values,
      calculate_league_auction_values self league_war = Ok auction_values.
Proof.
  intros self lw Hbudget Hteams Hitems.
  unfold calculate_league_auction_values. fold (ranked_war_results lw).
  destruct (auction_scarcity_spec lw) as (scarcity & -> & _ & _ & Hlow).
  cbn [mbind result_bind].
  apply auction_fold_total; [done | | |].
  - apply base_value_nonneg. unfold total_league_budget. nia.
  - intros pos m Hm.
    assert (1 <= m); [|lra].
    eapply Hlow; [|exact Hm]. intros item Hitem. by apply Hitems.
  - apply Forall_forall. intros [i w] Hin. simpl. split.
    + by apply with_row_count_ranks in Hin.
    + apply (list_elem_of_fmap_2 snd) in Hin.
      rewrite with_row_count_snd in Hin. simpl in Hin.
      unfold ranked_war_results in Hin. rewrite sort_desc_perm in Hin.
      apply elem_of_concat in Hin as (wars & Hw & Hwars).
      rewrite map_fmap in Hwars.
      apply list_elem_of_fmap in Hwars as (item & -> & Hitem).
      destruct (Hitems item Hitem) as [_ Hall].
      rewrite Forall_forall in Hall. by apply Hall.
Qed.

(** X13: [calculate_league_auction_values] never raises on validated
    input: with a per-team budget of at least 1 dollar, a non-negative
    number of teams, no negative number of starter spots and WAR results
    that satisfy the constraints of their record, it returns a list. *)
Theorem league_auction_values_returns :
  forall (self : AuctionValueCalculator) (league_war : LeagueWAR.t),
    (1 <= total_budget self)%Z ->
    (0 <= Leagues.teams (league_config self))%Z ->
    (forall item, item ∈ LeagueWAR.position_results league_war ->
       (0 <= PositionWAR.total_starter_spots (snd item))%Z /\
       Forall WARResult.fields_ok (PositionWAR.player_wars (snd item))) ->
    exists auction_values,
      calculate_league_auction_values self league_war = Ok auction_values.
Proof.
  intros self lw Hbudget Hteams Hitems.
  unfold calculate_league_auction_values. fold (ranked_war_results lw).
  destruct (auction_scarcity_spec lw) as (scarcity & -> & _ & _ & Hlow).
  cbn [mbind result_bind].
  apply auction_fold_total; [done | | |].
  - apply base_value_nonneg. unfold total_league_budget. nia.
  - intros pos m Hm.
    assert (1 <= m); [|lra].
    eapply Hlow; [|exact Hm]. intros item Hitem. by apply Hitems.
  - apply Forall_forall. intros [i w] Hin. simpl. split.
    + by apply with_row_count_ranks in Hin.
    + apply (list_elem_of_fmap_2 snd) in Hin.
      rewrite with_row_count_snd in Hin. simpl in Hin.
      unfold ranked_war_results in Hin. rewrite sort_desc_perm in Hin.
      apply elem_of_concat in Hin as (wars & Hw & Hwars).
      rewrite map_fmap in Hwars.
      apply list_elem_of_fmap in Hwars as (item & -> & Hitem).
      destruct (Hitems item Hitem) as [_ Hall].
      rewrite Forall_forall in Hall. by apply Hall.
Qed.

Lemma league_auction_values_returns_witness :
  exists auction_values,
    calculate_league_auction_values (calculator 200)
      (single_player_league example_war_result) = Ok auction_values.
Proof.
  apply (league_auction_values_returns (calculator 200)
           (single_player_league example_war_result)).
  - simpl. lia.
  - simpl. lia.
  - intros item Hitem. apply list_elem_of_singleton in Hitem as ->. simpl.
    split; [lia|].
    constructor; [apply example_war_result_fields_ok | constructor].
Defined.

(** X14: every returned auction value satisfies the constraints of its
    record, has a draft tier from 1 to 5, is never flagged both as sleeper
    and as bust risk, is flagged as bust risk only within the first 24
    overall ranks and is in tier 1 only within the first 12; all values of
    one list share the same dollars per WAR and carry the calculator's
    per-team budget, which is then at least 1. *)
Theorem auction_value_flags_and_tier :
  forall (self : AuctionValueCalculator) (league_war : LeagueWAR.t)
         (auction_values : list AuctionValue.t) (av : AuctionValue.t),
    calculate_league_auction_values self league_war = Ok auction_values ->
    av ∈ auction_values ->
    AuctionValue.fields_ok av /\
    (1 <= AuctionValue.draft_tier av <= 5)%Z /\
    (AuctionValue.is_sleeper av && AuctionValue.is_bust_risk av = false) /\
    (AuctionValue.is_bust_risk av = true ->
       (AuctionValue.war_rank_overall av <= 24)%Z) /\
    (AuctionValue.draft_tier av = 1%Z ->
       (AuctionValue.war_rank_overall av <= 12)%Z) /\
    AuctionValue.value_per_war av =
      _calculate_base_value_per_war self (ranked_war_results league_war) /\
    AuctionValue.league_budget_total av = total_budget self /\
    (1 <= total_budget self)%Z.
Proof.
  intros self lw avs av Hrun Hav.
  apply league_auction_values_spec in Hrun as (scarcity & _ & _ & Hk).
  apply list_elem_of_lookup in Hav as [k Hav].
  destruct (Hk k av Hav) as (w & _ & Hof).
  destruct Hof as (_ & Hok & _ & _ & _ & _ & _ & Hrank & _ & Hbase & _ & Hbudget
                   & _ & _ & Htier & Hsleeper & Hbust).
  pose proof Hok as (_ & _ & _ & _ & _ & _ & _ & _ & Hb).
  rewrite Hbudget in Hb.
  split; [done|]. split; [rewrite Htier; apply draft_tier_range|].
  split.
  { destruct (AuctionValue.is_sleeper av); [|done].
    destruct (AuctionValue.is_bust_risk av); [|done].
    specialize (Hsleeper eq_refl). destruct (Hbust eq_refl) as [_ Hge].
    assert (0 < IZR (total_budget self)) by (apply IZR_lt; lia). lra. }
  split; [intros Hb'; rewrite Hrank; by apply Hbust|].
  split.
  { rewrite Htier, Hrank. unfold _calculate_draft_tier.
    repeat case_decide; try done; tauto. }
  split; [done|]. split; [done | lia].
Qed.

Lemma auction_value_flags_and_tier_witness :
  exists auction_values av,
    calculate_league_auction_values (calculator 200)
      (single_player_league example_war_result) = Ok auction_values /\
    av ∈ auction_values /\
    AuctionValue.fields_ok av /\
    (1 <= AuctionValue.draft_tier av <= 5)%Z /\
    (AuctionValue.is_sleeper av && AuctionValue.is_bust_risk av = false) /\
    (AuctionValue.is_bust_risk av = true ->
       (AuctionValue.war_rank_overall av <= 24)%Z) /\
    (AuctionValue.draft_tier av = 1%Z ->
       (AuctionValue.war_rank_overall av <= 12)%Z) /\
    AuctionValue.value_per_war av =
      _calculate_base_value_per_war (calculator 200)
        (ranked_war_results (single_player_league example_war_result)) /\
    AuctionValue.league_budget_total av = total_budget (calculator 200) /\
    (1 <= total_budget (calculator 200))%Z.
Proof.
  destruct (single_player_auction_values (calculator 200) example_war_result)
    as (av & Hrun & _).
  - apply example_war_result_fields_ok.
  - simpl. lra.
  - simpl. lia.
  - simpl. lia.
  - exists [av], av.
    assert (av ∈ [av]) as Hin by (apply list_elem_of_singleton; reflexivity).
    split; [exact Hrun|]. split; [exact Hin|].
    exact (auction_value_flags_and_tier (calculator 200)
             (single_player_league example_war_result) [av] av Hrun Hin).
Defined.

Lemma sorted_desc_lookup {A} (key : A -> R) (df : list A) k l x y :
  sorted_desc key df -> (k <= l)%nat ->
  df !! k = Some x -> df !! l = Some y -> key y <= key x.
Proof.
  unfold sorted_desc. intros Hsorted. revert k l.
  induction Hsorted as [|z df Hsorted IH Hz]; intros k l Hkl Hx Hy; [done|].
  destruct k as [|k], l as [|l]; simpl in *; try lia.
  - simplify_eq. lra.
  - simplify_eq. rewrite Forall_forall in Hz. apply Hz.
    by eapply list_elem_of_lookup_2.
  - eapply (IH k l); [lia | done | done].
Qed.

Lemma capped_value_mono self war1 war2 base mult rank1 rank2 :
  0 <= base -> 0 <= mult -> 0 <= war1 <= war2 -> (rank2 <= rank1)%Z ->
  capped_value self war1 base mult rank1 <= capped_value self war2 base mult rank2.
Proof.
  intros Hbase Hmult Hwar Hrank. unfold capped_value.
  pose proof (rank_multiplier_antitone _ _ Hrank) as Hrm.
  pose proof (rank_multiplier_range rank1) as Hr1.
  assert (war1 * base * mult * _calculate_rank_multiplier rank1 <=
          war2 * base * mult * _calculate_rank_multiplier rank2) as Hprod.
  { assert (0 <= base * mult) by nra.
    assert (war1 * (base * mult) <= war2 * (base * mult)) by nra.
    assert (0 <= war2 * (base * mult)) by nra.
    nra. }
  unfold Py.min, Py.max. repeat case_decide; lra.
Qed.

Lemma draft_tier_mono self rank1 rank2 value1 value2 :
  (rank1 <= rank2)%Z -> value2 <= value1 ->
  (_calculate_draft_tier self rank1 value1 <=
   _calculate_draft_tier self rank2 value2)%Z.
Proof.
  intros Hrank Hvalue. unfold _calculate_draft_tier.
  repeat match goal with
         | |- context [decide ?P] =>
             destruct (decide P) as [[? ?]|?]
         end; try lia;
    exfalso; match goal with H : ~ _ |- _ => apply H; split; [lia | lra] end.
Qed.

(** X15: along the returned list the WAR never increases and the overall
    rank grows; between two players of the same position the earlier one
    (more WAR) never gets fewer dollars nor a worse draft tier than the
    later one. *)
Theorem auction_values_ordered_within_position :
  forall (self : AuctionValueCalculator) (league_war : LeagueWAR.t)
         (auction_values : list AuctionValue.t) (k l : nat)
         (a b : AuctionValue.t),
    calculate_league_auction_values self league_war = Ok auction_values ->
    auction_values !! k = Some a ->
    auction_values !! l = Some b ->
    (k <= l)%nat ->
    AuctionValue.wins_above_replacement b <= AuctionValue.wins_above_replacement a /\
    (AuctionValue.war_rank_overall a <= AuctionValue.war_rank_overall b)%Z /\
    (AuctionValue.position a = AuctionValue.position b ->
     AuctionValue.auction_value_dollars b <= AuctionValue.auction_value_dollars a /\
     (AuctionValue.draft_tier a <= AuctionValue.draft_tier b)%Z).
Proof.
  intros self lw avs k l a b Hrun Ha Hb Hkl.
  apply league_auction_values_spec in Hrun as (scarcity & _ & _ & Hk).
  destruct (Hk k a Ha) as (wa & Hwa & Hofa).
  destruct (Hk l b Hb) as (wb & Hwb & Hofb).
  pose proof (sorted_desc_lookup WARResult.wins_above_replacement _ k l wa wb
                (sort_desc_sorted _ _) Hkl Hwa Hwb) as Hwar.
  destruct Hofa as (_ & Hoka & _ & _ & Hposa & _ & Hwara & Hranka & _ & Hbasea
                    & Hmulta & _ & Hda & _ & Htiera & _).
  destruct Hofb as (Hposb_war & _ & _ & _ & Hposb & _ & Hwarb & Hrankb & _ & _
                    & _ & _ & Hdb & _ & Htierb & _).
  rewrite Hwara, Hwarb, Hranka, Hrankb.
  split; [done|]. split; [lia|].
  intros Hpos. rewrite Hposa, Hposb in Hpos.
  destruct Hoka as (_ & _ & _ & _ & _ & Hbase & Hmult & _).
  rewrite Hbasea in Hbase. rewrite Hmulta in Hmult.
  rewrite Hda, Hdb, Htiera, Htierb, <- Hpos.
  assert (capped_value self (WARResult.wins_above_replacement wb)
            (_calculate_base_value_per_war self (ranked_war_results lw))
            (default 1 (scarcity !! WARResult.position wa)) (Z.of_nat l + 1)
          <= capped_value self (WARResult.wins_above_replacement wa)
               (_calculate_base_value_per_war self (ranked_war_results lw))
               (default 1 (scarcity !! WARResult.position wa)) (Z.of_nat k + 1))
    as Hcap.
  { apply capped_value_mono; [done | lra | lra | lia]. }
  split; [by apply round_mono|].
  apply draft_tier_mono; [lia | done].
Qed.

(** A second quarterback, with half the WAR of the first. *)
Definition example_backup_war_result : WARResult.t :=
  {| WARResult.player_id := "QB2";
     WARResult.season := 2023;
     WARResult.position := "QB";
     WARResult.player_name := Some "Quarterback Two";
     WARResult.team := Some "SF";
     WARResult.games_played := 2;
     WARResult.weeks_analyzed := [1; 2]%Z;
     WARResult.total_fantasy_points := 30;
     WARResult.average_fantasy_points := 15;
     WARResult.win_percentage := 0.5;
     WARResult.expected_wins := 1;
     WARResult.replacement_win_percentage := 0.25;
     WARResult.replacement_expected_wins := 0.5;
     WARResult.wins_above_replacement := 0.5;
     WARResult.wins_above_average := 0;
     WARResult.team_average_score := 30;
     WARResult.team_score_std := 15 |}.

Lemma example_backup_war_result_fields_ok :
  WARResult.fields_ok example_backup_war_result.
Proof.
  unfold WARResult.fields_ok. simpl.
  repeat split; try lia; try lra. set_solver.
Qed.

(** A league analysis with the two quarterbacks. *)
Definition two_quarterback_league : LeagueWAR.t :=
  {| LeagueWAR.season := 2023;
     LeagueWAR.league_name := "Fantasy Analytical League";
     LeagueWAR.total_teams := 16;
     LeagueWAR.weeks_analyzed := [1; 2]%Z;
     LeagueWAR.positions_analyzed := ["QB"];
     LeagueWAR.position_results :=
       [("QB",
         {| PositionWAR.position := "QB";
            PositionWAR.season := 2023;
            PositionWAR.total_teams := 16;
            PositionWAR.starters_per_team := 1;
            PositionWAR.total_starter_spots := 16;
            PositionWAR.replacement_level_rank := 2;
            PositionWAR.replacement_player_id := Some "QB2";
            PositionWAR.player_wars :=
              [example_war_result; example_backup_war_result] |})] |}.

(** The two quarterbacks: both get a value, and the first, with twice the
    WAR, comes first and gets no fewer dollars. *)
Lemma auction_values_ordered_within_position_witness :
  exists auction_values a b,
    calculate_league_auction_values (calculator 200) two_quarterback_league
      = Ok auction_values /\
    auction_values !! 0%nat = Some a /\
    auction_values !! 1%nat = Some b /\
    AuctionValue.position a = AuctionValue.position b /\
    AuctionValue.wins_above_replacement b <= AuctionValue.wins_above_replacement a /\
    (AuctionValue.war_rank_overall a <= AuctionValue.war_rank_overall b)%Z /\
    (AuctionValue.position a = AuctionValue.position b ->
     AuctionValue.auction_value_dollars b <= AuctionValue.auction_value_dollars a /\
     (AuctionValue.draft_tier a <= AuctionValue.draft_tier b)%Z).
Proof.
  destruct (league_auction_values_total (calculator 200) two_quarterback_league)
    as [avs Hrun].
  - simpl. lia.
  - simpl. lia.
  - intros item Hitem. apply list_elem_of_singleton in Hitem as ->. simpl.
    split; [lia|].
    constructor; [apply example_war_result_fields_ok|].
    constructor; [apply example_backup_war_result_fields_ok | constructor].
  - destruct (league_auction_values_spec _ _ _ Hrun) as (scarcity & _ & Hlen & Hk).
    assert (forall w, w ∈ ranked_war_results two_quarterback_league ->
              WARResult.position w = "QB" /\
              WARResult.wins_above_replacement w > 0) as Hall.
    { intros w Hw. unfold ranked_war_results in Hw.
      rewrite sort_desc_perm in Hw. simpl in Hw.
      apply elem_of_cons in Hw as [->|Hw]; [simpl; split; [done|lra]|].
      apply list_elem_of_singleton in Hw as ->. simpl. split; [done|lra]. }
    assert (length avs = 2%nat) as Hlen2.
    { rewrite Hlen, filter_all.
      - unfold ranked_war_results. by rewrite sort_desc_length.
      - apply Forall_forall. intros w Hw. by apply Hall. }
    destruct avs as [|a [|b [|c avs]]]; simpl in Hlen2; try lia.
    exists [a; b], a, b.
    split; [exact Hrun|]. split; [reflexivity|]. split; [reflexivity|].
    split.
    + destruct (Hk 0%nat a eq_refl) as (wa & Hwa & _ & _ & _ & _ & Hpa & _).
      destruct (Hk 1%nat b eq_refl) as (wb & Hwb & _ & _ & _ & _ & Hpb & _).
      apply list_elem_of_lookup_2 in Hwa, Hwb.
      rewrite Hpa, Hpb.
      destruct (Hall wa Hwa) as [-> _]. destruct (Hall wb Hwb) as [-> _]. done.
    + exact (auction_values_ordered_within_position (calculator 200)
               two_quarterback_league [a; b] 0 1 a b Hrun eq_refl eq_refl
               (le_S 0 0 (le_n 0))).
Defined.

Lemma sum_positive xs :
  xs <> [] -> Forall (fun x => x > 0) xs -> Py.sum xs > 0.
Proof.
  intros Hne Hall. unfold Py.sum.
  induction Hall as [|x xs Hx Hall IH]; [done|]. simpl.
  destruct xs as [|y xs]; [simpl; lra|].
  specialize (IH ltac:(done)). lra.
Qed.


End AuctionListProps.

(** ** auction_values.py: the draft board *)

Section DraftBoardProps.
Import ModelProperties DraftBoard.

(** The row of the board for the auction value at index [i]. *)
Definition row_of (i : Z) (av : AuctionValue.t) : DraftRow :=
  {| rank := (i + 1)%Z;
     player_name := display_name av;
     position := AuctionValue.position av;
     war := AuctionValue.wins_above_replacement av;
     auction_value := AuctionValue.auction_value_dollars av;
     position_rank := AuctionValue.war_rank_position av;
     tier := AuctionValue.draft_tier av;
     value_efficiency := value_per_dollar av;
     budget_percent :=
       AuctionValue.auction_value_dollars av
       / IZR (AuctionValue.league_budget_total av) * 100;
     sleeper := AuctionValue.is_sleeper av;
     bust_risk := AuctionValue.is_bust_risk av |}.

(** The column of the board that the chosen order sorts by. *)
Definition row_key (sort_by : string) (row : DraftRow) : R :=
  if decide (sort_by = "war") then war row
  else if decide (sort_by = "value_efficiency") then value_efficiency row
  else auction_value row.

Lemma row_key_of sort_by i av : row_key sort_by (row_of i av) = sort_key sort_by av.
Proof. unfold row_key, sort_key, row_of, value_per_dollar. simpl. done. Qed.

Lemma board_fold offset (avs : list AuctionValue.t) acc :
  Forall (fun av => AuctionValue.league_budget_total av <> 0%Z) avs ->
  foldl board_step (Ok acc) (Frame.with_row_count offset avs) =
  Ok (acc ++ imap (fun i av => row_of (offset + Z.of_nat i) av) avs).
Proof.
  intros Hall. revert offset acc.
  induction Hall as [|av avs Hav Hall IH]; intros offset acc.
  - simpl. by rewrite app_nil_r.
  - rewrite with_row_count_cons. cbn [foldl].
    unfold board_step at 2, budget_percentage, Py.truediv.
    cbn [mbind result_bind].
    destruct (decide (IZR (AuctionValue.league_budget_total av) = 0)) as [E|_].
    { apply eq_IZR in E. done. }
    cbn [mbind result_bind]. rewrite IH. f_equal.
    rewrite <- app_assoc. f_equal. simpl. f_equal.
    + unfold row_of. by rewrite Z.add_0_r.
    + apply imap_ext. intros i x _. simpl. f_equal. lia.
Qed.

(** The draft board of validated auction values. *)
Lemma generate_draft_board_spec auction_values sort_by :
  Forall AuctionValue.fields_ok auction_values ->
  exists sorted_values,
    sorted_values ≡ₚ auction_values /\
    sorted_desc (sort_key sort_by) sorted_values /\
    generate_draft_board auction_values sort_by =
      Ok (imap (fun i av => row_of (Z.of_nat i) av) sorted_values).
Proof.
  intros Hok.
  exists (Frame.sort_desc (sort_key sort_by) auction_values).
  split; [apply sort_desc_perm|]. split; [apply sort_desc_sorted|].
  unfold generate_draft_board. rewrite board_fold; [done|].
  apply Forall_forall. intros av Hav. rewrite sort_desc_perm in Hav.
  rewrite Forall_forall in Hok.
  destruct (Hok av Hav) as (_ & _ & _ & _ & _ & _ & _ & _ & Hb). lia.
Qed.


Definition example_auction_value (player_id : string) (war dollars : R)
    : AuctionValue.t :=
  {| AuctionValue.player_id := player_id;
     AuctionValue.season := 2023;
     AuctionValue.position := "QB";
     AuctionValue.player_name := None;
     AuctionValue.wins_above_replacement := war;
     AuctionValue.war_rank_overall := 1;
     AuctionValue.war_rank_position := 1;
     AuctionValue.auction_value_dollars := dollars;
     AuctionValue.value_per_war := 10;
     AuctionValue.value_over_replacement := dollars - 1;
     AuctionValue.positional_scarcity_multiplier := 1;
     AuctionValue.draft_tier := 1;
     AuctionValue.is_sleeper := false;
     AuctionValue.is_bust_risk := false;
     AuctionValue.league_budget_total := 200 |}.

Lemma example_auction_value_fields_ok player_id war dollars :
  0 <= dollars -> AuctionValue.fields_ok (example_auction_value player_id war dollars).
Proof.
  intros Hd. unfold AuctionValue.fields_ok. simpl.
  split_and!; try lia; try lra. set_solver.
Qed.

Definition example_auction_values : list AuctionValue.t :=
  [example_auction_value "QB1" 1 20; example_auction_value "QB2" 2 50].

Lemma example_auction_values_fields_ok :
  Forall AuctionValue.fields_ok example_auction_values.
Proof.
  repeat apply Forall_cons_2; try apply Forall_nil_2;
    apply example_auction_value_fields_ok; lra.
Qed.


End DraftBoardProps.

(** ** auction_values.py: the budget allocation by position *)

Section BudgetAllocationProps.
Import ModelProperties DraftBoard.

Lemma sum_app xs ys : Py.sum (xs ++ ys) = Py.sum xs + Py.sum ys.
Proof.
  unfold Py.sum. induction xs as [|x xs IH]; simpl; [lra|]. rewrite IH. lra.
Qed.

Lemma sum_perm xs ys : xs ≡ₚ ys -> Py.sum xs = Py.sum ys.
Proof.
  unfold Py.sum. induction 1; simpl; lra.
Qed.

Lemma dollars_app avs1 avs2 : dollars (avs1 ++ avs2) = dollars avs1 + dollars avs2.
Proof. unfold dollars. by rewrite map_app, sum_app. Qed.

Lemma dollars_perm avs1 avs2 : avs1 ≡ₚ avs2 -> dollars avs1 = dollars avs2.
Proof.
  intros H. unfold dollars. apply sum_perm. rewrite !map_fmap. by rewrite H.
Qed.

(** What the grouping loop keeps true: the keys are distinct, every list
    holds the values of its position in input order and is not empty, every
    position seen has a key, and nothing is lost. *)
Definition groups_ok (by_position : list (string * list AuctionValue.t))
    (seen : list AuctionValue.t) : Prop :=
  NoDup (map fst by_position) /\
  (forall group, group ∈ by_position ->
     snd group = filter (fun av => AuctionValue.position av = fst group) seen /\
     snd group <> []) /\
  (forall av, av ∈ seen -> AuctionValue.position av ∈ map fst by_position) /\
  concat (map snd by_position) ≡ₚ seen.

Definition extend_group (av : AuctionValue.t)
    (group : string * list AuctionValue.t) : string * list AuctionValue.t :=
  if decide (fst group = AuctionValue.position av)
  then (fst group, snd group ++ [av])
  else group.

Lemma extend_group_fst av group : fst (extend_group av group) = fst group.
Proof. unfold extend_group. by case_decide. Qed.

Lemma extend_groups_keys av by_position :
  map fst (map (extend_group av) by_position) = map fst by_position.
Proof.
  induction by_position as [|g G IH]; simpl; [done|].
  by rewrite extend_group_fst, IH.
Qed.

Lemma extend_groups_absent av by_position :
  AuctionValue.position av ∉ map fst by_position ->
  map (extend_group av) by_position = by_position.
Proof.
  induction by_position as [|g G IH]; simpl; [done|].
  intros Hnin. rewrite not_elem_of_cons in Hnin. destruct Hnin as [Hne Hnin].
  rewrite IH by done. unfold extend_group.
  by rewrite decide_False by congruence.
Qed.

Lemma extend_groups_concat av by_position :
  NoDup (map fst by_position) ->
  AuctionValue.position av ∈ map fst by_position ->
  concat (map snd (map (extend_group av) by_position))
    ≡ₚ concat (map snd by_position) ++ [av].
Proof.
  induction by_position as [|g G IH]; simpl.
  - intros _ Hin. by apply elem_of_nil in Hin.
  - intros Hnd Hin. apply NoDup_cons in Hnd as [Hg Hnd].
    unfold extend_group at 1.
    destruct (decide (fst g = AuctionValue.position av)) as [Heq|Hne].
    + rewrite extend_groups_absent by (by rewrite <- Heq).
      simpl. rewrite <- !app_assoc. f_equiv. apply Permutation_app_comm.
    + apply elem_of_cons in Hin as [?|Hin]; [congruence|].
      rewrite IH by done. by rewrite app_assoc.
Qed.

Lemma add_position_unfold by_position av :
  add_position by_position av =
  if decide (AuctionValue.position av ∈ map fst by_position)
  then map (extend_group av) by_position
  else by_position ++ [(AuctionValue.position av, [av])].
Proof. reflexivity. Qed.

Lemma add_position_ok by_position seen av :
  groups_ok by_position seen ->
  groups_ok (add_position by_position av) (seen ++ [av]).
Proof.
  intros (Hnd & Hgroups & Hkeys & Hperm). rewrite add_position_unfold.
  destruct (decide (AuctionValue.position av ∈ map fst by_position)) as [Hin|Hnin].
  - split; [by rewrite extend_groups_keys|]. split; [|split].
    + intros g' Hg'. rewrite map_fmap in Hg'.
      apply list_elem_of_fmap in Hg' as (g & -> & Hg).
      destruct (Hgroups g Hg) as [Hsnd Hne].
      rewrite extend_group_fst, filter_app. unfold extend_group.
      destruct (decide (fst g = AuctionValue.position av)) as [Heq|Hneq]; simpl.
      * rewrite filter_cons_True, filter_nil by done.
        split; [by rewrite Hsnd|]. by destruct (snd g).
      * rewrite filter_cons_False, filter_nil, app_nil_r by congruence.
        done.
    + intros x Hx. rewrite extend_groups_keys.
      apply elem_of_app in Hx as [Hx|Hx]; [by apply Hkeys|].
      apply list_elem_of_singleton in Hx as ->. done.
    + rewrite extend_groups_concat by done. by rewrite Hperm.
  - split; [|split; [|split]].
    + rewrite map_app. simpl. apply NoDup_app. split; [done|].
      split; [|apply NoDup_singleton].
      intros p Hp Hp'. apply list_elem_of_singleton in Hp' as ->. done.
    + intros g Hg. apply elem_of_app in Hg as [Hg|Hg].
      * destruct (Hgroups g Hg) as [Hsnd Hne]. split; [|done].
        rewrite filter_app, filter_cons_False, filter_nil, app_nil_r; [done|].
        intros Heq. apply Hnin. rewrite Heq.
        rewrite map_fmap. by apply list_elem_of_fmap_2.
      * apply list_elem_of_singleton in Hg as ->. simpl. split; [|done].
        rewrite filter_app, filter_cons_True, filter_nil by done.
        rewrite filter_none; [done|].
        apply Forall_forall. intros x Hx Heq. apply Hnin.
        rewrite <- Heq. by apply Hkeys.
    + intros x Hx. rewrite map_app. apply elem_of_app.
      apply elem_of_app in Hx as [Hx|Hx]; [left; by apply Hkeys|].
      apply list_elem_of_singleton in Hx as ->. right. simpl. by left.
    + rewrite map_app, concat_app. simpl. rewrite ?app_nil_r. by rewrite Hperm.
Qed.

Lemma group_fold_ok avs by_position seen :
  groups_ok by_position seen ->
  groups_ok (foldl add_position by_position avs) (seen ++ avs).
Proof.
  revert by_position seen.
  induction avs as [|av avs IH]; intros G seen HG; simpl.
  - by rewrite app_nil_r.
  - replace (seen ++ av :: avs) with ((seen ++ [av]) ++ avs)
      by (by rewrite <- app_assoc).
    by apply IH, add_position_ok.
Qed.

Lemma group_by_position_ok avs : groups_ok (group_by_position avs) avs.
Proof.
  apply (group_fold_ok avs [] []).
  split; [constructor|]. split; [|split; [|done]].
  - intros g Hg. by apply elem_of_nil in Hg.
  - intros av Hav. by apply elem_of_nil in Hav.
Qed.

(** The analysis of one position when the total of all dollars is not 0. *)
Definition analysis_of (league_config : Leagues.LeagueConfig)
    (auction_values : list AuctionValue.t)
    (group : string * list AuctionValue.t) : PositionBudget :=
  let pos_values :=
    Frame.sort_desc AuctionValue.auction_value_dollars (snd group) in
  let req :=
    Leagues.get_position_requirements (Leagues.roster league_config) (fst group) in
  {| min_starters := fst req;
     max_starters := snd req;
     total_players := Frame.len pos_values;
     top_tier_cost := dollars (slice_to (snd req) pos_values);
     mid_tier_cost :=
       if decide (Frame.len pos_values > snd req)%Z
       then dollars (slice (snd req) (snd req * 2) pos_values)
       else 0;
     total_value := dollars pos_values;
     avg_top_tier :=
       if decide (snd req > 0)%Z
       then dollars (slice_to (snd req) pos_values) / IZR (snd req)
       else 0;
     recommended_budget_pct :=
       dollars pos_values / dollars auction_values * 100;
     scarcity_rating :=
       if decide (IZR (Frame.len pos_values) < IZR (snd req) * 1.5) then "High"
       else if decide (Frame.len pos_values < snd req * 2)%Z then "Medium"
       else "Low" |}.

Lemma analyze_position_ok league_config auction_values group :
  dollars auction_values <> 0 ->
  analyze_position league_config auction_values (fst group) (snd group) =
  Ok (analysis_of league_config auction_values group).
Proof.
  intros Htotal. unfold analyze_position, analysis_of, Py.truediv.
  destruct (Leagues.get_position_requirements _ _) as [min_req max_req].
  destruct (decide (dollars auction_values = 0)); [done|]. reflexivity.
Qed.

Lemma analyze_position_zero league_config auction_values position pos_values :
  dollars auction_values = 0 ->
  analyze_position league_config auction_values position pos_values =
  Raise ZeroDivisionError.
Proof.
  intros Htotal. unfold analyze_position, Py.truediv.
  destruct (Leagues.get_position_requirements _ _) as [min_req max_req].
  destruct (decide (dollars auction_values = 0)); [|done]. reflexivity.
Qed.

Lemma allocation_fold_ok league_config auction_values groups acc :
  dollars auction_values <> 0 ->
  foldl (allocation_step league_config auction_values) (Ok acc) groups =
  Ok (acc ++ map (fun group =>
                    (fst group, analysis_of league_config auction_values group))
                 groups).
Proof.
  intros Htotal. revert acc.
  induction groups as [|g groups IH]; intros acc; cbn [foldl map].
  - by rewrite app_nil_r.
  - change (allocation_step league_config auction_values (Ok acc) g)
      with (analysis ← analyze_position league_config auction_values
                         (fst g) (snd g);
            (Ok (acc ++ [(fst g, analysis)])
               : result (list (string * PositionBudget)))).
    rewrite analyze_position_ok by done. cbn [mbind result_bind].
    rewrite IH. by rewrite <- app_assoc.
Qed.

Lemma allocation_fold_raise league_config auction_values groups e :
  foldl (allocation_step league_config auction_values) (Raise e) groups = Raise e.
Proof. induction groups as [|g groups IH]; simpl; done. Qed.

Lemma sum_concat_dollars (groups : list (string * list AuctionValue.t)) :
  Py.sum (map (fun group => dollars (snd group)) groups) =
  dollars (concat (map snd groups)).
Proof.
  induction groups as [|g groups IH]; simpl; [done|].
  rewrite dollars_app, <- IH. reflexivity.
Qed.

Lemma sum_take_le n xs :
  Forall (fun x => 0 <= x) xs -> 0 <= Py.sum (take n xs) <= Py.sum xs.
Proof.
  intros Hall. revert n. unfold Py.sum.
  induction Hall as [|x xs Hx Hall IH]; intros n.
  - rewrite take_nil. simpl. lra.
  - destruct n as [|n]; simpl.
    + specialize (IH 0%nat). rewrite take_0 in IH. simpl in IH. lra.
    + specialize (IH n). lra.
Qed.

Lemma slice_to_take {A} stop (xs : list A) :
  exists n, slice_to stop xs = take n xs.
Proof.
  unfold slice_to, slice. simpl.
  destruct (decide (0 < 0)%Z) as [|_]; [lia|].
  replace (Z.to_nat (Z.min 0 (Z.of_nat (length xs)))) with 0%nat by lia.
  rewrite drop_0. eauto.
Qed.

Lemma sum_shares (groups : list (string * list AuctionValue.t)) total :
  total <> 0 ->
  Py.sum (map (fun group : string * list AuctionValue.t =>
                 dollars (Frame.sort_desc AuctionValue.auction_value_dollars
                            (snd group)) / total * 100) groups) =
  Py.sum (map (fun group => dollars (snd group)) groups) / total * 100.
Proof.
  intros Htotal. induction groups as [|g groups IH].
  - unfold Py.sum, Rdiv. simpl. ring.
  - cbn [map]. change (Py.sum (?x :: ?l)) with (x + Py.sum l).
    rewrite IH, (dollars_perm _ (snd g)) by apply sort_desc_perm.
    field. done.
Qed.

(** The budget allocation when the dollars do not sum to 0. *)
Lemma budget_allocation_spec league_config auction_values :
  dollars auction_values <> 0 ->
  calculate_optimal_budget_allocation league_config auction_values =
  Ok (map (fun group =>
             (fst group, analysis_of league_config auction_values group))
          (group_by_position auction_values)).
Proof.
  intros Htotal. unfold calculate_optimal_budget_allocation.
  by rewrite allocation_fold_ok.
Qed.

(** X18: when the dollars of the auction values do not sum to 0,
    [calculate_optimal_budget_allocation] returns one entry for each position
    that occurs among the values, and no other; the entry of a position
    counts the values of that position, totals their dollars (most expensive
    first), carries the roster requirements of the position and recommends
    the position's total over the sum of all dollars, in percent; with no
    negative dollar value the top-tier cost of a position lies between 0 and
    the position's total. *)
Theorem budget_allocation_shares :
  forall (league_config : Leagues.LeagueConfig)
         (auction_values : list AuctionValue.t),
    dollars auction_values <> 0 ->
    exists analysis,
      calculate_optimal_budget_allocation league_config auction_values
        = Ok analysis /\
      NoDup (map fst analysis) /\
      (forall position,
         position ∈ map fst analysis <->
         exists av, av ∈ auction_values /\ AuctionValue.position av = position) /\
      (forall position budget,
         (position, budget) ∈ analysis ->
         let pos_values :=
           Frame.sort_desc AuctionValue.auction_value_dollars
             (filter (fun av => AuctionValue.position av = position)
                     auction_values) in
         total_players budget = Frame.len pos_values /\
         total_value budget = dollars pos_values /\
         (min_starters budget, max_starters budget) =
           Leagues.get_position_requirements (Leagues.roster league_config)
             position /\
         recommended_budget_pct budget =
           total_value budget / dollars auction_values * 100 /\
         (Forall (fun av => 0 <= AuctionValue.auction_value_dollars av)
                 auction_values ->
          0 <= top_tier_cost budget <= total_value budget)).
Proof.
  intros cfg avs Htotal.
  exists (map (fun group => (fst group, analysis_of cfg avs group))
              (group_by_position avs)).
  split; [by apply budget_allocation_spec|].
  pose proof (group_by_position_ok avs) as (Hnd & Hgroups & Hkeys & Hperm).
  generalize dependent (group_by_position avs).
  intros G Hnd Hgroups Hkeys Hperm.
  split; [|split].
  - rewrite map_map. simpl. exact Hnd.
  - intros p. rewrite map_map. simpl. split.
    + intros Hp. rewrite map_fmap in Hp.
      apply list_elem_of_fmap in Hp as (g & -> & Hg).
      destruct (Hgroups g Hg) as [Hsnd Hne].
      destruct (snd g) as [|av vs] eqn:Hvs; [done|].
      assert (av ∈ filter (fun av => AuctionValue.position av = fst g) avs)
        as Hav by (rewrite <- Hsnd; left).
      apply list_elem_of_filter in Hav as [Hpos Hav]. eauto.
    + intros (av & Hav & <-). by apply Hkeys.
  - intros p b Hb. rewrite map_fmap in Hb.
    apply list_elem_of_fmap in Hb as (g & [= -> ->] & Hg).
    destruct (Hgroups g Hg) as [Hsnd _]. simpl. rewrite <- Hsnd.
    split; [done|]. split; [done|].
    split; [by destruct (Leagues.get_position_requirements _ _)|].
    split; [done|].
    intros Hnonneg.
    destruct (slice_to_take
                (snd (Leagues.get_position_requirements (Leagues.roster cfg) (fst g)))
                (Frame.sort_desc AuctionValue.auction_value_dollars (snd g)))
      as [n ->].
    unfold dollars.
    rewrite !map_fmap, fmap_take. apply sum_take_le.
    apply Forall_fmap, Forall_forall. intros av Hav. simpl.
    rewrite sort_desc_perm, Hsnd in Hav.
    apply list_elem_of_filter in Hav as [_ Hav].
    rewrite Forall_forall in Hnonneg. by apply Hnonneg.
Qed.

Lemma example_auction_values_dollars : dollars example_auction_values <> 0.
Proof. unfold dollars, example_auction_values, Py.sum. simpl. lra. Qed.

Lemma budget_allocation_shares_witness :
  exists analysis,
    calculate_optimal_budget_allocation Leagues.fal_league example_auction_values
      = Ok analysis /\
    NoDup (map fst analysis) /\
    (forall position,
       position ∈ map fst analysis <->
       exists av, av ∈ example_auction_values /\
                  AuctionValue.position av = position) /\
    (forall position budget,
       (position, budget) ∈ analysis ->
       let pos_values :=
         Frame.sort_desc AuctionValue.auction_value_dollars
           (filter (fun av => AuctionValue.position av = position)
                   example_auction_values) in
       total_players budget = Frame.len pos_values /\
       total_value budget = dollars pos_values /\
       (min_starters budget, max_starters budget) =
         Leagues.get_position_requirements (Leagues.roster Leagues.fal_league)
           position /\
       recommended_budget_pct budget =
         total_value budget / dollars example_auction_values * 100 /\
       (Forall (fun av => 0 <= AuctionValue.auction_value_dollars av)
               example_auction_values ->
        0 <= top_tier_cost budget <= total_value budget)).
Proof.
  apply (budget_allocation_shares Leagues.fal_league example_auction_values).
  apply example_auction_values_dollars.
Defined.

(** X19: on a non-empty list of auction values whose dollars sum to 0 (all
    of them worth 0 dollars, which the record allows)
    [calculate_optimal_budget_allocation] raises [ZeroDivisionError]: the
    share of the first position divides by the total. *)
Theorem budget_allocation_zero_total_raises :
  forall (league_config : Leagues.LeagueConfig)
         (auction_values : list AuctionValue.t),
    auction_values <> [] ->
    dollars auction_values = 0 ->
    calculate_optimal_budget_allocation league_config auction_values
      = Raise ZeroDivisionError.
Proof.
  intros cfg avs Hne Htotal. unfold calculate_optimal_budget_allocation.
  pose proof (group_by_position_ok avs) as (_ & _ & Hkeys & _).
  destruct (group_by_position avs) as [|g G].
  - destruct avs as [|av avs]; [done|].
    specialize (Hkeys av ltac:(left)). by apply elem_of_nil in Hkeys.
  - cbn [foldl].
    change (allocation_step cfg avs (Ok []) g)
      with (analysis ← analyze_position cfg avs (fst g) (snd g);
            (Ok ([] ++ [(fst g, analysis)])
               : result (list (string * PositionBudget)))).
    rewrite analyze_position_zero by done. cbn [mbind result_bind].
    apply allocation_fold_raise.
Qed.

Lemma budget_allocation_zero_total_raises_witness :
  calculate_optimal_budget_allocation Leagues.fal_league
    [example_auction_value "QB1" 1 0] = Raise ZeroDivisionError.
Proof.
  apply (budget_allocation_zero_total_raises Leagues.fal_league
           [example_auction_value "QB1" 1 0]).
  - done.
  - unfold dollars, Py.sum. simpl. lra.
Defined.

End BudgetAllocationProps.

(** ** validators.py: lists of weeks and positions, ids and numbers *)

Section InputValidatorProps.
Import Validators InputValidators.

(** The validation loop shared by the list validators. *)
Definition validate_all {A B} (f : A -> result B) (xs : list A) (acc : list B)
    : result (list B) :=
  foldl (fun acc x => validated ← acc; v ← f x; Ok (validated ++ [v]))
        (Ok acc) xs.

Lemma validate_all_raise {A B} (f : A -> result B) (xs : list A) e :
  foldl (fun acc x => validated ← acc; v ← f x; Ok (validated ++ [v]))
        (Raise e) xs = Raise e.
Proof. induction xs as [|x xs IH]; simpl; done. Qed.

(** The loop returns the validated elements in order, or raises because
    some element is invalid. *)
Lemma validate_all_cases {A B} (f : A -> result B) (xs : list A) (acc : list B) :
  match validate_all f xs acc with
  | Ok validated =>
      exists out, validated = acc ++ out /\ Forall2 (fun x v => f x = Ok v) xs out
  | Raise e => exists x, x ∈ xs /\ f x = Raise e
  end.
Proof.
  unfold validate_all. revert acc.
  induction xs as [|x xs IH]; intros acc; cbn [foldl].
  - exists []. split; [by rewrite app_nil_r | constructor].
  - cbn [mbind result_bind]. destruct (f x) as [v|e] eqn:Hx;
      cbn [mbind result_bind].
    + specialize (IH (acc ++ [v])).
      destruct (foldl _ (Ok (acc ++ [v])) xs) as [validated|e].
      * destruct IH as (out & -> & Hall). exists (v :: out).
        split; [by rewrite <- app_assoc | by constructor].
      * destruct IH as (y & Hy & Hfy). exists y. split; [by right | done].
    + rewrite validate_all_raise. exists x. split; [by left | done].
Qed.

Lemma validate_all_ok {A B} (f : A -> result B) (xs : list A) (out acc : list B) :
  Forall2 (fun x v => f x = Ok v) xs out ->
  validate_all f xs acc = Ok (acc ++ out).
Proof.
  unfold validate_all. intros Hall. revert acc.
  induction Hall as [|x v xs out Hx Hall IH]; intros acc; cbn [foldl].
  - by rewrite app_nil_r.
  - cbn [mbind result_bind]. rewrite Hx. cbn [mbind result_bind].
    rewrite IH. by rewrite <- app_assoc.
Qed.

Lemma validate_week_range week w :
  validate_week week = Ok w -> (1 <= w <= 18)%Z /\ int week = Some w.
Proof.
  unfold validate_week. destruct (int week) as [z|]; [|done].
  case_decide; [done|]. intros [= <-]. split; [lia | done].
Qed.

Lemma validate_week_int w : (1 <= w <= 18)%Z -> validate_week (PyInt w) = Ok w.
Proof. intros Hw. unfold validate_week. simpl. by rewrite decide_False by lia. Qed.

Lemma sorted_nodup_strict (ws : list Z) :
  StronglySorted Z.le ws -> NoDup ws -> StronglySorted Z.lt ws.
Proof.
  induction 1 as [|w ws Hsorted IH Hw]; intros Hnd; [constructor|].
  apply NoDup_cons in Hnd as [Hnin Hnd]. constructor; [by apply IH|].
  apply Forall_forall. intros x Hx. rewrite Forall_forall in Hw.
  specialize (Hw x Hx). assert (x <> w) by (intros ->; done). lia.
Qed.

Lemma strict_sorted_nodup (ws : list Z) : StronglySorted Z.lt ws -> NoDup ws.
Proof.
  induction 1 as [|w ws Hsorted IH Hw]; [constructor|].
  apply NoDup_cons. split; [|done]. intros Hin.
  rewrite Forall_forall in Hw. specialize (Hw w Hin). lia.
Qed.

Lemma strict_sorted_le (ws : list Z) :
  StronglySorted Z.lt ws -> StronglySorted Z.le ws.
Proof.
  induction 1 as [|w ws Hsorted IH Hw]; constructor; [done|].
  eapply Forall_impl; [exact Hw|]. simpl. intros x Hx. lia.
Qed.

Lemma remove_dups_nodup {A} `{EqDecision A} (l : list A) :
  NoDup l -> remove_dups l = l.
Proof.
  induction 1 as [|x l Hx Hl IH]; simpl; [done|].
  destruct (decide_rel elem_of x l); [done|]. by rewrite IH.
Qed.

(** Sorting a strictly increasing list without its duplicates gives the
    list back. *)
Lemma sort_dedup_fixed (ws : list Z) :
  StronglySorted Z.lt ws -> merge_sort Z.le (remove_dups ws) = ws.
Proof.
  intros Hsorted. rewrite remove_dups_nodup by (by apply strict_sorted_nodup).
  apply (StronglySorted_unique Z.le).
  - apply StronglySorted_merge_sort; apply _.
  - by apply strict_sorted_le.
  - apply merge_sort_Permutation.
Qed.

(** The list validators of numbers: validate every element, then sort
    without duplicates. *)
Lemma validate_sorted_cases (f : pyval -> result Z) (xs : list pyval) :
  (forall x z, f x = Ok z -> f (PyInt z) = Ok z) ->
  match validated ← validate_all f xs [];
        Ok (merge_sort Z.le (remove_dups validated)) with
  | Ok validated =>
      StronglySorted Z.lt validated /\
      (forall w, w ∈ validated <-> exists x, x ∈ xs /\ f x = Ok w) /\
      (again ← validate_all f (PyInt <$> validated) [];
       Ok (merge_sort Z.le (remove_dups again))) = Ok validated
  | Raise e => exists x, x ∈ xs /\ f x = Raise e
  end.
Proof.
  intros Hfix.
  pose proof (validate_all_cases f xs []) as Hcases.
  destruct (validate_all f xs []) as [validated|e]; cbn [mbind result_bind];
    [|done].
  destruct Hcases as (out & -> & Hall). simpl.
  set (result := merge_sort Z.le (remove_dups out)).
  assert (forall w, w ∈ result <-> w ∈ out) as Hin.
  { intros w. unfold result.
    by rewrite merge_sort_Permutation, elem_of_remove_dups. }
  assert (forall w, w ∈ out <-> exists x, x ∈ xs /\ f x = Ok w) as Hout.
  { intros w. split.
    - intros Hw. apply list_elem_of_lookup in Hw as [i Hi].
      destruct (Forall2_lookup_r _ _ _ _ _ Hall Hi) as (x & Hx & Hv).
      exists x. split; [by eapply list_elem_of_lookup_2 | done].
    - intros (x & Hx & Hv). apply list_elem_of_lookup in Hx as [i Hi].
      destruct (Forall2_lookup_l _ _ _ _ _ Hall Hi) as (w' & Hw' & Hv').
      rewrite Hv in Hv'. injection Hv' as <-.
      by eapply list_elem_of_lookup_2. }
  assert (StronglySorted Z.lt result) as Hsorted.
  { apply sorted_nodup_strict.
    - apply StronglySorted_merge_sort; apply _.
    - unfold result. rewrite merge_sort_Permutation. apply NoDup_remove_dups. }
  split; [done|]. split; [intros w; by rewrite Hin, Hout|].
  rewrite (validate_all_ok f (PyInt <$> result) result []).
  - cbn [mbind result_bind]. simpl. f_equal. by apply sort_dedup_fixed.
  - apply Forall2_fmap_l, Forall_Forall2_diag, Forall_forall.
    intros w Hw. apply Hin, Hout in Hw as (x & _ & Hx). by eapply Hfix.
Qed.

Lemma validate_season_range current_year season s :
  validate_season current_year season = Ok s ->
  (1920 <= s <= current_year + 1)%Z /\ int season = Some s.
Proof.
  unfold validate_season. destruct (int season) as [z|]; [|done].
  repeat case_decide; try done. intros [= <-]. split; [lia | done].
Qed.

Lemma validate_season_int current_year s :
  (1920 <= s <= current_year + 1)%Z ->
  validate_season current_year (PyInt s) = Ok s.
Proof.
  intros Hs. unfold validate_season. simpl.
  rewrite decide_False by lia. by rewrite decide_False by lia.
Qed.

(** X20: [validate_weeks_list] and [validate_seasons_list] on a list either
    raise, and then some element of the list is not valid, or return the
    valid numbers in strictly increasing order, so without duplicates: every
    returned number is the validated form of some element (a week in 1..18, a
    season from 1920 to the year after the current one), every element's
    number is returned, and validating the returned list again gives it
    back. *)
Theorem validate_weeks_list_sorted_unique :
  forall (current_year : Z) (items : list pyval),
    match validate_weeks_list (WeeksList items) with
    | Ok validated =>
        StronglySorted Z.lt validated /\
        (forall w, w ∈ validated -> (1 <= w <= 18)%Z) /\
        (forall w, w ∈ validated <->
                   exists week, week ∈ items /\ validate_week week = Ok w) /\
        validate_weeks_list (WeeksList (PyInt <$> validated)) = Ok validated
    | Raise e => exists week, week ∈ items /\ validate_week week = Raise e
    end /\
    match validate_seasons_list current_year (ArgList items) with
    | Ok validated =>
        StronglySorted Z.lt validated /\
        (forall s, s ∈ validated -> (1920 <= s <= current_year + 1)%Z) /\
        (forall s, s ∈ validated <->
                   exists season, season ∈ items /\
                                  validate_season current_year season = Ok s) /\
        validate_seasons_list current_year (ArgList (PyInt <$> validated))
          = Ok validated
    | Raise e =>
        exists season, season ∈ items /\
                       validate_season current_year season = Raise e
    end.
Proof.
  intros current_year items. split.
  - pose proof (validate_sorted_cases validate_week items) as Hcases.
    unfold validate_weeks_list, validate_each.
    unfold validate_all in Hcases.
    destruct (foldl _ (Ok []) items) as [validated|e];
      cbn [mbind result_bind] in *.
    + destruct Hcases as (Hsorted & Hin & Hagain).
      { intros x z Hx. apply validate_week_range in Hx as [Hz _].
        by apply validate_week_int. }
      split; [done|]. split; [|split; [done|exact Hagain]].
      intros w Hw. apply Hin in Hw as (x & _ & Hx).
      by apply validate_week_range in Hx as [? _].
    + apply Hcases. intros x z Hx. apply validate_week_range in Hx as [Hz _].
      by apply validate_week_int.
  - pose proof (validate_sorted_cases (validate_season current_year) items)
      as Hcases.
    unfold validate_seasons_list. unfold validate_all in Hcases.
    destruct (foldl _ (Ok []) items) as [validated|e];
      cbn [mbind result_bind] in *.
    + destruct Hcases as (Hsorted & Hin & Hagain).
      { intros x z Hx. apply validate_season_range in Hx as [Hz _].
        by apply validate_season_int. }
      split; [done|]. split; [|split; [done|exact Hagain]].
      intros w Hw. apply Hin in Hw as (x & _ & Hx).
      by apply validate_season_range in Hx as [? _].
    + apply Hcases. intros x z Hx. apply validate_season_range in Hx as [Hz _].
      by apply validate_season_int.
Qed.

(** The ASCII upper-case map and [strip] are idempotent. *)
Lemma upper_char_idemp c : upper_char (upper_char c) = upper_char c.
Proof. destruct c as [[] [] [] [] [] [] [] []]; reflexivity. Qed.

Lemma upper_idemp s : upper (upper s) = upper s.
Proof.
  induction s as [|c s IH]; simpl; [done|]. by rewrite upper_char_idemp, IH.
Qed.

Lemma lstrip_idemp s : lstrip (lstrip s) = lstrip s.
Proof.
  induction s as [|c s IH]; simpl; [done|].
  destruct (is_space c) eqn:Hc; [done|]. simpl. by rewrite Hc.
Qed.

Lemma rstrip_idemp s : rstrip (rstrip s) = rstrip s.
Proof.
  induction s as [|c s IH]; simpl; [done|].
  destruct (rstrip s) as [|c' r] eqn:Hr.
  - destruct (is_space c) eqn:Hc; simpl; [done|]. by rewrite Hc.
  - simpl in *. by rewrite IH.
Qed.

Lemma lstrip_keeps_rstrip s : rstrip s = s -> rstrip (lstrip s) = lstrip s.
Proof.
  induction s as [|c s IH]; [done|].
  intros Hs. cbn [lstrip]. destruct (is_space c) eqn:Hc; [|exact Hs].
  cbn [rstrip] in Hs. rewrite Hc in Hs.
  destruct (rstrip s) as [|c' r] eqn:Hr; [done|].
  injection Hs as Hs. apply IH. by rewrite Hs.
Qed.

Lemma strip_idemp s : strip (strip s) = strip s.
Proof.
  unfold strip.
  rewrite (lstrip_keeps_rstrip (rstrip s)) by apply rstrip_idemp.
  apply lstrip_idemp.
Qed.

Lemma validate_position_ok position p :
  validate_position position = Ok p ->
  p ∈ valid_positions /\ p = strip (upper position).
Proof.
  unfold validate_position. case_decide as Hin; [done|].
  intros [= <-]. split; [|done].
  by destruct (decide (strip (upper position) ∈ valid_positions)).
Qed.

Lemma validate_position_code p :
  p ∈ valid_positions -> validate_position p = Ok p.
Proof.
  unfold valid_positions. intros Hp.
  repeat (apply elem_of_cons in Hp as [->|Hp]; [reflexivity|]).
  by apply elem_of_nil in Hp.
Qed.

Lemma unique_fold_spec (validated acc : list string) :
  NoDup acc ->
  exists out,
    foldl unique_step acc validated = acc ++ out /\
    NoDup (acc ++ out) /\
    out `sublist_of` validated /\
    (forall p, p ∈ acc ++ out <-> p ∈ acc \/ p ∈ validated).
Proof.
  revert acc. induction validated as [|x xs IH]; intros acc Hacc; cbn [foldl].
  - exists []. rewrite app_nil_r. split_and!; try done.
    intros p. split; [by left|]. intros [?|Hp]; [done|].
    by apply elem_of_nil in Hp.
  - unfold unique_step at 2. case_decide as Hx.
    + destruct (IH (acc ++ [x])) as (out & Hfold & Hnd & Hsub & Hin).
      { apply NoDup_app. split; [done|]. split; [|apply NoDup_singleton].
        intros y Hy Hy'. apply list_elem_of_singleton in Hy' as ->. done. }
      exists (x :: out). rewrite Hfold, <- app_assoc. simpl.
      rewrite <- app_assoc in Hnd. simpl in Hnd.
      split_and!; try done.
      * by apply sublist_skip.
      * intros p. specialize (Hin p). rewrite <- app_assoc in Hin. simpl in Hin.
        rewrite Hin, elem_of_app, !elem_of_cons, elem_of_nil. tauto.
    + destruct (IH acc Hacc) as (out & Hfold & Hnd & Hsub & Hin).
      exists out. split_and!; try done.
      * by apply sublist_cons.
      * intros p. rewrite Hin, elem_of_cons.
        destruct (decide (x ∈ acc)) as [Hxa|?]; [|done].
        split; [tauto|]. intros [?|[->|?]]; tauto.
Qed.

Lemma unique_fold_app (l acc : list string) :
  NoDup (acc ++ l) -> foldl unique_step acc l = acc ++ l.
Proof.
  revert acc. induction l as [|x l IH]; intros acc Hnd; cbn [foldl].
  - by rewrite app_nil_r.
  - unfold unique_step at 2.
    pose proof Hnd as Hnd'. apply NoDup_app in Hnd' as (_ & Hdisj & _).
    rewrite decide_True by (intros Hx; apply (Hdisj x Hx); by left).
    rewrite IH by (by rewrite <- app_assoc). by rewrite <- app_assoc.
Qed.

Lemma is_space_upper c : is_space (upper_char c) = is_space c.
Proof. destruct c as [[] [] [] [] [] [] [] []]; reflexivity. Qed.

Lemma upper_lstrip s : upper (lstrip s) = lstrip (upper s).
Proof.
  induction s as [|c s IH]; simpl; [done|].
  rewrite is_space_upper. by destruct (is_space c).
Qed.

Lemma upper_rstrip s : upper (rstrip s) = rstrip (upper s).
Proof.
  induction s as [|c s IH]; simpl; [done|].
  rewrite <- IH, is_space_upper.
  destruct (rstrip s) as [|c' r]; simpl; [|done].
  by destruct (is_space c).
Qed.

Lemma upper_strip s : upper (strip s) = strip (upper s).
Proof. unfold strip. by rewrite upper_lstrip, upper_rstrip. Qed.


Lemma validate_team_code t :
  t ∈ valid_teams -> validate_team_abbreviation (PyStr t) = Ok t.
Proof.
  unfold valid_teams. intros Ht.
  repeat (apply elem_of_cons in Ht as [->|Ht]; [reflexivity|]).
  by apply elem_of_nil in Ht.
Qed.

Lemma strip_length s : (String.length (strip s) <= String.length s)%nat.
Proof.
  unfold strip.
  assert (forall t, String.length (lstrip t) <= String.length t)%nat as Hl.
  { induction t as [|c t IH]; simpl; [lia|]. destruct (is_space c); simpl; lia. }
  assert (forall t, String.length (rstrip t) <= String.length t)%nat as Hr.
  { induction t as [|c t IH]; simpl; [lia|].
    destruct (rstrip t) as [|c' r]; simpl in *.
    - destruct (is_space c); simpl; lia.
    - lia. }
  specialize (Hl (rstrip s)). specialize (Hr s). lia.
Qed.


Lemma validate_games_played_range games g :
  validate_games_played games = Ok g <->
  int games = Some g /\ (0 <= g <= 17)%Z.
Proof.
  unfold validate_games_played. destruct (int games) as [z|].
  - repeat case_decide; split; try done.
    + intros [[= <-] ?]. lia.
    + intros [[= <-] ?]. lia.
    + intros [= <-]. split; [done | lia].
    + by intros [[= <-] ?].
  - split; [done | by intros [? _]].
Qed.


End InputValidatorProps.

(** ** war_engine.py: the WAR of a position from weekly rows *)

Section WarPipelineProps.
Import Leagues WinProbability WarPipeline.

(** The order of the groups is arbitrary, but the groups are those of the
    frame. *)
Variable arrange : forall K : Type, list K -> list K.
Hypothesis arrange_perm : forall (K : Type) (l : list K), arrange K l ≡ₚ l.

Lemma sum_nonneg_ge xs x :
  Forall (fun y => 0 <= y) xs -> x ∈ xs -> x <= Py.sum xs.
Proof.
  unfold Py.sum. induction 1 as [|y ys Hy Hys IH]; intros Hx.
  - by apply elem_of_nil in Hx.
  - simpl. apply elem_of_cons in Hx as [->|Hx].
    + assert (0 <= foldr Rplus 0 ys); [|lra].
      clear -Hys. induction Hys as [|z zs Hz Hzs IH]; simpl; lra.
    + specialize (IH Hx). lra.
Qed.

(** The rows of the aggregated frame: one row for each key of the weekly
    frame whose summed games reach the minimum. *)
Lemma aggregate_to_season_elem league_config weekly_stats row :
  row ∈ _aggregate_to_season arrange league_config weekly_stats <->
  exists key,
    key ∈ map season_key weekly_stats /\
    row = aggregate_group key
            (filter (fun r => season_key r = key) weekly_stats) /\
    StatsRow.games_played row >= IZR (minimum_games_played league_config).
Proof.
  unfold _aggregate_to_season. rewrite list_elem_of_filter, map_fmap.
  rewrite list_elem_of_fmap. split.
  - intros (Hg & key & -> & Hkey).
    rewrite arrange_perm, elem_of_remove_dups in Hkey. by exists key.
  - intros (key & Hkey & -> & Hg). split; [done|]. exists key.
    split; [done|]. by rewrite arrange_perm, elem_of_remove_dups.
Qed.

Lemma aggregate_group_key key rows :
  (StatsRow.player_id (aggregate_group key rows),
   StatsRow.season (aggregate_group key rows),
   StatsRow.position (aggregate_group key rows)) = key.
Proof. by destruct key as [[pid s] pos]. Qed.

(** No two rows of the aggregated frame have the same player, season and
    position. *)
Lemma aggregate_to_season_nodup league_config weekly_stats :
  NoDup ((fun row => (StatsRow.player_id row, StatsRow.season row,
                      StatsRow.position row))
           <$> _aggregate_to_season arrange league_config weekly_stats).
Proof.
  unfold _aggregate_to_season.
  set (keys := arrange _ (remove_dups (map season_key weekly_stats))).
  assert (NoDup keys) as Hnd.
  { unfold keys. rewrite arrange_perm. apply NoDup_remove_dups. }
  clearbody keys. induction Hnd as [|key keys Hkey Hnd IH]; [constructor|].
  cbn [map]. destruct (decide (StatsRow.games_played
                                 (aggregate_group key
                                    (filter (fun r => season_key r = key)
                                       weekly_stats))
                               >= IZR (minimum_games_played league_config)))
    as [Hg|Hg].
  - rewrite filter_cons_True by done. rewrite fmap_cons, aggregate_group_key.
    apply NoDup_cons. split; [|done].
    intros Hin. apply list_elem_of_fmap in Hin as (row & Hrow & Hin).
    apply list_elem_of_filter in Hin as [_ Hin].
    rewrite map_fmap in Hin. apply list_elem_of_fmap in Hin as (k & -> & Hk).
    rewrite aggregate_group_key in Hrow. by subst.
  - by rewrite filter_cons_False by done.
Qed.

(** The rows that [calculate_position_war] keeps from the weekly frame. *)
Definition position_rows (league_config : LeagueConfig)
    (stats_df : list WeeklyRow) (position_ : string) : list WeeklyRow :=
  filter (fun r =>
            position r = position_ /\
            games_played r >= IZR (minimum_games_played league_config))
         stats_df.

(** Every aggregated row of the kept rows is of the position and is
    qualified. *)
Lemma position_season_stats_qualified league_config stats_df position_ :
  Replacement.qualified league_config
    (_aggregate_to_season arrange league_config
       (position_rows league_config stats_df position_)) position_
  = _aggregate_to_season arrange league_config
      (position_rows league_config stats_df position_).
Proof.
  unfold Replacement.qualified. apply filter_all, Forall_forall.
  intros row Hrow. apply aggregate_to_season_elem in Hrow
    as (key & Hkey & -> & Hg).
  split; [|done].
  rewrite map_fmap in Hkey. apply list_elem_of_fmap in Hkey as (r & -> & Hr).
  apply list_elem_of_filter in Hr as [[Hpos _] _]. done.
Qed.

(** A kept row makes the aggregated frame non-empty: the games of its
    group sum to at least its own. *)
Lemma position_season_stats_nonempty league_config stats_df position_ r :
  config_fields_ok league_config ->
  r ∈ position_rows league_config stats_df position_ ->
  _aggregate_to_season arrange league_config
    (position_rows league_config stats_df position_) <> [].
Proof.
  intros (_ & Hmin & _) Hr.
  set (rows := position_rows league_config stats_df position_) in *.
  set (group := filter (fun r' => season_key r' = season_key r) rows).
  assert (aggregate_group (season_key r) group
            ∈ _aggregate_to_season arrange league_config rows) as Hin.
  { apply aggregate_to_season_elem. exists (season_key r).
    split; [rewrite map_fmap; by apply list_elem_of_fmap_2|]. split; [done|].
    simpl. apply Rle_ge.
    assert (IZR (minimum_games_played league_config) <= games_played r) as Hg.
    { apply list_elem_of_filter in Hr as [[_ Hg] _]. lra. }
    eapply Rle_trans; [exact Hg|].
    apply sum_nonneg_ge.
    - rewrite map_fmap. apply Forall_fmap, Forall_forall. intros r' Hr'. simpl.
      apply list_elem_of_filter in Hr' as [_ Hr'].
      apply list_elem_of_filter in Hr' as [[_ Hg'] _].
      apply IZR_le in Hmin. lra.
    - rewrite map_fmap. apply list_elem_of_fmap_2.
      by apply list_elem_of_filter. }
  intros E. rewrite E in Hin. by apply elem_of_nil in Hin.
Qed.

Lemma min_of_elem seasons s : min_of seasons = Ok s -> s ∈ seasons.
Proof.
  destruct seasons as [|x xs]; [done|]. simpl. intros [= <-].
  revert x. induction xs as [|y ys IH]; intros x; simpl; [by left|].
  specialize (IH (Z.min x y)). apply elem_of_cons in IH as [Heq|IH].
  - rewrite Heq. destruct (Z.min_spec x y) as [[_ ->]|[_ ->]];
      [by left | by right; left].
  - by do 2 right.
Qed.

(** The two ways through [calculate_position_war]: [None] when no weekly
    row is kept or the position has no starter slot, and otherwise the
    construction of the result from the replacement level of the aggregated
    rows. *)
Lemma position_war_cases league_config stats_df position_ seasons weeks
    team_context :
  config_fields_ok league_config ->
  let rows := position_rows league_config stats_df position_ in
  let season_stats := _aggregate_to_season arrange league_config rows in
  ((rows = [] \/ position_ ∉ get_all_positions league_config) /\
   calculate_position_war arrange league_config stats_df position_ seasons
     weeks team_context = Ok None) \/
  (rows <> [] /\ position_ ∈ get_all_positions league_config /\
   exists info max_req,
     snd (get_position_requirements (roster league_config) position_)
       = max_req /\
     (max_req > 0)%Z /\
     (1 <= Replacement.rank info <= teams league_config * max_req)%Z /\
     get_starter_pool_size league_config position_
       = (teams league_config * max_req)%Z /\
     calculate_position_war arrange league_config stats_df position_ seasons
       weeks team_context =
       (season_ ← min_of seasons;
        position_war ←
          new_position_war
            {| PositionWAR.position := position_;
               PositionWAR.season := season_;
               PositionWAR.total_teams := teams league_config;
               PositionWAR.starters_per_team := max_req;
               PositionWAR.total_starter_spots :=
                 (teams league_config * max_req)%Z;
               PositionWAR.replacement_level_rank := Replacement.rank info;
               PositionWAR.replacement_player_id :=
                 Some (Replacement.player_id info);
               PositionWAR.player_wars :=
                 Frame.sort_desc WARResult.wins_above_replacement
                   (omap (fun player_data =>
                            WarEngine._calculate_player_war player_data info
                              team_context weeks)
                         season_stats) |};
        Ok (Some position_war))).
Proof.
  intros Hcfg rows season_stats.
  unfold calculate_position_war. fold (position_rows league_config stats_df position_).
  fold rows. fold season_stats.
  pose proof (position_season_stats_qualified league_config stats_df position_)
    as Hq.
  fold rows in Hq. fold season_stats in Hq.
  destruct (decide (Frame.len rows = 0)%Z) as [Hlen|Hlen].
  { left. split; [|done]. left. unfold Frame.len in Hlen.
    destruct rows; [done|simpl in Hlen; lia]. }
  assert (rows <> []) as Hrows by (intros E; rewrite E in Hlen; done).
  destruct (decide (position_ ∈ get_all_positions league_config))
    as [Hpos|Hpos].
  - right. split; [done|]. split; [done|].
    assert (exists r, r ∈ rows) as [r Hrow].
    { destruct rows as [|r rows']; [done|]. exists r. by left. }
    pose proof (position_season_stats_nonempty league_config stats_df
                  position_ r Hcfg Hrow) as Hne.
    fold rows in Hne. fold season_stats in Hne.
    pose proof Hpos as Hmax. unfold get_all_positions in Hmax.
    apply list_elem_of_filter in Hmax as [Hmax Hcode].
    unfold get_starter_pool_size.
    destruct (get_position_requirements (roster league_config) position_)
      as [min_req max_req] eqn:Hreq.
    cbn [snd] in *.
    destruct (find_replacement_level_spec league_config season_stats position_
                min_req max_req Hcfg Hreq Hmax)
      as (info & row & Hrun & Hrank & _).
    { by rewrite Hq. }
    rewrite Hrun. cbn [mbind result_bind].
    exists info, max_req.
    pose proof Hcfg as (Hteams & _).
    assert (teams league_config * max_req > 0)%Z as Hspots by nia.
    rewrite decide_True by done.
    split_and!; try done.
    + rewrite Hrank. unfold Frame.len. rewrite sort_desc_length, Hq.
      assert (length season_stats <> 0%nat) by (by destruct season_stats).
      match goal with
      | |- context [decide ?P] => destruct (decide P)
      end; lia.
    + rewrite Hrank.
      match goal with
      | |- context [decide ?P] => destruct (decide P)
      end; lia.
  - left. split; [by right|].
    assert (snd (get_position_requirements (roster league_config) position_)
            = 0%Z) as Hmax.
    { pose proof Hcfg as (_ & _ & Hroster).
      pose proof (position_requirements_nonneg _ position_ Hroster)
        as [_ Hge].
      destruct (decide (snd (get_position_requirements (roster league_config)
                               position_) = 0)%Z) as [|Hne]; [done|].
      exfalso. apply Hpos. unfold get_all_positions.
      apply list_elem_of_filter. split; [lia|].
      unfold get_position_requirements in Hne.
      destruct (position_map (roster league_config) !! position_)
        as [req|] eqn:Hreq; [|done].
      unfold position_map in Hreq. apply elem_of_list_to_map_2 in Hreq.
      unfold all_position_codes.
      repeat (apply elem_of_cons in Hreq as [Heq|Hreq];
              [injection Heq as -> _; repeat constructor|]).
      by apply elem_of_nil in Hreq. }
    unfold Replacement.find_replacement_level.
    destruct (get_position_requirements (roster league_config) position_)
      as [min_req max_req]. simpl in Hmax. subst max_req.
    rewrite decide_True by done. done.
Qed.

(** What a result of [_calculate_player_war] copies from the aggregated
    row. *)
Lemma player_war_row_fields player_data replacement_info team_context weeks
    war_result :
  WarEngine._calculate_player_war player_data replacement_info team_context
    weeks = Some war_result ->
  WARResult.fields_ok war_result /\
  IZR (WARResult.games_played war_result)
    = StatsRow.games_played player_data /\
  WARResult.player_id war_result = StatsRow.player_id player_data /\
  WARResult.season war_result = StatsRow.season player_data /\
  WARResult.position war_result = StatsRow.position player_data /\
  WARResult.total_fantasy_points war_result
    = StatsRow.total_fantasy_points_mppr player_data.
Proof.
  unfold WarEngine._calculate_player_war.
  destruct (WarEngine.player_war_body player_data replacement_info
              team_context weeks) as [w'|] eqn:Hbody; [|done].
  intros [= ->]. unfold WarEngine.player_war_body in Hbody.
  pose proof (war_result_new_fields _ _ _ _ _ _ _ _ _ _ _ _ _ _ _ _ _ _ Hbody)
    as (Hpid & Hseason & Hpos & _ & _ & Htfp).
  apply war_result_new_ok in Hbody as (Hok & Hg & _).
  done.
Qed.

Lemma omap_keys_sublist {A B K} (f : A -> option B) (ka : A -> K)
    (kb : B -> K) (l : list A) :
  (forall a b, f a = Some b -> kb b = ka a) ->
  sublist (kb <$> omap f l) (ka <$> l).
Proof.
  intros Hf. induction l as [|a l IH]; simpl; [constructor|].
  destruct (f a) as [b|] eqn:Hb; simpl.
  - rewrite (Hf a b Hb). by constructor.
  - by constructor.
Qed.

(** A position with a starter slot and a kept weekly row has a result,
    when the minimum of [seasons] is a valid season. *)
Lemma position_war_some league_config stats_df position_ seasons weeks
    team_context season_ :
  config_fields_ok league_config ->
  min_of seasons = Ok season_ ->
  (1920 <= season_ <= 2030)%Z ->
  position_ ∈ get_all_positions league_config ->
  (exists r, r ∈ stats_df /\ position r = position_ /\
             games_played r >= IZR (minimum_games_played league_config)) ->
  exists position_war,
    calculate_position_war arrange league_config stats_df position_
      seasons weeks team_context = Ok (Some position_war).
Proof.
  intros Hcfg Hmin Hseason Hpos (r & Hr & Hrpos & Hg).
  destruct (position_war_cases league_config stats_df position_ seasons weeks
              team_context Hcfg)
    as [[Hnone Hrun]|(Hrows & _ & info & max_req & Hreq & Hmax & Hrank
                      & Hpool & Hrun)].
  - destruct Hnone as [Hnone|Hnone]; [|done].
    assert (r ∈ position_rows league_config stats_df position_) as Hrow
      by (by apply list_elem_of_filter).
    rewrite Hnone in Hrow. by apply elem_of_nil in Hrow.
  - rewrite Hrun, Hmin. cbn [mbind result_bind].
    unfold new_position_war.
    match goal with
    | |- context [decide (position_war_fields_ok ?p)] =>
        destruct (decide (position_war_fields_ok p)) as [Hok|Hok]
    end; [cbn [mbind result_bind]; eauto|].
    exfalso. apply Hok. unfold position_war_fields_ok.
    cbn -[all_position_codes].
    pose proof Hcfg as (Hteams & _).
    apply list_elem_of_filter in Hpos as [_ Hcode].
    split_and!; try done; try lia; nia.
Qed.

(** X24: with a valid league configuration and a list of seasons whose
    minimum is in 1920..2030, [calculate_position_war] returns a result
    exactly when the position has a starter slot in the league and some
    weekly row of the position has [games_played] at least the minimum; it
    returns [None] otherwise, without raising.  The rows are filtered by
    their own games before they are summed: a player whose weekly rows each
    count fewer games than the minimum is left out whatever the sum. *)
Theorem position_war_returns_iff :
  forall (league_config : LeagueConfig) (stats_df : list WeeklyRow)
         (position_ : string) (seasons weeks : list Z)
         (team_context : TeamContext) (season_ : Z),
    config_fields_ok league_config ->
    min_of seasons = Ok season_ ->
    (1920 <= season_ <= 2030)%Z ->
    (position_ ∈ get_all_positions league_config /\
     (exists r, r ∈ stats_df /\ position r = position_ /\
                games_played r >= IZR (minimum_games_played league_config)) ->
     exists position_war,
       calculate_position_war arrange league_config stats_df position_
         seasons weeks team_context = Ok (Some position_war)) /\
    (position_ ∉ get_all_positions league_config \/
     (forall r, r ∈ stats_df -> position r = position_ ->
                games_played r < IZR (minimum_games_played league_config)) ->
     calculate_position_war arrange league_config stats_df position_
       seasons weeks team_context = Ok None).
Proof.
  intros cfg df pos seasons weeks ctx s Hcfg Hmin Hseason. split.
  - intros [Hpos Hr]. by eapply position_war_some.
  - intros Hnone.
    destruct (position_war_cases cfg df pos seasons weeks ctx Hcfg)
      as [[_ Hrun]|(Hrows & Hpos & _)]; [done|].
    destruct Hnone as [Hnot|Hnone]; [done|]. exfalso. apply Hrows.
    unfold position_rows. apply filter_none, Forall_forall.
    intros r Hr [Hrpos Hg]. specialize (Hnone r Hr Hrpos). lra.
Qed.

(** X25: every result of [calculate_position_war] under a valid league
    configuration is for the position asked, with the league's teams, the
    minimum of [seasons] as its season, [teams * starters_per_team] starter
    spots and a replacement rank between 1 and that number.  Its
    [player_wars] are in decreasing order of WAR and hold at most one
    result for a player and season; the games and the points of each are
    the sums over the weekly rows of that player, season and position
    that have at least the minimum games themselves, and the games so summed
    reach the minimum. *)
Theorem position_war_structure :
  forall (league_config : LeagueConfig) (stats_df : list WeeklyRow)
         (position_ : string) (seasons weeks : list Z)
         (team_context : TeamContext) (position_war : PositionWAR.t),
    config_fields_ok league_config ->
    calculate_position_war arrange league_config stats_df position_ seasons
      weeks team_context = Ok (Some position_war) ->
    let player_wars := PositionWAR.player_wars position_war in
    PositionWAR.position position_war = position_ /\
    position_ ∈ get_all_positions league_config /\
    min_of seasons = Ok (PositionWAR.season position_war) /\
    PositionWAR.total_teams position_war = teams league_config /\
    PositionWAR.starters_per_team position_war
      = snd (get_position_requirements (roster league_config) position_) /\
    PositionWAR.total_starter_spots position_war
      = (teams league_config * PositionWAR.starters_per_team position_war)%Z /\
    (1 <= PositionWAR.replacement_level_rank position_war
       <= PositionWAR.total_starter_spots position_war)%Z /\
    (forall i j w1 w2,
       (i <= j)%nat -> player_wars !! i = Some w1 ->
       player_wars !! j = Some w2 ->
       WARResult.wins_above_replacement w2
         <= WARResult.wins_above_replacement w1) /\
    NoDup ((fun w => (WARResult.player_id w, WARResult.season w))
             <$> player_wars) /\
    (forall w, w ∈ player_wars ->
       let weekly :=
         filter (fun r =>
                   player_id r = WARResult.player_id w /\
                   season r = WARResult.season w /\
                   position r = position_ /\
                   games_played r
                     >= IZR (minimum_games_played league_config))
                stats_df in
       WARResult.position w = position_ /\
       weekly <> [] /\
       IZR (WARResult.games_played w) = Py.sum (map games_played weekly) /\
       WARResult.total_fantasy_points w
         = Py.sum (map fantasy_points_mppr weekly) /\
       (minimum_games_played league_config <= WARResult.games_played w)%Z).
Proof.
  intros cfg df pos seasons weeks ctx pw Hcfg Hrun.
  destruct (position_war_cases cfg df pos seasons weeks ctx Hcfg)
    as [[_ Hnone]|(Hrows & Hpos & info & max_req & Hreq & Hmax & Hrank
                   & Hpool & Hcase)]; [congruence|].
  rewrite Hcase in Hrun. clear Hcase.
  destruct (min_of seasons) as [s|e] eqn:Hmin; [|done].
  cbn [mbind result_bind] in Hrun. unfold new_position_war in Hrun.
  match type of Hrun with
  | context [decide (position_war_fields_ok ?p)] =>
      destruct (decide (position_war_fields_ok p)) as [Hok|Hok]
  end; [|done].
  cbn [mbind result_bind] in Hrun. injection Hrun as <-.
  intros player_wars. subst player_wars.
  cbn [PositionWAR.position PositionWAR.season PositionWAR.total_teams
       PositionWAR.starters_per_team PositionWAR.total_starter_spots
       PositionWAR.replacement_level_rank PositionWAR.player_wars].
  set (rows := position_rows cfg df pos) in *.
  set (season_stats := _aggregate_to_season arrange cfg rows).
  set (run := fun player_data =>
                WarEngine._calculate_player_war player_data info ctx weeks).
  assert (forall row, row ∈ season_stats ->
            exists r, r ∈ rows /\
              StatsRow.player_id row = player_id r /\
              StatsRow.season row = season r /\
              StatsRow.position row = pos /\
              StatsRow.games_played row
                >= IZR (minimum_games_played cfg) /\
              StatsRow.games_played row
                = Py.sum (map games_played
                            (filter (fun r' => season_key r' = season_key r)
                                    rows)) /\
              StatsRow.total_fantasy_points_mppr row
                = Py.sum (map fantasy_points_mppr
                            (filter (fun r' => season_key r' = season_key r)
                                    rows))) as Hrow.
  { intros row Hin. apply aggregate_to_season_elem in Hin
      as (key & Hkey & -> & Hg).
    rewrite map_fmap in Hkey. apply list_elem_of_fmap in Hkey as (r & -> & Hr).
    exists r. split; [done|]. split_and!; try done.
    apply list_elem_of_filter in Hr as [[Hrpos _] _]. done. }
  split_and!; try done; try lia.
  - intros i j w1 w2 Hij H1 H2.
    eapply (sorted_desc_lookup WARResult.wins_above_replacement); [|done..].
    apply sort_desc_sorted.
  - rewrite sort_desc_perm.
    assert (sublist
              ((fun w => (WARResult.player_id w, WARResult.season w))
                 <$> omap run season_stats)
              ((fun row => (StatsRow.player_id row, StatsRow.season row))
                 <$> season_stats)) as Hsub.
    { apply omap_keys_sublist. intros row w Hw.
      apply player_war_row_fields in Hw as (_ & _ & -> & -> & _). done. }
    eapply sublist_NoDup; [|exact Hsub].
    pose proof (aggregate_to_season_nodup cfg rows) as Hnd.
    fold season_stats in Hnd.
    apply (NoDup_fmap_1 (fun k : string * Z => (k.1, k.2, pos))).
    rewrite <- list_fmap_compose.
    erewrite list_fmap_ext; [exact Hnd|].
    intros i row Hi. simpl.
    apply list_elem_of_lookup_2 in Hi.
    destruct (Hrow row Hi) as (r & _ & _ & _ & -> & _). done.
  - intros w Hw.
    set (weekly := filter _ df).
    rewrite sort_desc_perm in Hw. apply list_elem_of_omap in Hw
      as (row & Hin & Hw).
    apply player_war_row_fields in Hw
      as (_ & Hg & Hpid & Hseason & Hwpos & Htfp).
    destruct (Hrow row Hin) as (r & Hr & Hrpid & Hrs & Hrpos & Hge & Hsum
                                & Hpts).
    assert (weekly = filter (fun r' => season_key r' = season_key r) rows)
      as Hweekly.
    { unfold weekly, rows, position_rows. rewrite list_filter_filter.
      apply list_filter_iff. intros r'. unfold season_key.
      rewrite Hpid, Hseason, Hrpid, Hrs.
      apply list_elem_of_filter in Hr as [[Hp _] _].
      split.
      - intros (-> & -> & -> & Hg'). rewrite Hp. done.
      - intros [[= -> -> Hp'] [_ Hg']]. rewrite <- Hp. done. }
    rewrite Hweekly, Hg, Htfp, Hwpos, Hrpos.
    split_and!; try done.
    + intros E. assert (r ∈ filter (fun r' => season_key r' = season_key r) rows)
        as Hr' by (by apply list_elem_of_filter).
      rewrite E in Hr'. by apply elem_of_nil in Hr'.
    + apply le_IZR. rewrite Hg. lra.
Qed.


(** *** The league *)

Lemma dict_set_new {V} (d : list (string * V)) k v :
  k ∉ d.*1 -> dict_set d k v = d ++ [(k, v)].
Proof.
  induction d as [|[k' v'] d IH]; simpl; [done|]. intros Hk.
  apply not_elem_of_cons in Hk as [Hne Hk].
  rewrite decide_False by done. by rewrite IH.
Qed.

Lemma all_position_codes_nodup : NoDup all_position_codes.
Proof. apply (bool_decide_unpack _). by vm_compute. Qed.

Lemma get_all_positions_nodup league_config :
  NoDup (get_all_positions league_config).
Proof. apply NoDup_filter, all_position_codes_nodup. Qed.

(** The entry that a position adds to [position_results]. *)
Definition league_entry (run : string -> result (option PositionWAR.t))
    (position_ : string) : option (string * PositionWAR.t) :=
  match run position_ with
  | Ok (Some pos_war) =>
      if decide (Frame.len (PositionWAR.player_wars pos_war) > 0)%Z
      then Some (position_, pos_war) else None
  | _ => None
  end.

Lemma league_entry_key run position_ item :
  league_entry run position_ = Some item -> item.1 = position_.
Proof.
  unfold league_entry. destruct (run position_) as [[pw|]|]; [|done..].
  case_decide; [|done]. by intros [= <-].
Qed.

Lemma league_entries_keys run positions :
  sublist (omap (league_entry run) positions).*1 positions.
Proof.
  induction positions as [|pos positions IH]; simpl; [constructor|].
  destruct (league_entry run pos) as [item|] eqn:Hitem; simpl.
  - rewrite (league_entry_key _ _ _ Hitem). by constructor.
  - by constructor.
Qed.

(** When no position raises, the loop over the positions collects their
    entries in order. *)
Lemma league_fold_ok league_config filtered_stats seasons weeks team_context
    positions acc :
  let run position_ :=
    calculate_position_war arrange league_config filtered_stats position_
      seasons weeks team_context in
  (forall position_, position_ ∈ positions -> exists o, run position_ = Ok o) ->
  NoDup positions ->
  (forall position_, position_ ∈ positions -> position_ ∉ acc.*1) ->
  foldl (league_step arrange league_config filtered_stats seasons weeks
           team_context) (Ok acc) positions
  = Ok (acc ++ omap (league_entry run) positions).
Proof.
  intros run. revert acc.
  induction positions as [|pos positions IH]; intros acc Hrun Hnd Hnew.
  { simpl. by rewrite app_nil_r. }
  apply NoDup_cons in Hnd as [Hpos Hnd]. cbn [foldl].
  assert (forall acc',
            acc'.*1 = acc.*1 \/ acc'.*1 = acc.*1 ++ [pos] ->
            foldl (league_step arrange league_config filtered_stats seasons
                     weeks team_context) (Ok acc') positions
            = Ok (acc' ++ omap (league_entry run) positions)) as Hnext.
  { intros acc' Hkeys. apply IH; [intros p Hp; apply Hrun; by right|done|].
    intros p Hp Hin. destruct Hkeys as [E|E]; rewrite E in Hin.
    - apply (Hnew p); [by right|done].
    - apply elem_of_app in Hin as [Hin|Hin]; [apply (Hnew p); [by right|done]|].
      apply list_elem_of_singleton in Hin. by subst. }
  destruct (Hrun pos) as [o Ho]; [by left|].
  assert (league_entry run pos =
            match o with
            | Some pw =>
                if decide (Frame.len (PositionWAR.player_wars pw) > 0)%Z
                then Some (pos, pw) else None
            | None => None
            end) as Hentry.
  { unfold league_entry. by rewrite Ho. }
  change (omap (league_entry run) (pos :: positions))
    with (match league_entry run pos with
          | Some y => y :: omap (league_entry run) positions
          | None => omap (league_entry run) positions
          end).
  rewrite Hentry. unfold league_step at 2. cbn [mbind result_bind].
  fold (run pos). rewrite Ho. cbn [mbind result_bind]. destruct o as [pw|].
  - destruct (decide (Frame.len (PositionWAR.player_wars pw) > 0)%Z).
    + rewrite dict_set_new by (apply Hnew; by left).
      rewrite Hnext.
      * by rewrite <- app_assoc.
      * right. by rewrite fmap_app.
    + rewrite Hnext; [done | by left].
  - rewrite Hnext; [done | by left].
Qed.

Lemma league_fold_raise league_config filtered_stats seasons weeks
    team_context positions e :
  foldl (league_step arrange league_config filtered_stats seasons weeks
           team_context) (Raise e) positions = Raise e.
Proof. induction positions as [|pos positions IH]; simpl; done. Qed.

(** When every position returns [None] or raises the same exception, so
    does the loop: it ends with no entry or with that exception. *)
Lemma league_fold_none league_config filtered_stats seasons weeks
    team_context positions e :
  (forall position_, position_ ∈ positions ->
     calculate_position_war arrange league_config filtered_stats position_
       seasons weeks team_context = Ok None \/
     calculate_position_war arrange league_config filtered_stats position_
       seasons weeks team_context = Raise e) ->
  foldl (league_step arrange league_config filtered_stats seasons weeks
           team_context) (Ok []) positions = Ok [] \/
  foldl (league_step arrange league_config filtered_stats seasons weeks
           team_context) (Ok []) positions = Raise e.
Proof.
  induction positions as [|pos positions IH]; intros Hrun; [by left|].
  cbn [foldl]. unfold league_step at 2 4. cbn [mbind result_bind].
  destruct (Hrun pos) as [-> | ->]; [by left| |]; cbn [mbind result_bind].
  - apply IH. intros p Hp. apply Hrun. by right.
  - right. apply league_fold_raise.
Qed.

(** A position either has a result or not, or the season is refused. *)
Lemma position_war_outcome league_config stats_df position_ seasons weeks
    team_context :
  config_fields_ok league_config ->
  match min_of seasons with
  | Ok season_ =>
      if decide (1920 <= season_ <= 2030)%Z then
        exists o,
          calculate_position_war arrange league_config stats_df position_
            seasons weeks team_context = Ok o
      else
        calculate_position_war arrange league_config stats_df position_
          seasons weeks team_context = Ok None \/
        calculate_position_war arrange league_config stats_df position_
          seasons weeks team_context = Raise ValidationError
  | Raise e =>
      calculate_position_war arrange league_config stats_df position_
        seasons weeks team_context = Ok None \/
      calculate_position_war arrange league_config stats_df position_
        seasons weeks team_context = Raise e
  end.
Proof.
  intros Hcfg.
  destruct (position_war_cases league_config stats_df position_ seasons weeks
              team_context Hcfg)
    as [[_ Hrun]|(Hrows & Hpos & info & max_req & Hreq & Hmax & Hrank
                  & Hpool & Hrun)].
  - rewrite Hrun. destruct (min_of seasons) as [s|e]; [|by left].
    case_decide; [eauto | by left].
  - rewrite Hrun. destruct (min_of seasons) as [s|e]; [|by right].
    cbn [mbind result_bind]. unfold new_position_war.
    match goal with
    | |- context [decide (position_war_fields_ok ?p)] =>
        destruct (decide (position_war_fields_ok p)) as [Hok|Hok]
    end; cbn [mbind result_bind].
    + destruct Hok as (_ & Hs & _). simpl in Hs.
      rewrite decide_True by done. eauto.
    + case_decide as Hs; [|by right]. exfalso. apply Hok.
      unfold position_war_fields_ok. cbn -[all_position_codes].
      pose proof Hcfg as (Hteams & _).
      apply list_elem_of_filter in Hpos as [_ Hcode].
      split_and!; try done; try lia; nia.
Qed.

Lemma league_statistics_fold items stats :
  let result :=
    foldl (fun stats (item : string * PositionWAR.t) =>
             let wars := PositionWAR.player_wars (snd item) in
             let pos_war_total :=
               Py.sum (map WARResult.wins_above_replacement wars) in
             {| total_war_generated :=
                  total_war_generated stats + pos_war_total;
                average_war_per_position :=
                  average_war_per_position stats ++
                  [(fst item,
                    match wars with
                    | [] => 0
                    | _ => pos_war_total / INR (length wars)
                    end)] |})
          stats items in
  Forall (fun item : string * PositionWAR.t =>
            PositionWAR.player_wars (snd item) <> []) items ->
  average_war_per_position result =
    average_war_per_position stats ++
    map (fun item : string * PositionWAR.t =>
           (fst item,
            Py.sum (map WARResult.wins_above_replacement
                        (PositionWAR.player_wars (snd item)))
            / INR (length (PositionWAR.player_wars (snd item)))))
        items.
Proof.
  revert stats. induction items as [|item items IH]; intros stats; simpl.
  - intros _. by rewrite app_nil_r.
  - intros Hne. apply Forall_cons in Hne as [Hitem Hne].
    rewrite IH by done. simpl. rewrite <- app_assoc. f_equal. simpl. f_equal.
    f_equal. by destruct (PositionWAR.player_wars item.2).
Qed.

(** X26: the outcomes of [calculate_league_war] under a valid league
    configuration.  With no season it raises the [ValueError] of [min]; with
    a first season outside 1920..2030 it raises a validation error; otherwise
    it returns.  The positions of the result are, in the league's order,
    those whose [calculate_position_war] on the rows of the chosen seasons
    and weeks gives a result with at least one player, [positions_analyzed]
    are their keys, and [average_war_per_position] gives each of them the
    sum of the WAR of its players over their number. *)
Theorem league_war_outcomes :
  forall (league_config : LeagueConfig) (stats_df : list WeeklyRow)
         (seasons : list Z) (weeks : option (list Z)),
    config_fields_ok league_config ->
    let run := calculate_league_war arrange league_config stats_df seasons
                 weeks in
    let weeks_used :=
      match weeks with
      | Some (w :: ws) => w :: ws
      | _ => regular_season_weeks league_config
      end in
    let filtered_stats :=
      filter (fun r => season r ∈ seasons /\ week r ∈ weeks_used) stats_df in
    let team_context :=
      _calculate_team_scoring_context arrange league_config filtered_stats in
    (seasons = [] ->
     run = Raise (ValueError "min() arg is an empty sequence")) /\
    (forall season_,
       min_of seasons = Ok season_ -> ~ (1920 <= season_ <= 2030)%Z ->
       run = Raise ValidationError) /\
    (forall season_,
       min_of seasons = Ok season_ -> (1920 <= season_ <= 2030)%Z ->
       exists league_war statistics,
         run = Ok (league_war, statistics) /\
         LeagueWAR.season league_war = season_ /\
         LeagueWAR.total_teams league_war = teams league_config /\
         LeagueWAR.weeks_analyzed league_war = weeks_used /\
         LeagueWAR.positions_analyzed league_war
           = (LeagueWAR.position_results league_war).*1 /\
         sublist (LeagueWAR.positions_analyzed league_war)
                 (get_all_positions league_config) /\
         (forall position_ position_war,
            (position_, position_war)
              ∈ LeagueWAR.position_results league_war <->
            position_ ∈ get_all_positions league_config /\
            calculate_position_war arrange league_config filtered_stats
              position_ seasons weeks_used team_context
              = Ok (Some position_war) /\
            PositionWAR.player_wars position_war <> []) /\
         average_war_per_position statistics =
           map (fun item : string * PositionWAR.t =>
                  (fst item,
                   Py.sum (map WARResult.wins_above_replacement
                               (PositionWAR.player_wars (snd item)))
                   / INR (length (PositionWAR.player_wars (snd item)))))
               (LeagueWAR.position_results league_war)).
Proof.
  intros cfg df seasons weeks Hcfg run weeks_used filtered_stats team_context.
  assert (run =
            (position_results ←
               foldl (league_step arrange cfg filtered_stats seasons
                        weeks_used team_context)
                     (Ok []) (get_all_positions cfg);
             season_ ← min_of seasons;
             league_war ←
               new_league_war
                 {| LeagueWAR.season := season_;
                    LeagueWAR.league_name := name cfg;
                    LeagueWAR.total_teams := teams cfg;
                    LeagueWAR.weeks_analyzed := weeks_used;
                    LeagueWAR.positions_analyzed := map fst position_results;
                    LeagueWAR.position_results := position_results |};
             Ok (league_war, _calculate_league_statistics league_war)))
    as Hrun by done.
  clearbody run. subst run.
  pose proof (fun pos =>
                position_war_outcome cfg filtered_stats pos seasons weeks_used
                  team_context Hcfg) as Hpos.
  split_and!.
  - intros ->. simpl in Hpos.
    destruct (league_fold_none cfg filtered_stats [] weeks_used team_context
                (get_all_positions cfg)
                (ValueError "min() arg is an empty sequence")) as [-> | ->];
      [by intros pos _ | done | done].
  - intros s Hmin Hout. rewrite Hmin in Hpos. rewrite Hmin.
    destruct (league_fold_none cfg filtered_stats seasons weeks_used
                team_context (get_all_positions cfg) ValidationError)
      as [-> | ->]; [| |done].
    + intros pos _. specialize (Hpos pos). by rewrite decide_False in Hpos.
    + cbn [mbind result_bind]. unfold new_league_war.
      rewrite decide_False; [done|]. by intros (Hs & _).
  - intros s Hmin Hin. rewrite Hmin in Hpos. rewrite Hmin.
    rewrite (league_fold_ok cfg filtered_stats seasons weeks_used team_context
               (get_all_positions cfg) []).
    + cbn [mbind result_bind app].
      set (entries := omap _ (get_all_positions cfg)).
      assert (sublist entries.*1 (get_all_positions cfg)) as Hsub
        by apply league_entries_keys.
      unfold new_league_war. rewrite decide_True.
      * cbn [mbind result_bind]. eexists _, _. split; [done|].
        cbn [LeagueWAR.season LeagueWAR.total_teams LeagueWAR.weeks_analyzed
             LeagueWAR.positions_analyzed LeagueWAR.position_results].
        split_and!; try done.
        -- intros pos pw. unfold entries. rewrite list_elem_of_omap.
           unfold league_entry. split.
           ++ intros (p & Hp & Hentry).
              destruct (calculate_position_war arrange cfg filtered_stats p
                          seasons weeks_used team_context)
                as [[pw'|]|] eqn:Hcalc; [|done..].
              case_decide as Hlen; [|done]. injection Hentry as -> ->.
              split_and!; [done..|]. intros E. rewrite E in Hlen.
              unfold Frame.len in Hlen. simpl in Hlen. lia.
           ++ intros (Hp & Hcalc & Hne). exists pos. split; [done|].
              rewrite Hcalc. rewrite decide_True; [done|].
              unfold Frame.len. destruct (PositionWAR.player_wars pw);
                [done | simpl; lia].
        -- unfold _calculate_league_statistics.
           cbn [LeagueWAR.position_results].
           rewrite league_statistics_fold; [done|].
           apply Forall_forall. intros [pos pw] Hitem.
           unfold entries in Hitem. apply list_elem_of_omap in Hitem
             as (p & _ & Hentry). unfold league_entry in Hentry.
           destruct (calculate_position_war arrange cfg filtered_stats p
                       seasons weeks_used team_context)
             as [[pw'|]|]; [|done..].
           case_decide as Hlen; [|done]. injection Hentry as -> ->.
           simpl. intros E. rewrite E in Hlen.
           unfold Frame.len in Hlen. simpl in Hlen. lia.
      * unfold league_war_fields_ok.
        cbn [LeagueWAR.season LeagueWAR.total_teams
             LeagueWAR.positions_analyzed LeagueWAR.position_results].
        pose proof Hcfg as (Hteams & _).
        assert (Forall (fun pos => pos ∈ all_position_codes) entries.*1)
          as Hcodes.
        { apply Forall_forall. intros pos Hp.
          eapply sublist_subseteq in Hp; [|exact Hsub].
          by apply list_elem_of_filter in Hp as [_ Hp]. }
        split_and!; [lia..|done|].
        by apply Forall_fmap in Hcodes.
    + intros pos _. specialize (Hpos pos). by rewrite decide_True in Hpos.
    + apply get_all_positions_nodup.
    + intros pos _. apply not_elem_of_nil.
Qed.

(** *** The team scoring context *)

Lemma position_scores_no_rows league_config stats_df position_ :
  (forall r, r ∈ stats_df -> position r <> position_) ->
  position_scores arrange league_config stats_df position_ = [].
Proof.
  intros Hnone. unfold position_scores, player_totals.
  destruct (get_position_requirements (roster league_config) position_)
    as [min_req max_req].
  case_decide; [done|].
  rewrite (filter_none _ stats_df).
  - simpl. rewrite (proj1 (Permutation_nil_r _) (arrange_perm _ [])).
    simpl. unfold Frame.head. case_decide; by rewrite take_nil.
  - apply Forall_forall. intros r Hr. by apply Hnone.
Qed.

(** X27: the team scoring context always has a score deviation of at least
    1; when no row of the frame is of a position of the league, it is the
    default average 100 with the default deviation 20. *)
Theorem team_scoring_context_defaults :
  forall (league_config : LeagueConfig) (stats_df : list WeeklyRow),
    let context :=
      _calculate_team_scoring_context arrange league_config stats_df in
    1 <= team_score_std context /\
    ((forall r, r ∈ stats_df ->
        position r ∉ get_all_positions league_config) ->
     team_avg_score context = 100 /\ team_score_std context = 20).
Proof.
  intros cfg df context. split.
  - unfold context, _calculate_team_scoring_context.
    destruct (match concat _ with [] => _ | _ => _ end) as [avg std].
    simpl. unfold Py.max. case_decide; lra.
  - intros Hnone. unfold context, _calculate_team_scoring_context.
    assert (forall positions,
              (forall r, r ∈ df -> position r ∉ positions) ->
              concat (map (position_scores arrange cfg df) positions) = [])
      as Hempty.
    { induction positions as [|pos positions IH]; intros Hnot; [done|].
      simpl. rewrite position_scores_no_rows.
      - apply IH. intros r Hr Hin. apply (Hnot r Hr). by right.
      - intros r Hr Heq. apply (Hnot r Hr). rewrite Heq. by left. }
    rewrite (Hempty _ Hnone).
    simpl. split; [lra|]. unfold Py.max. case_decide; lra.
Qed.

End WarPipelineProps.

(** *** Three weekly rows of two quarterbacks *)

Section WarPipelineExamples.
Import Leagues WinProbability WarPipeline.

(** Groups in the order of their first row. *)
Definition first_seen (K : Type) (l : list K) : list K := l.

Lemma first_seen_perm (K : Type) (l : list K) : first_seen K l ≡ₚ l.
Proof. done. Qed.

Definition weekly_row (player_id : string) (week : Z) (points : R)
    : WeeklyRow :=
  {| player_id := player_id; season := 2023; week := week;
     position := "QB"; games_played := 1; fantasy_points_mppr := points;
     player_name := None; team := Some "KC" |}.

Definition example_weekly_rows : list WeeklyRow :=
  [weekly_row "QB1" 1 20; weekly_row "QB1" 2 24; weekly_row "QB2" 1 10].

Lemma example_quarterback_row :
  exists r, r ∈ example_weekly_rows /\ position r = "QB" /\
            games_played r >= IZR (minimum_games_played fal_league).
Proof.
  exists (weekly_row "QB1" 1 20). split; [by left|]. split; [done|].
  simpl. lra.
Qed.

Lemma quarterback_in_league : "QB" ∈ get_all_positions fal_league.
Proof. rewrite fal_league_all_positions. by left. Qed.

(** The quarterbacks have a result, the running backs, without a row, have
    none. *)
Lemma position_war_returns_iff_witness :
  (exists position_war,
     calculate_position_war first_seen fal_league example_weekly_rows "QB"
       [2023]%Z [1; 2]%Z example_context = Ok (Some position_war)) /\
  calculate_position_war first_seen fal_league example_weekly_rows "RB"
    [2023]%Z [1; 2]%Z example_context = Ok None.
Proof.
  split.
  - apply (position_war_returns_iff first_seen first_seen_perm fal_league
             example_weekly_rows "QB" [2023]%Z [1; 2]%Z example_context 2023
             fal_league_fields_ok eq_refl ltac:(lia)).
    split; [apply quarterback_in_league | apply example_quarterback_row].
  - apply (position_war_returns_iff first_seen first_seen_perm fal_league
             example_weekly_rows "RB" [2023]%Z [1; 2]%Z example_context 2023
             fal_league_fields_ok eq_refl ltac:(lia)).
    right. intros r Hr Hpos. exfalso.
    repeat (apply elem_of_cons in Hr as [->|Hr]; [done|]).
    by apply elem_of_nil in Hr.
Defined.

Lemma position_war_structure_witness :
  exists position_war,
    calculate_position_war first_seen fal_league example_weekly_rows "QB"
      [2023]%Z [1; 2]%Z example_context = Ok (Some position_war) /\
    PositionWAR.position position_war = "QB" /\
    PositionWAR.season position_war = 2023%Z /\
    PositionWAR.total_starter_spots position_war = 16%Z /\
    (1 <= PositionWAR.replacement_level_rank position_war <= 16)%Z /\
    NoDup ((fun w => (WARResult.player_id w, WARResult.season w))
             <$> PositionWAR.player_wars position_war) /\
    (forall w, w ∈ PositionWAR.player_wars position_war ->
       WARResult.position w = "QB" /\
       (1 <= WARResult.games_played w)%Z).
Proof.
  destruct (position_war_some first_seen first_seen_perm fal_league
              example_weekly_rows "QB" [2023]%Z [1; 2]%Z example_context 2023
              fal_league_fields_ok eq_refl ltac:(lia) quarterback_in_league
              example_quarterback_row) as [pw Hrun].
  exists pw. split; [exact Hrun|].
  destruct (position_war_structure first_seen first_seen_perm fal_league
              example_weekly_rows "QB" [2023]%Z [1; 2]%Z example_context pw
              fal_league_fields_ok Hrun)
    as (Hpos & _ & Hseason & Hteams & Hstarters & Hspots & Hrank & _ & Hnd
        & Hwars).
  split; [exact Hpos|].
  split; [by injection Hseason|].
  assert (PositionWAR.total_starter_spots pw = 16%Z) as Hsixteen
    by (rewrite Hspots, Hstarters; reflexivity).
  split; [exact Hsixteen|].
  split; [by rewrite <- Hsixteen|].
  split; [exact Hnd|].
  intros w Hw. destruct (Hwars w Hw) as (Hwpos & _ & _ & _ & Hmin).
  split; [exact Hwpos | exact Hmin].
Defined.

(** The league of the three rows: analysed for season 2023, refused without
    a season. *)
Lemma league_war_outcomes_witness :
  (exists league_war statistics,
     calculate_league_war first_seen fal_league example_weekly_rows [2023]%Z
       None = Ok (league_war, statistics) /\
     LeagueWAR.season league_war = 2023%Z /\
     LeagueWAR.positions_analyzed league_war
       = (LeagueWAR.position_results league_war).*1) /\
  calculate_league_war first_seen fal_league example_weekly_rows [] None
    = Raise (ValueError "min() arg is an empty sequence").
Proof.
  split.
  - destruct (league_war_outcomes first_seen first_seen_perm fal_league
                example_weekly_rows [2023]%Z None fal_league_fields_ok)
      as (_ & _ & Hok).
    destruct (Hok 2023%Z eq_refl ltac:(lia))
      as (lw & stats & Hrun & Hseason & _ & _ & Hkeys & _).
    by exists lw, stats.
  - destruct (league_war_outcomes first_seen first_seen_perm fal_league
                example_weekly_rows [] None fal_league_fields_ok)
      as (Hempty & _).
    by apply Hempty.
Defined.

(** A frame without rows gives the default context. *)
Lemma team_scoring_context_defaults_witness :
  team_avg_score (_calculate_team_scoring_context first_seen fal_league [])
    = 100 /\
  team_score_std (_calculate_team_scoring_context first_seen fal_league [])
    = 20.
Proof.
  apply (team_scoring_context_defaults first_seen first_seen_perm fal_league
           []).
  intros r Hr. by apply elem_of_nil in Hr.
Defined.

End WarPipelineExamples.
